(** * jin.py: file filter, scan counters, upload workers, geolocation
      fallback, battery bars and the combined identifier

    A shallow embedding of the parts of [src/jin.py] that the specification
    makes checkable statements about.  Python values are an inductive type,
    Python floats are the binary64 primitive floats, Python [str] is
    [string] holding UTF-8 bytes, and every call into the operating system
    or the network is a field of an explicit environment record. *)

From Stdlib Require Import ZArith NArith Arith Bool Lia List String Ascii.
From Stdlib Require Import Numbers.DecimalString.
From Stdlib Require Import QArith.QArith_base QArith.Qround.
From Stdlib Require Import Floats.PrimFloat Floats.FloatOps Floats.SpecFloat.
Import ListNotations.

Open Scope string_scope.
Open Scope Z_scope.

(* ===================================================================== *)
(** * Python strings *)
(* ===================================================================== *)

Module PyStr.

(** [s * n]: the empty string when [n <= 0]. *)
Fixpoint repeat_nat (s : string) (n : nat) : string :=
  match n with
  | O => ""
  | S k => s ++ repeat_nat s k
  end.

Definition repeat (s : string) (n : Z) : string := repeat_nat s (Z.to_nat n).

(** A byte that continues a UTF-8 sequence has the shape [10xxxxxx]. *)
Definition is_continuation (a : ascii) : bool :=
  N.eqb (N.land (N_of_ascii a) 192) 128.

(** [len(s)]: the number of code points of a UTF-8 encoded string. *)
Fixpoint len (s : string) : nat :=
  match s with
  | EmptyString => O
  | String a rest => if is_continuation a then len rest else S (len rest)
  end.

(** [str.lower()] on the ASCII letters; other bytes are kept. *)
Definition lower_ascii (a : ascii) : ascii :=
  let n := N_of_ascii a in
  if andb (N.leb 65 n) (N.leb n 90) then ascii_of_N (n + 32) else a.

Fixpoint lower (s : string) : string :=
  match s with
  | EmptyString => EmptyString
  | String a rest => String (lower_ascii a) (lower rest)
  end.

(** [s.rfind(c)]: index of the last occurrence, [-1] when there is none. *)
Fixpoint rfind_aux (c : ascii) (s : string) (i acc : Z) : Z :=
  match s with
  | EmptyString => acc
  | String a rest => rfind_aux c rest (i + 1) (if Ascii.eqb a c then i else acc)
  end.

Definition rfind (c : ascii) (s : string) : Z := rfind_aux c s 0 (-1).

(** Slices [s[:i]], [s[i:]] and [s[i:j]] for [0 <= i <= j]. *)
Definition take (i : Z) (s : string) : string := substring 0 (Z.to_nat i) s.
Definition drop (i : Z) (s : string) : string :=
  substring (Z.to_nat i) (String.length s - Z.to_nat i) s.
Definition slice (i j : Z) (s : string) : string :=
  substring (Z.to_nat i) (Z.to_nat (j - i)) s.

Definition startswith (c : ascii) (s : string) : bool :=
  match s with
  | String a _ => Ascii.eqb a c
  | EmptyString => false
  end.

Fixpoint endswith (c : ascii) (s : string) : bool :=
  match s with
  | EmptyString => false
  | String a EmptyString => Ascii.eqb a c
  | String _ rest => endswith c rest
  end.

Fixpoint contains (c : ascii) (s : string) : bool :=
  match s with
  | EmptyString => false
  | String a rest => Ascii.eqb a c || contains c rest
  end.

Fixpoint join (sep : string) (l : list string) : string :=
  match l with
  | [] => ""
  | [x] => x
  | x :: rest => x ++ sep ++ join sep rest
  end.

(** [str(n)] for an integer. *)
Definition of_Z (z : Z) : string := NilEmpty.string_of_int (Z.to_int z).

End PyStr.

(* ===================================================================== *)
(** * Python floats (binary64) *)
(* ===================================================================== *)

Module PyFloat.

(** [float(n)] for an integer: correctly rounded, [OverflowError] (here
    [None]) when the integer is beyond the largest double. *)
Definition of_Z (z : Z) : option float :=
  match binary_normalize prec emax z 0 false with
  | S754_infinity _ => None
  | sf => Some (SF2Prim sf)
  end.

(** [int(x)]: truncation toward zero; [ValueError] on NaN and
    [OverflowError] on an infinity (here [None]). *)
Definition to_Z (x : float) : option Z :=
  match Prim2SF x with
  | S754_zero _ => Some 0
  | S754_finite s m e =>
      let a := if 0 <=? e then Zpos m * 2 ^ e else Zpos m / 2 ^ (- e) in
      Some (if s then - a else a)
  | S754_infinity _ => None
  | S754_nan => None
  end.

(** [bool(x)]: every float but the two zeros is true. *)
Definition truthy (x : float) : bool := negb (PrimFloat.eqb x zero).

(** ** [repr(x)]: the shortest decimal that reads back as [x] *)

(** Order of [a * 2^e2] and [c * 10^e10] as rationals. *)
Definition cmp_scaled (a e2 c e10 : Z) : comparison :=
  (a * 2 ^ Z.max e2 0 * 10 ^ Z.max (- e10) 0
     ?= c * 10 ^ Z.max e10 0 * 2 ^ Z.max (- e2) 0).

(** The least [k], searched upwards from [k], with [a * 2^e2 < 10^k]. *)
Fixpoint decpt_from (fuel : nat) (a e2 k : Z) : Z :=
  match fuel with
  | O => k
  | S f =>
      match cmp_scaled a e2 1 k with
      | Lt => k
      | _ => decpt_from f a e2 (k + 1)
      end
  end.

(** A lower bound of that [k] from the binary logarithm. *)
Definition decpt_guess (a e2 : Z) : Z :=
  (Z.log2 a + e2) * 30103 / 100000 - 1.

Definition inside (even : bool) (lo hi e2 c e10 : Z) : bool :=
  match cmp_scaled lo e2 c e10, cmp_scaled hi e2 c e10 with
  | Lt, Gt => true
  | Eq, Gt | Lt, Eq => even
  | _, _ => false
  end.

(** The digits and the decimal exponent of the shortest decimal inside
    the rounding interval [(lo, hi)] of [x], all three in units of [2^e2];
    among the decimals of that length the one nearest to [x]. *)
Fixpoint shortest (fuel : nat) (even : bool) (lo x hi e2 k n : Z) : Z * Z :=
  let q := k - n in
  let c1 := (x * 2 ^ Z.max e2 0 * 10 ^ Z.max (- q) 0)
              / (10 ^ Z.max q 0 * 2 ^ Z.max (- e2) 0) in
  let c2 := c1 + 1 in
  let in1 := inside even lo hi e2 c1 q in
  let in2 := inside even lo hi e2 c2 q in
  match fuel with
  | O => (c1, q)
  | S f =>
      if in1 && in2 then
        match cmp_scaled (2 * x) e2 (c1 + c2) q with
        | Lt => (c1, q)
        | Gt => (c2, q)
        | Eq => if Z.even c1 then (c1, q) else (c2, q)
        end
      else if in1 then (c1, q)
      else if in2 then (c2, q)
      else shortest f even lo x hi e2 k (n + 1)
  end.

Fixpoint strip_zeros (fuel : nat) (c q : Z) : Z * Z :=
  match fuel with
  | O => (c, q)
  | S f => if (c mod 10 =? 0) && negb (c =? 0)
           then strip_zeros f (c / 10) (q + 1) else (c, q)
  end.

Definition zeros (n : Z) : string := PyStr.repeat "0" n.

Definition exponent_text (e : Z) : string :=
  let a := Z.abs e in
  (if e <? 0 then "-" else "+") ++ (if a <? 10 then "0" else "") ++ PyStr.of_Z a.

(** Layout of the digits [ds] with the decimal point after [dp] digits:
    positional for [-4 < dp <= 16], scientific otherwise. *)
Definition layout (ds : string) (dp : Z) : string :=
  let nd := Z.of_nat (String.length ds) in
  if (-4 <? dp) && (dp <=? 16) then
    if dp <=? 0 then "0." ++ zeros (- dp) ++ ds
    else if nd <=? dp then ds ++ zeros (dp - nd) ++ ".0"
    else PyStr.take dp ds ++ "." ++ PyStr.drop dp ds
  else
    PyStr.take 1 ds ++ (if 1 <? nd then "." ++ PyStr.drop 1 ds else "")
      ++ "e" ++ exponent_text (dp - 1).

Definition repr (x : float) : string :=
  match Prim2SF x with
  | S754_nan => "nan"
  | S754_infinity s => if s then "-inf" else "inf"
  | S754_zero s => if s then "-0.0" else "0.0"
  | S754_finite s m e =>
      let mz := Zpos m in
      let boundary := (mz =? 2 ^ 52) && (-1074 <? e) in
      let lo := if boundary then 4 * mz - 1 else 4 * mz - 2 in
      let hi := 4 * mz + 2 in
      let k := decpt_from 8 (4 * mz) (e - 2) (decpt_guess (4 * mz) (e - 2)) in
      let '(c, q) := shortest 17 (Z.even mz) lo (4 * mz) hi (e - 2) k 1 in
      let '(c', q') := strip_zeros 20 c q in
      let ds := PyStr.of_Z c' in
      (if s then "-" else "") ++ layout ds (q' + Z.of_nat (String.length ds))
  end.


(** ** [float(s)] for a string *)

(** The double nearest to [n / d] for [0 < n] and [0 < d], ties to even:
    the quotient is cut well below the last kept bit and carries a sticky
    bit, so that [binary_normalize] rounds once. *)
Definition of_ratio (neg : bool) (n d : Z) : float :=
  let e := Z.log2 n - Z.log2 d - 60 in
  let num := n * 2 ^ Z.max (- e) 0 in
  let den := d * 2 ^ Z.max e 0 in
  let m := 2 * (num / den) + (if num mod den =? 0 then 0 else 1) in
  SF2Prim (binary_normalize prec emax (if neg then - m else m) (e - 1) neg).

(** The double nearest to [digits * 10^e10]. *)
Definition of_decimal (neg : bool) (digits e10 : Z) : float :=
  if digits =? 0 then (if neg then neg_zero else zero)
  else
    let magnitude := Z.of_nat (String.length (PyStr.of_Z digits)) + e10 in
    if 310 <? magnitude then (if neg then neg_infinity else infinity)
    else if magnitude <? -330 then (if neg then neg_zero else zero)
    else of_ratio neg (digits * 10 ^ Z.max e10 0) (10 ^ Z.max (- e10) 0).

Definition is_space (a : ascii) : bool :=
  let n := N_of_ascii a in
  (N.eqb n 32) || ((9 <=? n)%N && (n <=? 13)%N).

Definition is_digit (a : ascii) : bool :=
  let n := N_of_ascii a in ((48 <=? n)%N && (n <=? 57)%N).

Definition digit_value (a : ascii) : Z := Z.of_N (N_of_ascii a) - 48.

Fixpoint lstrip (l : list ascii) : list ascii :=
  match l with
  | a :: rest => if is_space a then lstrip rest else l
  | [] => []
  end.

Definition strip (l : list ascii) : list ascii :=
  rev (lstrip (rev (lstrip l))).

(** An underscore is dropped when it stands between two digits; any other
    underscore makes the literal invalid. *)
Fixpoint drop_underscores (prev : ascii) (l : list ascii) : option (list ascii) :=
  match l with
  | [] => if Ascii.eqb prev "_" then None else Some []
  | c :: rest =>
      if Ascii.eqb c "_" then
        if is_digit prev then drop_underscores c rest else None
      else if Ascii.eqb prev "_" && negb (is_digit c) then None
      else option_map (cons c) (drop_underscores c rest)
  end.

(** A run of digits: its value appended to [acc], its length, the rest. *)
Fixpoint read_digits (acc : Z) (count : Z) (l : list ascii) : Z * Z * list ascii :=
  match l with
  | a :: rest =>
      if is_digit a then read_digits (10 * acc + digit_value a) (count + 1) rest
      else (acc, count, l)
  | [] => (acc, count, [])
  end.

Definition read_sign (l : list ascii) : bool * list ascii :=
  match l with
  | a :: rest =>
      if Ascii.eqb a "-" then (true, rest)
      else if Ascii.eqb a "+" then (false, rest)
      else (false, l)
  | [] => (false, [])
  end.

(** The exponent part; when no digit follows the [e] the literal ends
    before it. *)
Definition read_exponent (l : list ascii) : Z * list ascii :=
  match l with
  | a :: rest =>
      if Ascii.eqb a "e" || Ascii.eqb a "E" then
        let '(neg, rest1) := read_sign rest in
        let '(v, count, rest2) := read_digits 0 0 rest1 in
        if count =? 0 then (0, l) else ((if neg then - v else v), rest2)
      else (0, l)
  | [] => (0, [])
  end.

Definition lower_list (l : list ascii) : list ascii := map PyStr.lower_ascii l.

Definition parse_inf_or_nan (l : list ascii) : option float :=
  let '(neg, rest) := read_sign l in
  let w := string_of_list_ascii (lower_list rest) in
  if (w =? "inf")%string || (w =? "infinity")%string
  then Some (if neg then neg_infinity else infinity)
  else if (w =? "nan")%string then Some nan
  else None.

Definition parse_decimal (l : list ascii) : option float :=
  let '(neg, rest) := read_sign l in
  let '(ip, icount, rest1) := read_digits 0 0 rest in
  let '(mant, fcount, rest2) :=
    match rest1 with
    | a :: r => if Ascii.eqb a "." then read_digits ip 0 r else (ip, 0, rest1)
    | [] => (ip, 0, [])
    end in
  if icount + fcount =? 0 then None
  else
    let '(ex, rest3) := read_exponent rest2 in
    match rest3 with
    | [] => Some (of_decimal neg mant (ex - fcount))
    | _ :: _ => None
    end.

(** [float(s)] for ASCII text: [None] stands for [ValueError]. *)
Definition of_string (s : string) : option float :=
  let l := strip (list_ascii_of_string s) in
  match (if PyStr.contains "_" s then drop_underscores "000" l else Some l) with
  | None => None
  | Some u =>
      match parse_inf_or_nan u with
      | Some f => Some f
      | None => parse_decimal u
      end
  end.

End PyFloat.

(* ===================================================================== *)
(** * Python values *)
(* ===================================================================== *)

(** The values that [json.loads], [r.json()] and the collectors produce.
    A dict keeps its insertion order, has string keys, and holds one entry
    per key (a lookup takes the first). *)
#[warnings="-register-all"]
Inductive pyval : Type :=
| PNone
| PBool (b : bool)
| PInt (z : Z)
| PFloat (f : float)
| PStr (s : string)
| PList (items : list pyval)
| PDict (entries : list (string * pyval)).

Definition dict : Type := list (string * pyval).

Inductive exn : Type :=
| AttributeError
| TypeError
| ValueError
| OverflowError
| MemoryError.

(** The outcome of an expression that may raise. *)
Inductive result (A : Type) : Type :=
| Ok (a : A)
| Raise (e : exn).
Arguments Ok {A} a.
Arguments Raise {A} e.

Definition bind {A B : Type} (r : result A) (k : A -> result B) : result B :=
  match r with
  | Ok a => k a
  | Raise e => Raise e
  end.

Notation "x <- c ;; k" := (bind c (fun x => k))
  (at level 61, c at next level, right associativity).

Module Py.

(** [bool(v)] *)
Definition truthy (v : pyval) : bool :=
  match v with
  | PNone => false
  | PBool b => b
  | PInt z => negb (z =? 0)
  | PFloat f => PyFloat.truthy f
  | PStr s => negb (s =? "")%string
  | PList items => match items with [] => false | _ :: _ => true end
  | PDict entries => match entries with [] => false | _ :: _ => true end
  end.

(** The value is the number 0: the integer, or one of the two float
    zeros. *)
Definition is_zero (v : pyval) : bool :=
  match v with
  | PInt z => z =? 0
  | PFloat f => PrimFloat.eqb f zero
  | _ => false
  end.

(** [a or b] *)
Definition or (a b : pyval) : pyval := if truthy a then a else b.

(** [d.get(k, default)] and [d.get(k)] on a dict. *)
Fixpoint lookup (d : dict) (k : string) : option pyval :=
  match d with
  | [] => None
  | (k', v) :: rest => if (k' =? k)%string then Some v else lookup rest k
  end.

Definition get_default (d : dict) (k : string) (default : pyval) : pyval :=
  match lookup d k with
  | Some v => v
  | None => default
  end.

Definition get (d : dict) (k : string) : pyval := get_default d k PNone.

(** [v.get(k)] on any value: only a dict has the method. *)
Definition attr_get (v : pyval) (k : string) : result pyval :=
  match v with
  | PDict d => Ok (get d k)
  | _ => Raise AttributeError
  end.

(** [v == "literal"] *)
Definition eq_str (v : pyval) (s : string) : bool :=
  match v with
  | PStr t => (t =? s)%string
  | _ => false
  end.

(** [float(v)] *)
Definition to_float (v : pyval) : result float :=
  match v with
  | PNone => Raise TypeError
  | PBool b => Ok (if b then one else zero)
  | PInt z => match PyFloat.of_Z z with Some f => Ok f | None => Raise OverflowError end
  | PFloat f => Ok f
  | PStr s => match PyFloat.of_string s with Some f => Ok f | None => Raise ValueError end
  | PList _ => Raise TypeError
  | PDict _ => Raise TypeError
  end.

(** [int(x)] for a float. *)
Definition int_of_float (x : float) : result Z :=
  match Prim2SF x with
  | S754_nan => Raise ValueError
  | S754_infinity _ => Raise OverflowError
  | _ => match PyFloat.to_Z x with Some z => Ok z | None => Raise ValueError end
  end.

(** ** [repr] and [str] *)

Definition hex_digit (n : N) : ascii :=
  if (n <? 10)%N then ascii_of_N (48 + n) else ascii_of_N (87 + n).

Definition escape_char (quote : ascii) (a : ascii) : string :=
  let n := N_of_ascii a in
  if Ascii.eqb a quote || Ascii.eqb a "\" then String "\" (String a "")
  else if N.eqb n 9 then "\t"
  else if N.eqb n 10 then "\n"
  else if N.eqb n 13 then "\r"
  else if (n <? 32)%N || N.eqb n 127
  then String "\" (String "x" (String (hex_digit (n / 16)) (String (hex_digit (n mod 16)) "")))
  else String a "".

Fixpoint escape (quote : ascii) (s : string) : string :=
  match s with
  | EmptyString => ""
  | String a rest => escape_char quote a ++ escape quote rest
  end.

Definition dquote : ascii := ascii_of_N 34.

(** [repr(s)] of a string: single quotes unless the text holds a single
    quote and no double quote. *)
Definition repr_str (s : string) : string :=
  let quote := if PyStr.contains "'" s && negb (PyStr.contains dquote s)
               then dquote else "'"%char in
  String quote (escape quote s) ++ String quote "".

Fixpoint repr (v : pyval) : string :=
  match v with
  | PNone => "None"
  | PBool b => if b then "True" else "False"
  | PInt z => PyStr.of_Z z
  | PFloat f => PyFloat.repr f
  | PStr s => repr_str s
  | PList items => "[" ++ PyStr.join ", " (map repr items) ++ "]"
  | PDict entries =>
      "{" ++ PyStr.join ", "
               (map (fun kv => let '(k, x) := kv in repr_str k ++ ": " ++ repr x) entries)
          ++ "}"
  end.

(** [str(v)], which is what an f-string field [{v}] inserts. *)
Definition str (v : pyval) : string :=
  match v with
  | PStr s => s
  | _ => repr v
  end.

End Py.

(* ===================================================================== *)
(** * Battery bars *)
(* ===================================================================== *)

Definition solid : string := "▮".
Definition light : string := "▯".

(** What the interpreter can hold: [index_max] is [sys.maxsize], the
    largest value of the index type, and [room] is the length of the
    longest string that can be allocated. *)
Record interpreter : Type := {
  index_max : Z;
  room : Z
}.

(** [room] is enough for a bar of ten glyphs and is no more than the
    index type can express. *)
Definition sane (i : interpreter) : Prop := 10 <= room i <= index_max i.

(** [s * n] for a string [s] of one character: a count outside the index
    type raises [OverflowError], a count of 0 or less gives the empty
    string, and a result too long to allocate raises [MemoryError]. *)
Definition repeat_in (i : interpreter) (s : string) (n : Z) : result string :=
  if (n <? - index_max i - 1) || (index_max i <? n) then Raise OverflowError
  else if n <=? 0 then Ok ""
  else if room i <? n then Raise MemoryError
  else Ok (PyStr.repeat s n).

(** [a + b]: an empty operand hands on the other one, otherwise the
    result is allocated. *)
Definition concat_in (i : interpreter) (a b : string) : result string :=
  if (a =? "")%string then Ok b
  else if (b =? "")%string then Ok a
  else if room i <? Z.of_nat (PyStr.len a + PyStr.len b) then Raise MemoryError
  else Ok (a ++ b).

(** The body of the [try] of [battery_bars]. *)
Definition battery_bars_try (i : interpreter) (percentage : pyval) : result string :=
  p <- Py.to_float percentage ;;
  bars <- Py.int_of_float ((p / 100) * 10)%float ;;
  solids <- repeat_in i solid bars ;;
  lights <- repeat_in i light (10 - bars) ;;
  concat_in i solids lights.

(** [battery_bars(percentage)]: the bare [except] turns every exception
    into ["N/A"]. *)
Definition battery_bars (i : interpreter) (percentage : pyval) : string :=
  match battery_bars_try i percentage with
  | Ok s => s
  | Raise _ => "N/A"
  end.

(** The [# battery bars] lines of [collect_full_snapshot]: the value stored
    under ["battery_bars"] for the record returned by [get_battery_info]. *)
Definition collect_perc (battery : pyval) : pyval :=
  match battery with
  | PDict d => Py.or (Py.get d "percentage") (Py.get d "level")
  | _ => PNone
  end.

Definition collect_battery_bars (i : interpreter) (battery : pyval) : string :=
  let perc := collect_perc battery in
  if Py.truthy perc then battery_bars i perc else "N/A".

(** The count of solid glyphs that [battery_bars] computes. *)
Definition scaled (percentage : pyval) : result Z :=
  p <- Py.to_float percentage ;;
  Py.int_of_float ((p / 100) * 10)%float.


(** A 64-bit interpreter with room for a million characters. *)
Definition fixture_interpreter : interpreter :=
  {| index_max := 9223372036854775807; room := 1000000 |}.

(** The bar as the specification words it, for a rational percentage:
    [floor(p/100 * 10)] solid glyphs, then [10 - floor(p/100 * 10)] light
    ones. *)
Definition spec_battery_bars (p : Q) : string :=
  let filled := Qfloor (p / 100 * 10)%Q in
  PyStr.repeat solid filled ++ PyStr.repeat light (10 - filled).

(** One charge field of the record is the number 0 and the other one is
    missing or false. *)
Definition reports_zero (d : dict) (k1 k2 : string) : Prop :=
  (Py.is_zero (Py.get d k1) = true /\ Py.truthy (Py.get d k2) = false)
  \/ (Py.truthy (Py.get d k1) = false /\ Py.is_zero (Py.get d k2) = true).

(* ===================================================================== *)
(** * Combined identifier *)
(* ===================================================================== *)

(** The first statements of [build_message_from_snapshot], up to the value
    of its local [combined_id]. *)
Definition build_message_combined_id (snap : dict) : result pyval :=
  let ip4 := Py.get snap "public_ipv4" in
  let geo := Py.get_default snap "geo" (PDict []) in
  lat <- (a <- Py.attr_get geo "latitude" ;;
          if Py.truthy a then Ok a else Py.attr_get geo "lat") ;;
  lon <- (a <- Py.attr_get geo "longitude" ;;
          if Py.truthy a then Ok a else Py.attr_get geo "lon") ;;
  if Py.truthy ip4 && Py.truthy lat && Py.truthy lon
  then Ok (PStr (Py.str ip4 ++ "|" ++ Py.str lat ++ "," ++ Py.str lon))
  else if Py.truthy ip4
  then Ok (PStr (Py.str ip4 ++ "|N/A"))
  else Ok PNone.

(** Step 2 of [run]: the value stored under [snapshot["combined_id"]]. *)
Definition run_combined_id (snapshot : dict) : result pyval :=
  let ip4 := Py.get snapshot "public_ipv4" in
  let geo := Py.or (Py.get snapshot "geo") (PDict []) in
  lat <- (a <- Py.attr_get geo "latitude" ;;
          if Py.truthy a then Ok a else Py.attr_get geo "lat") ;;
  lon <- (a <- Py.attr_get geo "longitude" ;;
          if Py.truthy a then Ok a else Py.attr_get geo "lon") ;;
  if Py.truthy ip4 && Py.truthy lat && Py.truthy lon
  then Ok (PStr (Py.str ip4 ++ "|" ++ Py.str lat ++ "," ++ Py.str lon))
  else if Py.truthy ip4
  then Ok (PStr (Py.str ip4 ++ "|N/A"))
  else Ok PNone.

(** The snapshot's geolocation sub-record is [g]: stored as a mapping, or
    not stored at all (and [g] is empty). *)
Definition geo_is (snap : dict) (g : dict) : Prop :=
  Py.lookup snap "geo" = Some (PDict g)
  \/ (Py.lookup snap "geo" = None /\ g = []).

(** The coordinates the two derivations read from the sub-record [g]. *)
Definition latitude_of (g : dict) : pyval := Py.or (Py.get g "latitude") (Py.get g "lat").
Definition longitude_of (g : dict) : pyval := Py.or (Py.get g "longitude") (Py.get g "lon").

(** The identifier as a function of the IPv4 value and the two coordinates
    read from the geolocation sub-record. *)
Definition identifier_of (ip4 lat lon : pyval) : pyval :=
  if Py.truthy ip4 && Py.truthy lat && Py.truthy lon
  then PStr (Py.str ip4 ++ "|" ++ Py.str lat ++ "," ++ Py.str lon)
  else if Py.truthy ip4 then PStr (Py.str ip4 ++ "|N/A")
  else PNone.

(* ===================================================================== *)
(** * Geolocation with fallback *)
(* ===================================================================== *)

(** What [requests.get] hands back: the status code and the value of
    [r.json()], [None] when the body does not parse. *)
Record response : Type := {
  status_code : Z;
  json : option pyval
}.

(** The network: [None] when [requests.get] itself raises. *)
Record net : Type := {
  http_get : string -> option response
}.

(** [r.raise_for_status()] raises on the 4xx and 5xx codes. *)
Definition raises_for_status (r : response) : bool :=
  (400 <=? status_code r) && (status_code r <? 600).

Definition primary_url (ip : pyval) : string :=
  "https://ipapi.co/" ++ Py.str ip ++ "/json/".

Definition secondary_url (ip : pyval) : string :=
  "http://ip-api.com/json/" ++ Py.str ip
    ++ "?fields=query,lat,lon,city,country,org,region,postal,timezone,status".

(** The dict literal built from the secondary provider's answer [j]. *)
Definition remap (j : dict) : pyval :=
  PDict [ ("ip", Py.get j "query");
          ("latitude", Py.get j "lat");
          ("longitude", Py.get j "lon");
          ("city", Py.get j "city");
          ("region", Py.get j "region");
          ("country_name", Py.get j "country");
          ("org", Py.get j "org");
          ("postal", Py.get j "postal");
          ("timezone", Py.get j "timezone") ].

(** [get], [raise_for_status] and [json] in a row: [None] when one raises. *)
Definition fetch_json (n : net) (url : string) : option pyval :=
  match http_get n url with
  | None => None
  | Some r => if raises_for_status r then None else json r
  end.

(** [geolocate_ip(ip)]: the returned value and the URLs requested, in
    order. *)
Definition geolocate_ip (n : net) (ip : pyval) : pyval * list string :=
  if negb (Py.truthy ip) then (PDict [], [])
  else
    match fetch_json n (primary_url ip) with
    | Some v => (v, [primary_url ip])
    | None =>
        let urls := [primary_url ip; secondary_url ip] in
        match fetch_json n (secondary_url ip) with
        | None => (PDict [], urls)
        | Some j =>
            match Py.attr_get j "status" with
            | Raise _ => (PDict [], urls)
            | Ok st =>
                if Py.eq_str st "success"
                then match j with
                     | PDict d => (remap d, urls)
                     | _ => (PDict [], urls)
                     end
                else (PDict [], urls)
            end
        end
    end.

(** The value [collect_full_snapshot] stores under ["geo"]. *)
Definition collect_geo (n : net) (public_v4 : pyval) : pyval :=
  if Py.truthy public_v4 then fst (geolocate_ip n public_v4) else PDict [].

(* ===================================================================== *)
(** * Configuration and shared counters *)
(* ===================================================================== *)

Definition FOLDERS_TO_SCAN : list string :=
  [ "/sdcard/DCIM"; "/sdcard/Pictures"; "/sdcard/Movies"; "/sdcard/Download" ].

Definition ALLOWED_EXTS : list string :=
  [ ".jpg"; ".jpeg"; ".png"; ".webp"; ".gif";
    ".mp4"; ".mkv"; ".mov"; ".avi"; ".3gp"; ".heic" ].

Definition MAX_FILE_SIZE : N := 2 * 1024 * 1024 * 1024.
Definition WORKERS : nat := 12.
Definition QUEUE_MAX : nat := 2000.

(** The module-level dict [counters]. *)
Record counters : Type := {
  found : nat;
  queued : nat;
  sent : nat;
  skipped : nat;
  errors : nat
}.

Definition counters0 : counters :=
  {| found := 0; queued := 0; sent := 0; skipped := 0; errors := 0 |}.

Definition incr_found (c : counters) : counters :=
  {| found := S (found c); queued := queued c; sent := sent c;
     skipped := skipped c; errors := errors c |}.
Definition incr_queued (c : counters) : counters :=
  {| found := found c; queued := S (queued c); sent := sent c;
     skipped := skipped c; errors := errors c |}.
Definition incr_sent (c : counters) : counters :=
  {| found := found c; queued := queued c; sent := S (sent c);
     skipped := skipped c; errors := errors c |}.
Definition incr_skipped (c : counters) : counters :=
  {| found := found c; queued := queued c; sent := sent c;
     skipped := S (skipped c); errors := errors c |}.
Definition incr_errors (c : counters) : counters :=
  {| found := found c; queued := queued c; sent := sent c;
     skipped := skipped c; errors := S (errors c) |}.

(* ===================================================================== *)
(** * [os.path] and the file system *)
(* ===================================================================== *)

Module OsPath.

(** The loop of [genericpath._splitext] that skips leading dots: [true]
    when a character other than the dot stands before [dotIndex]. *)
Fixpoint name_before_dot (fuel : nat) (p : string) (filenameIndex dotIndex : Z) : bool :=
  match fuel with
  | O => false
  | S f =>
      if filenameIndex <? dotIndex then
        if negb (PyStr.slice filenameIndex (filenameIndex + 1) p =? ".")%string
        then true
        else name_before_dot f p (filenameIndex + 1) dotIndex
      else false
  end.

(** [os.path.splitext(p)] of [posixpath]. *)
Definition splitext (p : string) : string * string :=
  let sepIndex := PyStr.rfind "/" p in
  let dotIndex := PyStr.rfind "." p in
  if (sepIndex <? dotIndex)
     && name_before_dot (String.length p) p (sepIndex + 1) dotIndex
  then (PyStr.take dotIndex p, PyStr.drop dotIndex p)
  else (p, "").

(** [os.path.join(a, b)] of [posixpath]. *)
Definition join (a b : string) : string :=
  if PyStr.startswith "/" b then b
  else if (a =? "")%string || PyStr.endswith "/" a then a ++ b
  else a ++ "/" ++ b.

End OsPath.

(** The file system as the script observes it: [os.path.exists], the
    triples [(root, dirs, files)] that [os.walk] yields, and
    [os.path.getsize], which is [None] when it raises. *)
Record os : Type := {
  path_exists : string -> bool;
  walk : string -> list (string * list string * list string);
  getsize : string -> option N
}.

(** The text is made of dots only. *)
Fixpoint only_dots (s : string) : bool :=
  match s with
  | EmptyString => true
  | String a rest => Ascii.eqb a "." && only_dots rest
  end.

(* ===================================================================== *)
(** * The allow-list filter *)
(* ===================================================================== *)

Definition lowered_ext (path : string) : string :=
  PyStr.lower (snd (OsPath.splitext path)).

Definition ext_allowed (path : string) : bool :=
  existsb (String.eqb (lowered_ext path)) ALLOWED_EXTS.

(** [is_allowed_file(path)]: the returned flag and the counters after the
    call. *)
Definition is_allowed_file (o : os) (path : string) (c : counters) : bool * counters :=
  let ext := PyStr.lower (snd (OsPath.splitext path)) in
  if negb (existsb (String.eqb ext) ALLOWED_EXTS) then (false, c)
  else
    match getsize o path with
    | None => (false, incr_errors c)
    | Some size =>
        if (size =? 0)%N then (false, c)
        else if (MAX_FILE_SIZE <? size)%N then (false, incr_skipped c)
        else (true, c)
    end.

(* ===================================================================== *)
(** * The producer *)
(* ===================================================================== *)

(** The producer's view of a run: the counters, the items it has put on
    [file_queue] so far ([None] is the sentinel), and the outcomes of the
    [put] attempts still to come ([false]: the queue stayed full for the
    whole timeout). *)
Record scan_state : Type := {
  cnt : counters;
  pushed : list (option string);
  outcomes : list bool
}.

(** The retry loop around [file_queue.put(full, timeout=1)].  [None]: the
    loop is still retrying when the schedule of outcomes ends. *)
Fixpoint put_retry (full : string) (c : counters) (q : list (option string))
    (outs : list bool) : option scan_state :=
  match outs with
  | [] => None
  | true :: rest =>
      Some {| cnt := incr_queued c; pushed := q ++ [Some full]; outcomes := rest |}
  | false :: rest => put_retry full c q rest
  end.

(** The body of [for fn in files]. *)
Definition scan_file (o : os) (stop : bool) (root fn : string) (st : scan_state)
  : option scan_state :=
  let full := OsPath.join root fn in
  let c1 := incr_found (cnt st) in
  let '(allowed, c2) := is_allowed_file o full c1 in
  if allowed then
    if stop then Some {| cnt := c2; pushed := pushed st; outcomes := outcomes st |}
    else put_retry full c2 (pushed st) (outcomes st)
  else Some {| cnt := c2; pushed := pushed st; outcomes := outcomes st |}.

Fixpoint scan_files (o : os) (stop : bool) (root : string) (files : list string)
    (st : scan_state) : option scan_state :=
  match files with
  | [] => Some st
  | fn :: rest =>
      match scan_file o stop root fn st with
      | None => None
      | Some st1 => scan_files o stop root rest st1
      end
  end.

(** [for root, dirs, files in os.walk(base)], left at once when the stop
    flag is set. *)
Fixpoint scan_walk (o : os) (stop : bool)
    (triples : list (string * list string * list string)) (st : scan_state)
  : option scan_state :=
  match triples with
  | [] => Some st
  | (root, _, files) :: rest =>
      if stop then Some st
      else match scan_files o stop root files st with
           | None => None
           | Some st1 => scan_walk o stop rest st1
           end
  end.

(** [for base in FOLDERS_TO_SCAN] *)
Fixpoint scan_bases (o : os) (stop : bool) (bases : list string) (st : scan_state)
  : option scan_state :=
  match bases with
  | [] => Some st
  | base :: rest =>
      if stop then Some st
      else if negb (path_exists o base) then scan_bases o stop rest st
      else match scan_walk o stop (walk o base) st with
           | None => None
           | Some st1 => scan_bases o stop rest st1
           end
  end.

(** The [finally] block: one [put(None, timeout=1)] per worker, a timeout
    being ignored. *)
Fixpoint put_sentinels (n : nat) (st : scan_state) : option scan_state :=
  match n with
  | O => Some st
  | S k =>
      match outcomes st with
      | [] => None
      | true :: rest =>
          put_sentinels k {| cnt := cnt st; pushed := pushed st ++ [None]; outcomes := rest |}
      | false :: rest =>
          put_sentinels k {| cnt := cnt st; pushed := pushed st; outcomes := rest |}
      end
  end.

(** [producer_scan()].  The stop flag is set by [run] alone, after the scan,
    so it is constant while the scan runs.  The worker threads run at the
    same time, but they only change [sent] and [errors], and every update
    of a counter is made under [counters_lock]. *)
Definition producer_scan (o : os) (stop : bool) (outs : list bool) (c : counters)
  : option scan_state :=
  match scan_bases o stop FOLDERS_TO_SCAN {| cnt := c; pushed := []; outcomes := outs |} with
  | None => None
  | Some st => put_sentinels WORKERS st
  end.

(** Every path the scan looks at, in order. *)
Definition scanned_files (o : os) : list string :=
  flat_map (fun base =>
              if path_exists o base
              then flat_map (fun t => let '(root, _, files) := t in
                                      map (OsPath.join root) files)
                            (walk o base)
              else [])
           FOLDERS_TO_SCAN.

(* ===================================================================== *)
(** * The upload workers *)
(* ===================================================================== *)

(** What one upload meets: [mimetypes.guess_type], [open(path, "rb")]
    ([Some msg] when it raises) and [requests.post] with the file and its
    MIME type ([inl code] for a response, [inr msg] when it raises). *)
Record uploads : Type := {
  guess_type : string -> option string;
  open_file : string -> option string;
  post_document : string -> string -> Z + string
}.

(** [send_document_once(file_path)] *)
Definition send_document_once (u : uploads) (file_path : string) : bool * option string :=
  let mime := match guess_type u file_path with
              | Some m => m
              | None => "application/octet-stream"
              end in
  match open_file u file_path with
  | Some msg => (false, Some msg)
  | None =>
      match post_document u file_path mime with
      | inr msg => (false, Some msg)
      | inl code =>
          if code =? 200 then (true, None)
          else (false, Some ("HTTP " ++ PyStr.of_Z code))
      end
  end.

(** Where a worker thread stands in [consumer_worker]. *)
Inductive worker : Type :=
| AtLoopHead
| InGet
| Sending (file_path : string)
| Exited.

(** The state shared by the producer, the workers and [run]: the items the
    producer will still put, [file_queue] with its count of unfinished
    tasks, the stop flag, the worker threads and the counters. *)
Record pool : Type := {
  incoming : list (option string);
  queue : list (option string);
  unfinished : nat;
  stop_flag : bool;
  workers : list worker;
  shared : counters
}.

(** The atomic actions of the threads: the producer puts the next item or
    gives up on a sentinel when the queue stayed full, [run] sets the stop
    flag, a worker tests the flag, leaves [get] (with an item, a sentinel or
    [Empty]) or finishes an upload.  A counter update is atomic because it
    happens under [counters_lock]. *)
Inductive action : Type :=
| Put
| DropSentinel
| SetStop
| CheckStop (i : nat)
| Get (i : nat)
| Finish (i : nat).

Fixpoint set_nth {A : Type} (i : nat) (x : A) (l : list A) : list A :=
  match l, i with
  | [], _ => []
  | _ :: rest, O => x :: rest
  | y :: rest, S j => y :: set_nth j x rest
  end.

Definition with_worker (s : pool) (i : nat) (w : worker) : pool :=
  {| incoming := incoming s; queue := queue s; unfinished := unfinished s;
     stop_flag := stop_flag s; workers := set_nth i w (workers s);
     shared := shared s |}.

(** One action; [None] when the action is not enabled in the state. *)
Definition exec (u : uploads) (a : action) (s : pool) : option pool :=
  match a with
  | Put =>
      match incoming s with
      | x :: rest =>
          if (List.length (queue s) <? QUEUE_MAX)%nat
          then Some {| incoming := rest; queue := queue s ++ [x];
                       unfinished := S (unfinished s); stop_flag := stop_flag s;
                       workers := workers s; shared := shared s |}
          else None
      | [] => None
      end
  | DropSentinel =>
      match incoming s with
      | None :: rest =>
          if (List.length (queue s) <? QUEUE_MAX)%nat then None
          else Some {| incoming := rest; queue := queue s;
                       unfinished := unfinished s; stop_flag := stop_flag s;
                       workers := workers s; shared := shared s |}
      | _ => None
      end
  | SetStop =>
      Some {| incoming := incoming s; queue := queue s;
              unfinished := unfinished s; stop_flag := true;
              workers := workers s; shared := shared s |}
  | CheckStop i =>
      match nth_error (workers s) i with
      | Some AtLoopHead =>
          Some (with_worker s i (if stop_flag s then Exited else InGet))
      | _ => None
      end
  | Get i =>
      match nth_error (workers s) i with
      | Some InGet =>
          match queue s with
          | [] => Some (with_worker s i AtLoopHead)
          | None :: rest =>
              Some {| incoming := incoming s; queue := rest;
                      unfinished := pred (unfinished s); stop_flag := stop_flag s;
                      workers := set_nth i Exited (workers s); shared := shared s |}
          | Some file_path :: rest =>
              Some {| incoming := incoming s; queue := rest;
                      unfinished := unfinished s; stop_flag := stop_flag s;
                      workers := set_nth i (Sending file_path) (workers s);
                      shared := shared s |}
          end
      | _ => None
      end
  | Finish i =>
      match nth_error (workers s) i with
      | Some (Sending file_path) =>
          let '(success, _) := send_document_once u file_path in
          Some {| incoming := incoming s; queue := queue s;
                  unfinished := pred (unfinished s); stop_flag := stop_flag s;
                  workers := set_nth i AtLoopHead (workers s);
                  shared := if success then incr_sent (shared s)
                            else incr_errors (shared s) |}
      | _ => None
      end
  end.

(** A schedule of actions, run from left to right. *)
Fixpoint run_schedule (u : uploads) (acts : list action) (s : pool) : option pool :=
  match acts with
  | [] => Some s
  | a :: rest =>
      match exec u a s with
      | None => None
      | Some s1 => run_schedule u rest s1
      end
  end.

(** The pool when [run] has started [n] workers and the producer is about
    to put [items]. *)
Definition start (items : list (option string)) (n : nat) (c : counters) : pool :=
  {| incoming := items; queue := []; unfinished := 0; stop_flag := false;
     workers := repeat AtLoopHead n; shared := c |}.

Definition paths_of (items : list (option string)) : list string :=
  flat_map (fun x => match x with Some p => [p] | None => [] end) items.

Definition sending_of (ws : list worker) : list string :=
  flat_map (fun w => match w with Sending p => [p] | _ => [] end) ws.

(** Every queued file has been taken and counted. *)
Definition drained (s : pool) : Prop :=
  paths_of (incoming s) = [] /\ paths_of (queue s) = [] /\ sending_of (workers s) = [].

(** The upload of [file_path] is answered with status 200. *)
Definition answered_200 (u : uploads) (file_path : string) : bool :=
  match open_file u file_path with
  | Some _ => false
  | None =>
      match post_document u file_path
              (match guess_type u file_path with
               | Some m => m
               | None => "application/octet-stream"
               end) with
      | inl code => code =? 200
      | inr _ => false
      end
  end.

Definition count_if {A : Type} (f : A -> bool) (l : list A) : nat :=
  List.length (filter f l).

(* ===================================================================== *)
(** * Classes of files and what a scan accounts for *)
(* ===================================================================== *)

(** The classes of files the counter statement speaks of. *)
Definition passes_filter (o : os) (f : string) : bool :=
  ext_allowed f
  && match getsize o f with
     | Some size => (0 <? size)%N && (size <=? MAX_FILE_SIZE)%N
     | None => false
     end.

Definition disallowed_or_empty (o : os) (f : string) : bool :=
  negb (ext_allowed f)
  || match getsize o f with
     | Some size => (size =? 0)%N
     | None => false
     end.

Definition oversized (o : os) (f : string) : bool :=
  ext_allowed f
  && match getsize o f with
     | Some size => (MAX_FILE_SIZE <? size)%N
     | None => false
     end.

(** An allowed extension, but [os.path.getsize] raises. *)
Definition unreadable (o : os) (f : string) : bool :=
  ext_allowed f
  && match getsize o f with
     | Some _ => false
     | None => true
     end.

Definition files_of_walk (triples : list (string * list string * list string)) : list string :=
  flat_map (fun t => let '(root, _, files) := t in map (OsPath.join root) files) triples.


Definition files_under (o : os) (bases : list string) : list string :=
  flat_map (fun base => if path_exists o base then files_of_walk (walk o base) else [])
           bases.


(** [scanned o fs st st']: going from [st] to [st'] accounts for the files
    [fs], each once, and enqueues those that pass the filter, in order. *)
Definition scanned (o : os) (fs : list string) (st st' : scan_state) : Prop :=
  found (cnt st') = (found (cnt st) + List.length fs)%nat
  /\ queued (cnt st') = (queued (cnt st) + count_if (passes_filter o) fs)%nat
  /\ skipped (cnt st') = (skipped (cnt st) + count_if (oversized o) fs)%nat
  /\ errors (cnt st') = (errors (cnt st) + count_if (unreadable o) fs)%nat
  /\ sent (cnt st') = sent (cnt st)
  /\ pushed st' = (pushed st ++ map Some (filter (passes_filter o) fs))%list.

(* ===================================================================== *)
(** * What the workers still owe *)
(* ===================================================================== *)

(** The upload of [file_path] gets another status, or raises. *)
Definition failed (u : uploads) (file_path : string) : bool :=
  negb (answered_200 u file_path).

(** The files of class [f] that are in a worker's hands, in the queue, or
    still to be put. *)
Definition tally (f : string -> bool) (s : pool) : nat :=
  (count_if f (sending_of (workers s))
   + count_if f (paths_of (queue s))
   + count_if f (paths_of (incoming s)))%nat.

(** One worker handling the files one after the other. *)
Definition one_by_one (files : list string) : list action :=
  flat_map (fun _ : string => [Put; CheckStop 0; Get 0; Finish 0]) files.

(* ===================================================================== *)
(** * Fixtures *)
(* ===================================================================== *)

(** A small media tree: two folders exist, one of them has a subfolder. *)
Definition fixture_size (path : string) : option N :=
  if (path =? "/sdcard/DCIM/Camera/a.JPG")%string then Some 10%N
  else if (path =? "/sdcard/DCIM/Camera/empty.jpg")%string then Some 0%N
  else if (path =? "/sdcard/DCIM/notes.txt")%string then Some 10%N
  else if (path =? "/sdcard/Movies/big.mp4")%string then Some (MAX_FILE_SIZE + 1)%N
  else if (path =? "/sdcard/Movies/limit.mkv")%string then Some MAX_FILE_SIZE
  else if (path =? "/sdcard/Movies/clip.Mp4")%string then Some 4096%N
  else None.

Definition fixture_os : os :=
  {| path_exists := fun base =>
       (base =? "/sdcard/DCIM")%string || (base =? "/sdcard/Movies")%string;
     walk := fun base =>
       if (base =? "/sdcard/DCIM")%string then
         [ ("/sdcard/DCIM", ["Camera"], ["notes.txt"]);
           ("/sdcard/DCIM/Camera", [], ["a.JPG"; "empty.jpg"]) ]
       else if (base =? "/sdcard/Movies")%string then
         [ ("/sdcard/Movies", [], ["big.mp4"; "limit.mkv"; "clip.Mp4"]) ]
       else [];
     getsize := fixture_size |}.

(** Five queued files: three uploads answered with 200, one with 500 and
    one with 403. *)
Definition fixture_uploads : uploads :=
  {| guess_type := fun p => if (p =? "/sdcard/DCIM/e.heic")%string then None
                            else Some "image/jpeg";
     open_file := fun _ => None;
     post_document := fun p _ =>
       if (p =? "/sdcard/DCIM/c.jpg")%string then inl 500
       else if (p =? "/sdcard/DCIM/e.heic")%string then inl 403
       else inl 200 |}.

Definition fixture_items : list (option string) :=
  [ Some "/sdcard/DCIM/a.jpg"; Some "/sdcard/DCIM/b.jpg"; Some "/sdcard/DCIM/c.jpg";
    Some "/sdcard/DCIM/d.jpg"; Some "/sdcard/DCIM/e.heic"; None; None ].

(** Two workers taking turns while the producer is still putting. *)
Definition fixture_schedule : list action :=
  [ CheckStop 0; CheckStop 1; Get 0; Put; Put; Get 1; CheckStop 0; Get 0; Put;
    Finish 0; Finish 1; CheckStop 1; Get 1; CheckStop 0; Put; Put; Get 0;
    Finish 0; Finish 1; CheckStop 0; Get 0; Put; Put; CheckStop 1; Get 1;
    Finish 0; CheckStop 0; Get 0; SetStop ].

(** Snapshots as [collect_full_snapshot] stores the fields read here. *)
Definition snapshot_with_coordinates : dict :=
  [ ("public_ipv4", PStr "1.2.3.4");
    ("geo", PDict [ ("ip", PStr "1.2.3.4"); ("latitude", PFloat 10.5);
                    ("longitude", PFloat 20.5) ]) ].

Definition snapshot_without_coordinates : dict :=
  [ ("public_ipv4", PStr "1.2.3.4"); ("geo", PDict []) ].

Definition snapshot_without_ip : dict :=
  [ ("public_ipv4", PNone); ("geo", PDict []) ].

Definition snapshot_on_equator : dict :=
  [ ("public_ipv4", PStr "1.2.3.4");
    ("geo", PDict [ ("latitude", PInt 0); ("longitude", PFloat 20.5) ]) ].

(** The primary provider answered with the JSON value [null]. *)
Definition snapshot_geo_null : dict :=
  [ ("public_ipv4", PStr "1.2.3.4"); ("geo", PNone) ].

(** A network where the primary provider times out and the secondary one
    answers; the answer is chosen by [body]. *)
Definition fallback_net (body : pyval) : net :=
  {| http_get := fun url =>
       if (url =? secondary_url (PStr "1.2.3.4"))%string
       then Some {| status_code := 200; json := Some body |}
       else None |}.

(** A network whose primary provider answers 200 with the body [null]. *)
Definition null_net : net :=
  {| http_get := fun url =>
       if (url =? primary_url (PStr "1.2.3.4"))%string
       then Some {| status_code := 200; json := Some PNone |}
       else None |}.

Definition secondary_success : pyval :=
  PDict [ ("status", PStr "success"); ("query", PStr "1.2.3.4");
          ("lat", PFloat 10.5); ("lon", PFloat 20.5); ("city", PStr "Oslo") ].

Definition secondary_failure : pyval :=
  PDict [ ("status", PStr "fail"); ("query", PStr "1.2.3.4");
          ("lat", PFloat 10.5); ("lon", PFloat 20.5) ].

(* ===================================================================== *)
(** * More of [str] *)
(* ===================================================================== *)

Module PyText.

Definition is_lower (a : ascii) : bool :=
  let n := N_of_ascii a in (97 <=? n)%N && (n <=? 122)%N.

Definition is_upper (a : ascii) : bool :=
  let n := N_of_ascii a in (65 <=? n)%N && (n <=? 90)%N.

Definition upper_ascii (a : ascii) : ascii :=
  if is_lower a then ascii_of_N (N_of_ascii a - 32) else a.

(** [s.title()] on ASCII text: a letter that follows a letter is lowered,
    any other letter is raised. *)
Fixpoint title_aux (previous_is_cased : bool) (s : string) : string :=
  match s with
  | EmptyString => EmptyString
  | String a rest =>
      if is_lower a || is_upper a then
        String (if previous_is_cased then PyStr.lower_ascii a else upper_ascii a)
               (title_aux true rest)
      else String a (title_aux false rest)
  end.

Definition title (s : string) : string := title_aux false s.

(** [s.replace(a, b)] for one-character [a] and [b]. *)
Fixpoint replace_char (a b : ascii) (s : string) : string :=
  match s with
  | EmptyString => EmptyString
  | String x rest => String (if Ascii.eqb x a then b else x) (replace_char a b rest)
  end.

(** The newline character. *)
Definition nl : string := String (ascii_of_N 10) "".

(** The text holds ASCII characters only. *)
Definition is_ascii (s : string) : bool :=
  forallb (fun a => (N_of_ascii a <? 128)%N) (list_ascii_of_string s).

End PyText.

(* ===================================================================== *)
(** * The report *)
(* ===================================================================== *)

Definition na : pyval := PStr "N/A".

(** [v.get(k, default)] and [v.items()] on any value. *)
Definition attr_get_default (v : pyval) (k : string) (default : pyval) : result pyval :=
  match v with
  | PDict d => Ok (Py.get_default d k default)
  | _ => Raise AttributeError
  end.

Definition attr_items (v : pyval) : result (list (string * pyval)) :=
  match v with
  | PDict d => Ok d
  | _ => Raise AttributeError
  end.

(** [v is not None and v != ""] *)
Definition shown (v : pyval) : bool :=
  match v with
  | PNone => false
  | PStr s => negb (s =? "")%string
  | _ => true
  end.

Definition device_line (kv : string * pyval) : string :=
  "➣" ++ PyText.title (PyText.replace_char "_" " " (fst kv)) ++ ": " ++ Py.str (snd kv).

(** The lines of the report from the values its expressions read, in the
    order in which [build_message_from_snapshot] appends them. *)
Definition report_lines (snap : dict)
    (lat lon city region country display_name org hostname : pyval)
    (device : list (string * pyval))
    (percentage storage_free model cores : pyval) : list string :=
  let ip4 := Py.get snap "public_ipv4" in
  let combined_id :=
    if Py.truthy ip4 && Py.truthy lat && Py.truthy lon
    then PStr (Py.str ip4 ++ "|" ++ Py.str lat ++ "," ++ Py.str lon)
    else if Py.truthy ip4 then PStr (Py.str ip4 ++ "|N/A")
    else PNone in
  List.concat
    [ [ "<b>[== INFORMATIONS ==]</b>" ++ PyText.nl;
        "<b>➥🌍 Location & IP</b>";
        "➣IPv4 Address: " ++ Py.str (Py.or ip4 na);
        "➣IPv6 Address: " ++ Py.str (Py.or (Py.get snap "public_ipv6") na);
        "➣Combined ID: " ++ Py.str (Py.or combined_id na);
        "➣City: " ++ Py.str (Py.or city na);
        "➣Region: " ++ Py.str (Py.or region na);
        "➣Country: " ++ Py.str (Py.or country na) ];
       (if Py.truthy lat && Py.truthy lon
          then [ "➣Map Location: https://www.google.com/maps/search/?api=1&query="
                   ++ Py.str lat ++ "," ++ Py.str lon;
                 "➣Latitude: " ++ Py.str lat ++ ", Longitude: " ++ Py.str lon ]
          else [ "➣Latitude/Longitude: N/A" ]);
       (if Py.truthy display_name
          then [ "➣Reverse Geocode Addr: " ++ Py.str display_name ]
          else []);
       [ "➣IP Org/ISP: " ++ Py.str (Py.or org na);
           "➣IP Hostname: " ++ Py.str (Py.or hostname na);
           PyText.nl ++ "<b>➥📱 Device/System Info</b>" ];
       map device_line (filter (fun kv => shown (snd kv)) device);
       [ "➣Battery: " ++ Py.str (Py.or percentage na) ++ "%  "
             ++ Py.str (Py.get snap "battery_bars");
           "➣Storage Free (MB): " ++ Py.str storage_free;
           "➣CPU: " ++ Py.str (Py.or model na) ++ " | cores: " ++ Py.str cores;
           PyText.nl ++ "<b>➥📊 Additional Info</b>";
           "➣Kernel Version: " ++ Py.str (Py.get_default snap "kernel_version" na);
           "➣Architecture: " ++ Py.str (Py.get_default snap "architecture" na);
           "➣RAM Size: " ++ Py.str (Py.get_default snap "ram_size" na);
           "➣Free RAM: " ++ Py.str (Py.get_default snap "free_ram" na);
           "➣Storage Size: " ++ Py.str (Py.get_default snap "storage_size" na);
           "➣Free Storage: " ++ Py.str (Py.get_default snap "free_storage" na);
           "➣SD Card Size: " ++ Py.str (Py.get_default snap "sdcard_size" na);
           "➣SD Card Free: " ++ Py.str (Py.get_default snap "sdcard_free" na);
           "➣Screen Resolution: " ++ Py.str (Py.get_default snap "screen_resolution" na);
           "➣Installed Apps: " ++ Py.str (Py.get_default snap "installed_apps_count" na);
           PyText.nl ++ "<b>[== DEVELOPER ==]</b>";
           "➥♛Mr. Dark Hcktvst♛";
           "➥Team:☠Voidsec Hackers☠" ] ].

(** The list [lines] of [build_message_from_snapshot] at its [return]:
    the reads that can raise, in order, then the lines. *)
Definition build_message_lines (snap : dict) : result (list string) :=
  let geo := Py.get_default snap "geo" (PDict []) in
  lat <- (a <- Py.attr_get geo "latitude" ;;
          if Py.truthy a then Ok a else Py.attr_get geo "lat") ;;
  lon <- (a <- Py.attr_get geo "longitude" ;;
          if Py.truthy a then Ok a else Py.attr_get geo "lon") ;;
  city <- Py.attr_get geo "city" ;;
  region <- Py.attr_get geo "region" ;;
  country <- (a <- Py.attr_get geo "country_name" ;;
              if Py.truthy a then Ok a else Py.attr_get geo "country") ;;
  let rd := Py.or (Py.get snap "reverse_geocode") (PDict []) in
  display_name <- Py.attr_get rd "display_name" ;;
  org <- (a <- Py.attr_get (Py.get_default snap "ipinfo" (PDict [])) "org" ;;
          if Py.truthy a then Ok a else Py.attr_get geo "org") ;;
  hostname <- Py.attr_get (Py.get_default snap "ipinfo" (PDict [])) "hostname" ;;
  device <- attr_items (Py.or (Py.get snap "device_info") (PDict [])) ;;
  percentage <- Py.attr_get (Py.get_default snap "battery" (PDict [])) "percentage" ;;
  storage_free <- attr_get_default (Py.get_default snap "device_info" (PDict []))
                    "storage_free_mb" na ;;
  model <- Py.attr_get (Py.get_default snap "cpu" (PDict [])) "model" ;;
  cores <- Py.attr_get (Py.get_default snap "cpu" (PDict [])) "cores" ;;
  Ok (report_lines snap lat lon city region country display_name org hostname
        device percentage storage_free model cores).

(** [build_message_from_snapshot(snap)] *)
Definition build_message_from_snapshot (snap : dict) : result string :=
  lines <- build_message_lines snap ;;
  Ok (PyStr.join PyText.nl lines).

(** [d[k] = v]: the entry is replaced in place, or added at the end. *)
Fixpoint dict_set (d : dict) (k : string) (v : pyval) : dict :=
  match d with
  | [] => [(k, v)]
  | (k', x) :: rest =>
      if (k' =? k)%string then (k, v) :: rest else (k', x) :: dict_set rest k v
  end.

(** Steps 2 and 3 of [run], up to the message handed to
    [send_telegram_message]: the snapshot with its [combined_id] and the
    text of the report. *)
Definition run_report (snapshot : dict) : result (dict * string) :=
  combined_id <- run_combined_id snapshot ;;
  let snapshot' := dict_set snapshot "combined_id" combined_id in
  msg <- build_message_from_snapshot snapshot' ;;
  Ok (snapshot', msg).

(** The sub-record stored under [k] is the mapping [d]; nothing stored
    counts as the empty mapping. *)
Definition stored_mapping (snap : dict) (k : string) (d : dict) : Prop :=
  Py.lookup snap k = Some (PDict d)
  \/ (Py.lookup snap k = None /\ d = []).

(** The same, a stored false value also counting as the empty mapping. *)
Definition stored_mapping_or_false (snap : dict) (k : string) (d : dict) : Prop :=
  stored_mapping snap k d
  \/ (d = [] /\ exists v, Py.lookup snap k = Some v /\ Py.truthy v = false).

(** The report for a snapshot whose sub-records are the given mappings. *)
Definition report_of (snap : dict) (g rd ii di bt cp : dict) : list string :=
  report_lines snap (latitude_of g) (longitude_of g)
    (Py.get g "city") (Py.get g "region")
    (Py.or (Py.get g "country_name") (Py.get g "country"))
    (Py.get rd "display_name")
    (Py.or (Py.get ii "org") (Py.get g "org")) (Py.get ii "hostname")
    di (Py.get bt "percentage") (Py.get_default di "storage_free_mb" na)
    (Py.get cp "model") (Py.get cp "cores").

(** The scalar fields of the last block of the report, with their labels. *)
Definition additional_fields : list (string * string) :=
  [ ("kernel_version", "➣Kernel Version: ");
    ("architecture", "➣Architecture: ");
    ("ram_size", "➣RAM Size: ");
    ("free_ram", "➣Free RAM: ");
    ("storage_size", "➣Storage Size: ");
    ("free_storage", "➣Free Storage: ");
    ("sdcard_size", "➣SD Card Size: ");
    ("sdcard_free", "➣SD Card Free: ");
    ("screen_resolution", "➣Screen Resolution: ");
    ("installed_apps_count", "➣Installed Apps: ") ].

(** A snapshot as the assembler fills it. *)
Definition fixture_snapshot : dict :=
  [ ("device_info", PDict [ ("model", PStr "Pixel 7"); ("manufacturer", PStr "");
                            ("build_id", PNone); ("storage_free_mb", PFloat 1024.5) ]);
    ("battery", PDict [ ("percentage", PInt 55) ]);
    ("battery_bars", PStr "▮▮▮▮▮▯▯▯▯▯");
    ("cpu", PDict [ ("model", PNone); ("cores", PInt 8) ]);
    ("public_ipv4", PStr "1.2.3.4");
    ("public_ipv6", PNone);
    ("geo", PDict [ ("latitude", PFloat 10.5); ("longitude", PFloat 20.5);
                    ("city", PStr "Oslo") ]);
    ("reverse_geocode", PDict []);
    ("ipinfo", PDict []);
    ("kernel_version", PNone);
    ("architecture", PStr "aarch64") ].

(* ===================================================================== *)
(** * Shell commands and the probes built on them *)
(* ===================================================================== *)

Module PyLines.

(** The characters for which [str.isspace] holds, by the bytes of their
    UTF-8 encoding: the ASCII ones; U+0085 and U+00A0; U+1680, U+2000 to
    U+200A, U+2028, U+2029, U+202F, U+205F and U+3000. *)
Definition is_space1 (a : ascii) : bool :=
  let n := N_of_ascii a in
  N.eqb n 32 || ((9 <=? n)%N && (n <=? 13)%N) || ((28 <=? n)%N && (n <=? 31)%N).

Definition is_space2 (a b : ascii) : bool :=
  let n := N_of_ascii a in
  let m := N_of_ascii b in
  N.eqb n 194 && (N.eqb m 133 || N.eqb m 160).

Definition is_space3 (a b c : ascii) : bool :=
  let n := N_of_ascii a in
  let m := N_of_ascii b in
  let k := N_of_ascii c in
  (N.eqb n 225 && N.eqb m 154 && N.eqb k 128)
  || (N.eqb n 226 && N.eqb m 128
      && (((128 <=? k)%N && (k <=? 138)%N) || N.eqb k 168 || N.eqb k 169 || N.eqb k 175))
  || (N.eqb n 226 && N.eqb m 129 && N.eqb k 159)
  || (N.eqb n 227 && N.eqb m 128 && N.eqb k 128).

(** The bytes without the white space they start with.  With [back] the
    bytes are those of a text read from its end, so that a character of
    two or three bytes shows its last byte first. *)
Fixpoint lstrip (back : bool) (l : list ascii) : list ascii :=
  match l with
  | a :: r1 =>
      if is_space1 a then lstrip back r1
      else
        match r1 with
        | b :: r2 =>
            if (if back then is_space2 b a else is_space2 a b) then lstrip back r2
            else
              match r2 with
              | c :: r3 =>
                  if (if back then is_space3 c b a else is_space3 a b c)
                  then lstrip back r3 else l
              | [] => l
              end
        | [] => l
        end
  | [] => []
  end.

(** [s.strip()] *)
Definition strip (s : string) : string :=
  string_of_list_ascii
    (rev (lstrip true (rev (lstrip false (list_ascii_of_string s))))).

(** The line boundaries of [str.splitlines()] other than the pair CR LF:
    LF, VT, FF, CR, FS, GS and RS; U+0085; U+2028 and U+2029. *)
Definition is_line_end (a : ascii) : bool :=
  let n := N_of_ascii a in
  ((10 <=? n)%N && (n <=? 13)%N) || ((28 <=? n)%N && (n <=? 30)%N).

Definition is_line_end2 (a b : ascii) : bool :=
  N.eqb (N_of_ascii a) 194 && N.eqb (N_of_ascii b) 133.

Definition is_line_end3 (a b c : ascii) : bool :=
  N.eqb (N_of_ascii a) 226 && N.eqb (N_of_ascii b) 128
  && (N.eqb (N_of_ascii c) 168 || N.eqb (N_of_ascii c) 169).

(** [s.splitlines()]: [cur] holds the line being read, last byte first. *)
Fixpoint splitlines_aux (cur : list ascii) (l : list ascii) : list string :=
  match l with
  | [] => match cur with
          | [] => []
          | _ :: _ => [string_of_list_ascii (rev cur)]
          end
  | a :: r1 =>
      if is_line_end a then
        string_of_list_ascii (rev cur)
        :: match r1 with
           | b :: r2 =>
               if (N_of_ascii a =? 13)%N && (N_of_ascii b =? 10)%N
               then splitlines_aux [] r2
               else splitlines_aux [] r1
           | [] => []
           end
      else
        match r1 with
        | b :: r2 =>
            if is_line_end2 a b
            then string_of_list_ascii (rev cur) :: splitlines_aux [] r2
            else
              match r2 with
              | c :: r3 =>
                  if is_line_end3 a b c
                  then string_of_list_ascii (rev cur) :: splitlines_aux [] r3
                  else splitlines_aux (a :: cur) r1
              | [] => splitlines_aux (a :: cur) r1
              end
        | [] => splitlines_aux (a :: cur) r1
        end
  end.

Definition splitlines (s : string) : list string :=
  splitlines_aux [] (list_ascii_of_string s).

(** [s.split(c, 1)] for a text that holds [c]: the part before the first
    [c] and the part after it. *)
Fixpoint partition (c : ascii) (s : string) : option (string * string) :=
  match s with
  | EmptyString => None
  | String a rest =>
      if Ascii.eqb a c then Some (EmptyString, rest)
      else match partition c rest with
           | Some (l, r) => Some (String a l, r)
           | None => None
           end
  end.

End PyLines.

(** [v is None] *)
Definition is_none (v : pyval) : bool :=
  match v with
  | PNone => true
  | _ => false
  end.

(** The host: [subprocess.check_output(cmd, shell=True)] with its output
    decoded ([None] when it raises), and [json.loads] ([None] when it
    raises). *)
Record host : Type := {
  check_output : string -> option string;
  json_loads : string -> option pyval
}.

(** [run_cmd(cmd)]: the stripped output, or [None]. *)
Definition run_cmd (h : host) (cmd : string) : pyval :=
  match check_output h cmd with
  | Some out => PStr (PyLines.strip out)
  | None => PNone
  end.

(** The probes that hand on what [run_cmd] returns; [run_cmd] raises
    nothing, so their [except] branch is never taken. *)
Definition get_kernel_version (h : host) : pyval := run_cmd h "uname -r".
Definition get_architecture (h : host) : pyval := run_cmd h "uname -m".
Definition get_language (h : host) : pyval := run_cmd h "getprop persist.sys.language".
Definition get_region (h : host) : pyval := run_cmd h "getprop persist.sys.country".
Definition get_sim_operator (h : host) : pyval := run_cmd h "getprop gsm.sim.operator.alpha".
Definition get_sim_country (h : host) : pyval :=
  run_cmd h "getprop gsm.sim.operator.iso-country".
Definition get_apn (h : host) : pyval := run_cmd h "getprop net.apn".
Definition get_system_time (h : host) : pyval := run_cmd h "date".



(** The loop of the [dumpsys battery] fallback: every line with a colon
    sets the stripped key to the stripped value. *)
Fixpoint parse_battery_lines (lines : list string) (res : dict) : dict :=
  match lines with
  | [] => res
  | line :: rest =>
      match PyLines.partition ":" line with
      | Some (k, v) =>
          parse_battery_lines rest
            (dict_set res (PyLines.strip k) (PStr (PyLines.strip v)))
      | None => parse_battery_lines rest res
      end
  end.

(** The first [try] of [get_battery_info]: the parsed answer of
    [termux-battery-status], or [None] when the block returns nothing. *)
Definition termux_battery (h : host) : option pyval :=
  let out := run_cmd h "termux-battery-status" in
  if Py.truthy out then json_loads h (Py.str out) else None.

(** [get_battery_info()] *)
Definition get_battery_info (h : host) : pyval :=
  match termux_battery h with
  | Some record => record
  | None =>
      let out := run_cmd h "dumpsys battery" in
      if Py.truthy out
      then PDict (parse_battery_lines (PyLines.splitlines (Py.str out)) [])
      else PDict [ ("error", PStr "battery info unavailable") ]
  end.

(** [get_mem_info()]: the same loop over the lines of [/proc/meminfo]. *)
Definition get_mem_info (h : host) : pyval :=
  let out := run_cmd h "cat /proc/meminfo" in
  if Py.truthy out
  then PDict (parse_battery_lines (PyLines.splitlines (Py.str out)) [])
  else PDict [].

(** [sub in s] *)
Definition has_text (sub s : string) : bool :=
  match String.index 0 sub s with
  | Some _ => true
  | None => false
  end.

(** The loop of [get_cpu_basic] from the model and the count reached so
    far.  A line that names the model and has no colon raises
    [IndexError] at [split(":", 1)[1]]; the [except] ends the function
    with what has been gathered, so the lines after it are not read. *)
Fixpoint cpu_lines (lines : list string) (model : pyval) (cores : Z) : pyval * Z :=
  match lines with
  | [] => (model, cores)
  | line :: rest =>
      let counted := if String.prefix "processor" line then cores + 1 else cores in
      if (has_text "model name" line || has_text "Hardware" line) && is_none model
      then match PyLines.partition ":" line with
           | Some (_, v) => cpu_lines rest (PStr (PyLines.strip v)) counted
           | None => (model, cores)
           end
      else cpu_lines rest model counted
  end.

(** [get_cpu_basic()] *)
Definition get_cpu_basic (h : host) : pyval :=
  let out := run_cmd h "cat /proc/cpuinfo" in
  let '(model, cores) :=
    if Py.truthy out then cpu_lines (PyLines.splitlines (Py.str out)) PNone 0
    else (PNone, 0) in
  PDict [ ("model", model); ("cores", PInt cores) ].

(** The lines that start with [processor]. *)
Definition processor_lines (lines : list string) : Z :=
  Z.of_nat (List.length (filter (String.prefix "processor") lines)).

(** A line that names the model. *)
Definition names_model (line : string) : bool :=
  has_text "model name" line || has_text "Hardware" line.

(** Every value of the record is a text. *)
Definition all_text (d : dict) : Prop :=
  forall k v, In (k, v) d -> exists t, v = PStr t.

(* ===================================================================== *)
(** * Public address, reverse geocoding and the IP lookup *)
(* ===================================================================== *)

(** [get_public_ip_v4()] and [get_public_ip_v6()]: the value and the URL
    requested. *)
Definition public_ip_from (n : net) (url : string) : pyval * list string :=
  match fetch_json n url with
  | Some j =>
      match Py.attr_get j "ip" with
      | Ok ip => (ip, [url])
      | Raise _ => (PNone, [url])
      end
  | None => (PNone, [url])
  end.

Definition get_public_ip_v4 (n : net) : pyval * list string :=
  public_ip_from n "https://api.ipify.org?format=json".

Definition get_public_ip_v6 (n : net) : pyval * list string :=
  public_ip_from n "https://api64.ipify.org?format=json".

Definition reverse_url (lat lon : pyval) : string :=
  "https://nominatim.openstreetmap.org/reverse?format=jsonv2&lat="
    ++ Py.str lat ++ "&lon=" ++ Py.str lon.

(** [reverse_geocode(lat, lon)] *)
Definition reverse_geocode (n : net) (lat lon : pyval) : pyval * list string :=
  if is_none lat || is_none lon then (PDict [], [])
  else
    match fetch_json n (reverse_url lat lon) with
    | Some (PDict j) =>
        (PDict [ ("display_name", Py.get j "display_name");
                 ("raw", Py.get_default j "address" (PDict [])) ],
         [reverse_url lat lon])
    | _ => (PDict [], [reverse_url lat lon])
    end.

Definition ipinfo_url (ip : pyval) : string :=
  "https://ipinfo.io/" ++ Py.str ip ++ "/json".

(** [ipinfo_lookup(ip)] *)
Definition ipinfo_lookup (n : net) (ip : pyval) : pyval * list string :=
  if negb (Py.truthy ip) then (PDict [], [])
  else
    match fetch_json n (ipinfo_url ip) with
    | Some v => (v, [ipinfo_url ip])
    | None => (PDict [], [ipinfo_url ip])
    end.

(** What [collect_full_snapshot] stores about the location. *)
Record location : Type := {
  loc_public_v4 : pyval;
  loc_public_v6 : pyval;
  loc_geo : pyval;
  loc_reverse : pyval;
  loc_ipinfo : pyval;
  loc_requests : list string
}.

(** The lines of [collect_full_snapshot] from [public_v4 = ...] to
    [ipinfo = ...]; it raises when [geo] is true and has no [get]. *)
Definition collect_location (n : net) : result location :=
  let '(public_v4, u1) := get_public_ip_v4 n in
  let '(public_v6, u2) := get_public_ip_v6 n in
  let '(geo, u3) := if Py.truthy public_v4 then geolocate_ip n public_v4
                    else (PDict [], []) in
  rev <- (if Py.truthy geo then
            lat <- (a <- Py.attr_get geo "latitude" ;;
                    if Py.truthy a then Ok a else Py.attr_get geo "lat") ;;
            lon <- (a <- Py.attr_get geo "longitude" ;;
                    if Py.truthy a then Ok a else Py.attr_get geo "lon") ;;
            if Py.truthy lat && Py.truthy lon
            then Ok (reverse_geocode n lat lon)
            else Ok (PDict [], [])
          else Ok (PDict [], [])) ;;
  let '(ipinfo, u5) := if Py.truthy public_v4 then ipinfo_lookup n public_v4
                       else (PDict [], []) in
  Ok {| loc_public_v4 := public_v4; loc_public_v6 := public_v6; loc_geo := geo;
        loc_reverse := fst rev; loc_ipinfo := ipinfo;
        loc_requests := (u1 ++ u2 ++ u3 ++ snd rev ++ u5)%list |}.

(** A host whose [termux-battery-status] is missing and whose [dumpsys]
    answers. *)
Definition dumpsys_host : host :=
  {| check_output := fun cmd =>
       if (cmd =? "dumpsys battery")%string
       then Some ("Current Battery Service state:" ++ PyText.nl
                  ++ "  AC powered: false" ++ PyText.nl
                  ++ "  level: 0" ++ PyText.nl
                  ++ "  scale: 100" ++ PyText.nl)
       else None;
     json_loads := fun _ => None |}.

(** A host whose [termux-battery-status] prints a JSON list. *)
Definition listing_host : host :=
  {| check_output := fun cmd =>
       if (cmd =? "termux-battery-status")%string then Some ("[5]" ++ PyText.nl)
       else None;
     json_loads := fun text =>
       if (text =? "[5]")%string then Some (PList [PInt 5]) else None |}.

(** A host whose [/proc/cpuinfo] has a model line without a colon between
    its two processors. *)
Definition cpuinfo_host : host :=
  {| check_output := fun cmd =>
       if (cmd =? "cat /proc/cpuinfo")%string
       then Some ("processor : 0" ++ PyText.nl
                  ++ "Hardware" ++ PyText.nl
                  ++ "processor : 1" ++ PyText.nl)
       else None;
     json_loads := fun _ => None |}.

(** A network whose address service answers and whose primary provider
    answers with a list instead of an object. *)
Definition listing_net : net :=
  {| http_get := fun url =>
       if (url =? "https://api.ipify.org?format=json")%string
       then Some {| status_code := 200; json := Some (PDict [("ip", PStr "1.2.3.4")]) |}
       else if (url =? primary_url (PStr "1.2.3.4"))%string
       then Some {| status_code := 200; json := Some (PList [PStr "rate limited"]) |}
       else None |}.

(** A snapshot whose battery record has a level and no percentage. *)
Definition level_snapshot : dict :=
  [ ("battery", PDict [ ("level", PInt 40) ]);
    ("battery_bars",
     PStr (collect_battery_bars fixture_interpreter (PDict [ ("level", PInt 40) ]))) ].

(** A network that resolves the public address and places it on the
    equator. *)
Definition equator_net : net :=
  {| http_get := fun url =>
       if (url =? "https://api.ipify.org?format=json")%string
       then Some {| status_code := 200; json := Some (PDict [("ip", PStr "1.2.3.4")]) |}
       else if (url =? primary_url (PStr "1.2.3.4"))%string
       then Some {| status_code := 200;
                    json := Some (PDict [ ("latitude", PInt 0);
                                          ("longitude", PFloat 20.5) ]) |}
       else None |}.

(* ===================================================================== *)
(** * Scanner and workers together *)
(* ===================================================================== *)

(** [run] from the start of the workers to the return of
    [file_queue.join()]: the files the scan has still to look at, whether
    the scan has reached its [finally] block, and the pool with the
    counters that all threads share.  The stop flag stays clear, since
    [run] sets it after [join]; an interrupt from the keyboard is not
    modelled. *)
Record session : Type := {
  todo : list string;
  sealed : bool;
  pl : pool
}.

(** The scanner looks at the next file (it counts it, filters it and has
    it ready for [put]), the scanner reaches [finally] and has the
    sentinels ready, or one of the actions of the pool takes place. *)
Inductive move : Type :=
| Look
| Seal
| Act (a : action).

Definition with_scan (p : pool) (items : list (option string)) (c : counters) : pool :=
  {| incoming := items; queue := queue p; unfinished := unfinished p;
     stop_flag := stop_flag p; workers := workers p; shared := c |}.

(** One move; [None] when it is not enabled.  The scanner handles one
    file at a time, so it looks at the next one only when nothing waits to
    be put; a [put] of a path that succeeds is followed by the increment
    of [queued]. *)
Definition step (o : os) (u : uploads) (m : move) (s : session) : option session :=
  match m with
  | Look =>
      match todo s, incoming (pl s), sealed s with
      | full :: rest, [], false =>
          let '(allowed, c) := is_allowed_file o full (incr_found (shared (pl s))) in
          Some {| todo := rest; sealed := false;
                  pl := with_scan (pl s) (if allowed then [Some full] else []) c |}
      | _, _, _ => None
      end
  | Seal =>
      match todo s, incoming (pl s), sealed s with
      | [], [], false =>
          Some {| todo := []; sealed := true;
                  pl := with_scan (pl s) (repeat None WORKERS) (shared (pl s)) |}
      | _, _, _ => None
      end
  | Act SetStop => None
  | Act Put =>
      match exec u Put (pl s) with
      | Some p =>
          Some {| todo := todo s; sealed := sealed s;
                  pl := match incoming (pl s) with
                        | Some _ :: _ => with_scan p (incoming p) (incr_queued (shared p))
                        | _ => p
                        end |}
      | None => None
      end
  | Act a =>
      match exec u a (pl s) with
      | Some p => Some {| todo := todo s; sealed := sealed s; pl := p |}
      | None => None
      end
  end.

Fixpoint play (o : os) (u : uploads) (moves : list move) (s : session) : option session :=
  match moves with
  | [] => Some s
  | m :: rest =>
      match step o u m s with
      | None => None
      | Some s1 => play o u rest s1
      end
  end.

(** [run] has started its [WORKERS] threads and calls [producer_scan]. *)
Definition opening (o : os) (c : counters) : session :=
  {| todo := scanned_files o; sealed := false; pl := start [] WORKERS c |}.

(** [producer_scan()] and [file_queue.join()] have both returned. *)
Definition joined (s : session) : Prop :=
  sealed s = true /\ incoming (pl s) = [] /\ unfinished (pl s) = 0%nat.

(** A file that passes the filter and whose upload is answered with 200,
    and one that passes and whose upload fails. *)
Definition accepted (o : os) (u : uploads) (f : string) : bool :=
  passes_filter o f && answered_200 u f.

Definition refused (o : os) (u : uploads) (f : string) : bool :=
  passes_filter o f && failed u f.

(** The counters with what is still owed to each of them: the files not
    yet looked at, by class, and the paths on their way to a worker. *)
Definition ledger (o : os) (u : uploads) (s : session) : counters :=
  {| found := found (shared (pl s)) + List.length (todo s);
     queued := queued (shared (pl s)) + count_if (passes_filter o) (todo s)
               + List.length (paths_of (incoming (pl s)));
     sent := sent (shared (pl s)) + tally (answered_200 u) (pl s)
             + count_if (accepted o u) (todo s);
     skipped := skipped (shared (pl s)) + count_if (oversized o) (todo s);
     errors := errors (shared (pl s)) + tally (failed u) (pl s)
               + count_if (refused o u) (todo s)
               + count_if (unreadable o) (todo s) |}.

(** A folder with a picture, a picture that cannot be read, a film and a
    text; the upload of the film is answered with 500. *)
Definition session_os : os :=
  {| path_exists := fun base => (base =? "/sdcard/DCIM")%string;
     walk := fun base =>
       if (base =? "/sdcard/DCIM")%string
       then [ ("/sdcard/DCIM", [], ["a.jpg"; "gone.png"; "b.mp4"; "notes.txt"]) ]
       else [];
     getsize := fun path =>
       if (path =? "/sdcard/DCIM/gone.png")%string then None else Some 10%N |}.

Definition session_uploads : uploads :=
  {| guess_type := fun _ => None;
     open_file := fun _ => None;
     post_document := fun p _ =>
       if (p =? "/sdcard/DCIM/b.mp4")%string then inl 500 else inl 200 |}.

(** The first worker uploads the picture while the scanner goes on; the
    second one uploads the film; then every worker takes its sentinel. *)
Definition session_moves : list move :=
  ([ Look; Act (CheckStop 0); Act Put; Act (Get 0); Look; Look; Act (CheckStop 1);
     Act Put; Act (Finish 0); Act (Get 1); Look; Seal; Act (Finish 1) ]
   ++ flat_map (fun i => [ Act Put; Act (CheckStop i); Act (Get i) ]) (seq 0 WORKERS))%list.

(* ===================================================================== *)
(** * Strings: proofs *)
(* ===================================================================== *)

Lemma repeat_nat_len (s : string) (n : nat) :
  PyStr.len (PyStr.repeat_nat s n) = (n * PyStr.len s)%nat.
Proof.
  assert (app_len : forall a b, PyStr.len (a ++ b) = (PyStr.len a + PyStr.len b)%nat).
  { induction a as [|c a IH]; intros b; simpl; [reflexivity|].
    destruct (PyStr.is_continuation c); rewrite IH; reflexivity. }
  induction n as [|n IH]; simpl; [reflexivity|].
  rewrite app_len, IH. reflexivity.
Qed.

Lemma len_app (a b : string) :
  PyStr.len (a ++ b) = (PyStr.len a + PyStr.len b)%nat.
Proof.
  induction a as [|c a IH]; simpl; [reflexivity|].
  destruct (PyStr.is_continuation c); rewrite IH; reflexivity.
Qed.

(* ===================================================================== *)
(** * The allow-list filter: proofs *)
(* ===================================================================== *)

Lemma ext_allowed_In (path : string) :
  ext_allowed path = true <-> In (lowered_ext path) ALLOWED_EXTS.
Proof.
  unfold ext_allowed. rewrite existsb_exists. split.
  - intros [x [Hin Heq]]. apply String.eqb_eq in Heq. now subst.
  - intros Hin. exists (lowered_ext path). split; [assumption|apply String.eqb_refl].
Qed.

Lemma ext_allowed_false (path : string) :
  ext_allowed path = false <-> ~ In (lowered_ext path) ALLOWED_EXTS.
Proof.
  rewrite <- ext_allowed_In. destruct (ext_allowed path); split; congruence.
Qed.

(** The four ways out of [is_allowed_file], by extension and size. *)
Lemma is_allowed_file_cases (o : os) (path : string) (c : counters) :
  is_allowed_file o path c =
    if negb (ext_allowed path) then (false, c)
    else match getsize o path with
         | None => (false, incr_errors c)
         | Some size =>
             if (size =? 0)%N then (false, c)
             else if (MAX_FILE_SIZE <? size)%N then (false, incr_skipped c)
             else (true, c)
         end.
Proof. reflexivity. Qed.

(** C1.  [is_allowed_file] answers true exactly for a path whose lowercased
    extension is one of the 11 allowed ones and whose size is above 0 and at
    most 2*1024^3 bytes.  An empty file with an allowed extension is
    rejected with all counters unchanged, an oversized one is rejected with
    [skipped] raised by exactly 1 and nothing else changed, and a file with
    another extension is rejected with the counters unchanged. *)
Theorem is_allowed_file_spec (o : os) (path : string) (c : counters) :
  (List.length ALLOWED_EXTS = 11%nat /\ NoDup ALLOWED_EXTS
   /\ MAX_FILE_SIZE = (2 * 1024 ^ 3)%N)
  /\ (fst (is_allowed_file o path c) = true <->
      In (lowered_ext path) ALLOWED_EXTS
      /\ exists size, getsize o path = Some size
                      /\ (0 < size)%N /\ (size <= MAX_FILE_SIZE)%N)
  /\ (In (lowered_ext path) ALLOWED_EXTS -> getsize o path = Some 0%N ->
      is_allowed_file o path c = (false, c))
  /\ (forall size, In (lowered_ext path) ALLOWED_EXTS ->
      getsize o path = Some size -> (MAX_FILE_SIZE < size)%N ->
      let c' := snd (is_allowed_file o path c) in
      fst (is_allowed_file o path c) = false
      /\ skipped c' = S (skipped c)
      /\ found c' = found c /\ queued c' = queued c
      /\ sent c' = sent c /\ errors c' = errors c)
  /\ (~ In (lowered_ext path) ALLOWED_EXTS ->
      is_allowed_file o path c = (false, c)).
Proof.
  split.
  { split; [reflexivity|]. split; [|reflexivity].
    unfold ALLOWED_EXTS.
    repeat (constructor; [simpl; intuition congruence|]). constructor. }
  rewrite is_allowed_file_cases.
  split; [|split; [|split]].
  - split.
    + destruct (ext_allowed path) eqn:Hext; simpl; [|discriminate].
      destruct (getsize o path) as [size|] eqn:Hsize; simpl; [|discriminate].
      destruct (N.eqb_spec size 0); simpl; [discriminate|].
      destruct (N.ltb_spec MAX_FILE_SIZE size); simpl; [discriminate|].
      intros _. split; [now apply ext_allowed_In|].
      exists size. repeat split; [lia|assumption].
    + intros [Hin [size [Hsize [Hpos Hmax]]]].
      apply ext_allowed_In in Hin. rewrite Hin, Hsize. simpl.
      destruct (N.eqb_spec size 0); [lia|].
      destruct (N.ltb_spec MAX_FILE_SIZE size); [lia|reflexivity].
  - intros Hin Hsize. apply ext_allowed_In in Hin. rewrite Hin, Hsize. reflexivity.
  - intros size Hin Hsize Hbig. apply ext_allowed_In in Hin.
    rewrite Hin, Hsize. simpl.
    destruct (N.eqb_spec size 0) as [->|_]; [exfalso; revert Hbig; vm_compute; discriminate|].
    destruct (N.ltb_spec MAX_FILE_SIZE size); [|lia].
    simpl. repeat split.
  - intros Hout. apply ext_allowed_false in Hout. rewrite Hout. reflexivity.
Qed.

(** The allow-list filter at work on the fixture tree: an oversized [.mp4]
    raises [skipped] and nothing else. *)
Lemma is_allowed_file_spec_witness :
  fst (is_allowed_file fixture_os "/sdcard/Movies/big.mp4" counters0) = false
  /\ skipped (snd (is_allowed_file fixture_os "/sdcard/Movies/big.mp4" counters0)) = 1%nat.
Proof.
  destruct (is_allowed_file_spec fixture_os "/sdcard/Movies/big.mp4" counters0)
    as [_ [_ [_ [Hbig _]]]].
  destruct (Hbig (MAX_FILE_SIZE + 1)%N) as [Hflag [Hskip _]].
  - vm_compute. tauto.
  - reflexivity.
  - vm_compute. reflexivity.
  - split; [exact Hflag|exact Hskip].
Defined.

Example is_allowed_file_ten_byte_txt :
  is_allowed_file fixture_os "/sdcard/DCIM/notes.txt" counters0 = (false, counters0).
Proof. reflexivity. Qed.

Example is_allowed_file_empty_jpg :
  is_allowed_file fixture_os "/sdcard/DCIM/Camera/empty.jpg" counters0 = (false, counters0).
Proof. reflexivity. Qed.

Example is_allowed_file_at_limit :
  is_allowed_file fixture_os "/sdcard/Movies/limit.mkv" counters0 = (true, counters0).
Proof. reflexivity. Qed.

Example is_allowed_file_unreadable :
  is_allowed_file fixture_os "/sdcard/Movies/gone.mp4" counters0
  = (false, incr_errors counters0).
Proof. reflexivity. Qed.

(* ===================================================================== *)
(** * The producer: proofs *)
(* ===================================================================== *)

Lemma count_if_app {A : Type} (f : A -> bool) (l1 l2 : list A) :
  count_if f (l1 ++ l2)%list = (count_if f l1 + count_if f l2)%nat.
Proof. unfold count_if. now rewrite filter_app, length_app. Qed.

Lemma count_if_nil {A : Type} (f : A -> bool) : count_if f [] = 0%nat.
Proof. reflexivity. Qed.

Lemma count_if_cons {A : Type} (f : A -> bool) (x : A) (l : list A) :
  count_if f (x :: l) = ((if f x then 1 else 0) + count_if f l)%nat.
Proof. unfold count_if. simpl. now destruct (f x). Qed.

(** What one call of the filter does, by class. *)
Lemma is_allowed_file_by_class (o : os) (f : string) (c : counters) :
  is_allowed_file o f c =
    (passes_filter o f,
     if oversized o f then incr_skipped c
     else if unreadable o f then incr_errors c
     else c).
Proof.
  rewrite is_allowed_file_cases.
  unfold passes_filter, oversized, unreadable.
  destruct (ext_allowed f); simpl; [|reflexivity].
  destruct (getsize o f) as [size|]; [|reflexivity].
  destruct (N.eqb_spec size 0) as [->|Hnz]; [reflexivity|].
  destruct (N.ltb_spec MAX_FILE_SIZE size) as [Hbig|Hok].
  - replace (size <=? MAX_FILE_SIZE)%N with false
      by (symmetry; apply N.leb_gt; exact Hbig).
    now rewrite andb_false_r.
  - replace (0 <? size)%N with true by (symmetry; apply N.ltb_lt; lia).
    replace (size <=? MAX_FILE_SIZE)%N with true
      by (symmetry; apply N.leb_le; exact Hok).
    reflexivity.
Qed.

(** Every file is in exactly one of the four classes. *)
Lemma classes_partition (o : os) (f : string) :
  ((if passes_filter o f then 1 else 0)
   + (if disallowed_or_empty o f then 1 else 0)
   + (if oversized o f then 1 else 0)
   + (if unreadable o f then 1 else 0) = 1)%nat.
Proof.
  unfold passes_filter, disallowed_or_empty, oversized, unreadable.
  destruct (ext_allowed f); simpl; [|reflexivity].
  destruct (getsize o f) as [size|]; [|reflexivity].
  destruct (N.eqb_spec size 0) as [->|Hnz]; [reflexivity|].
  replace (0 <? size)%N with true by (symmetry; apply N.ltb_lt; lia).
  simpl.
  destruct (N.ltb_spec MAX_FILE_SIZE size) as [Hbig|Hok].
  - replace (size <=? MAX_FILE_SIZE)%N with false
      by (symmetry; apply N.leb_gt; exact Hbig).
    reflexivity.
  - replace (size <=? MAX_FILE_SIZE)%N with true
      by (symmetry; apply N.leb_le; exact Hok).
    reflexivity.
Qed.

Lemma classes_cover (o : os) (fs : list string) :
  (List.length fs =
     count_if (passes_filter o) fs + count_if (disallowed_or_empty o) fs
     + count_if (oversized o) fs + count_if (unreadable o) fs)%nat.
Proof.
  induction fs as [|f fs IH]; [reflexivity|].
  rewrite !count_if_cons. simpl List.length.
  pose proof (classes_partition o f). lia.
Qed.

Lemma scanned_nil (o : os) (st : scan_state) : scanned o [] st st.
Proof.
  unfold scanned, count_if. simpl. rewrite app_nil_r.
  repeat split; lia.
Qed.

Lemma scanned_app (o : os) (fs1 fs2 : list string) (st1 st2 st3 : scan_state) :
  scanned o fs1 st1 st2 -> scanned o fs2 st2 st3 -> scanned o (fs1 ++ fs2)%list st1 st3.
Proof.
  unfold scanned.
  intros (F1 & Q1 & K1 & E1 & S1 & P1) (F2 & Q2 & K2 & E2 & S2 & P2).
  rewrite !count_if_app, length_app, filter_app, map_app.
  repeat split; try lia.
  rewrite P2, P1. now rewrite app_assoc.
Qed.

Lemma put_retry_some (full : string) (c : counters) (q : list (option string))
    (outs : list bool) (st' : scan_state) :
  put_retry full c q outs = Some st' ->
  cnt st' = incr_queued c /\ pushed st' = (q ++ [Some full])%list.
Proof.
  induction outs as [|b outs IH]; simpl; [discriminate|].
  destruct b; [|exact IH].
  intros H. injection H as <-. split; reflexivity.
Qed.

Lemma scan_file_scanned (o : os) (root fn : string) (st st' : scan_state) :
  scan_file o false root fn st = Some st' ->
  scanned o [OsPath.join root fn] st st'.
Proof.
  unfold scan_file. rewrite is_allowed_file_by_class.
  set (full := OsPath.join root fn).
  unfold scanned. rewrite !count_if_cons. unfold count_if. simpl.
  pose proof (classes_partition o full) as Hpart.
  destruct (passes_filter o full) eqn:Hpass.
  - intros H. apply put_retry_some in H. destruct H as [Hc Hp].
    rewrite Hc, Hp.
    destruct (oversized o full); [simpl in Hpart; lia|].
    destruct (unreadable o full); [simpl in Hpart; lia|].
    simpl. repeat split; lia.
  - intros H. injection H as <-. simpl. rewrite app_nil_r.
    destruct (oversized o full); [simpl; repeat split; lia|].
    destruct (unreadable o full); simpl; repeat split; lia.
Qed.

Lemma scan_files_scanned (o : os) (root : string) (files : list string) :
  forall st st', scan_files o false root files st = Some st' ->
                 scanned o (map (OsPath.join root) files) st st'.
Proof.
  induction files as [|fn files IH]; simpl; intros st st' H.
  - injection H as <-. apply scanned_nil.
  - destruct (scan_file o false root fn st) as [st1|] eqn:H1; [|discriminate].
    apply (scanned_app o [OsPath.join root fn] _ st st1 st').
    + now apply scan_file_scanned.
    + now apply IH.
Qed.

Lemma scan_walk_scanned (o : os) (triples : list (string * list string * list string)) :
  forall st st', scan_walk o false triples st = Some st' ->
                 scanned o (files_of_walk triples) st st'.
Proof.
  induction triples as [|[[root dirs] files] triples IH]; simpl; intros st st' H.
  - injection H as <-. apply scanned_nil.
  - destruct (scan_files o false root files st) as [st1|] eqn:H1; [|discriminate].
    apply (scanned_app o _ _ st st1 st').
    + now apply scan_files_scanned.
    + now apply IH.
Qed.

Lemma scan_bases_scanned (o : os) (bases : list string) :
  forall st st', scan_bases o false bases st = Some st' ->
                 scanned o (files_under o bases) st st'.
Proof.
  induction bases as [|base bases IH]; simpl; intros st st' H.
  - injection H as <-. apply scanned_nil.
  - destruct (path_exists o base); simpl in H.
    + destruct (scan_walk o false (walk o base) st) as [st1|] eqn:H1; [|discriminate].
      apply (scanned_app o _ _ st st1 st').
      * now apply scan_walk_scanned.
      * now apply IH.
    + now apply IH.
Qed.

Lemma put_sentinels_counters (n : nat) :
  forall st st', put_sentinels n st = Some st' ->
                 cnt st' = cnt st
                 /\ exists k, (k <= n)%nat /\ pushed st' = (pushed st ++ repeat None k)%list.
Proof.
  induction n as [|n IH]; simpl; intros st st' H.
  - injection H as <-. split; [reflexivity|].
    exists 0%nat. split; [lia|]. simpl. now rewrite app_nil_r.
  - destruct (outcomes st) as [|[|] rest]; [discriminate| |].
    + apply IH in H. simpl in H. destruct H as [Hc [k [Hk Hp]]].
      split; [exact Hc|]. exists (S k). split; [lia|].
      rewrite Hp, <- app_assoc. reflexivity.
    + apply IH in H. simpl in H. destruct H as [Hc [k [Hk Hp]]].
      split; [exact Hc|]. exists k. split; [lia|exact Hp].
Qed.

Lemma scanned_files_under (o : os) : scanned_files o = files_under o FOLDERS_TO_SCAN.
Proof. reflexivity. Qed.

(** The whole scan, from any counters: every file is found once, the
    accepted ones are queued in order, and the sentinels follow. *)
Lemma producer_scan_scanned (o : os) (outs : list bool) (c : counters) (st : scan_state) :
  producer_scan o false outs c = Some st ->
  let fs := scanned_files o in
  found (cnt st) = (found c + List.length fs)%nat
  /\ queued (cnt st) = (queued c + count_if (passes_filter o) fs)%nat
  /\ skipped (cnt st) = (skipped c + count_if (oversized o) fs)%nat
  /\ errors (cnt st) = (errors c + count_if (unreadable o) fs)%nat
  /\ sent (cnt st) = sent c
  /\ exists k, (k <= WORKERS)%nat
               /\ pushed st = (map Some (filter (passes_filter o) fs) ++ repeat None k)%list.
Proof.
  unfold producer_scan.
  destruct (scan_bases o false FOLDERS_TO_SCAN _) as [st1|] eqn:H1; [|discriminate].
  intros H2. apply scan_bases_scanned in H1. apply put_sentinels_counters in H2.
  destruct H1 as (F & Q & K & E & S & P). destruct H2 as [Hc [k [Hk Hp]]].
  simpl in *. rewrite Hc, scanned_files_under.
  repeat split; try assumption.
  exists k. split; [exact Hk|]. now rewrite Hp, P.
Qed.

(** The scan returns whenever every [put] goes through. *)
Lemma put_sentinels_all_true (n m : nat) (c : counters) (q : list (option string)) :
  (n <= m)%nat ->
  exists st', put_sentinels n {| cnt := c; pushed := q; outcomes := repeat true m |} = Some st'.
Proof.
  revert m q. induction n as [|n IH]; intros m q Hle; simpl.
  - eexists; reflexivity.
  - destruct m as [|m]; [lia|]. simpl. apply IH. lia.
Qed.

Lemma scan_bases_all_true (o : os) (bases : list string) :
  forall (m : nat) (c : counters) (q : list (option string)),
    (count_if (passes_filter o) (files_under o bases) <= m)%nat ->
    exists c' q',
      scan_bases o false bases {| cnt := c; pushed := q; outcomes := repeat true m |}
      = Some {| cnt := c'; pushed := q';
                outcomes := repeat true (m - count_if (passes_filter o) (files_under o bases)) |}.
Proof.
  assert (Hfiles : forall root files m c q,
    (count_if (passes_filter o) (map (OsPath.join root) files) <= m)%nat ->
    exists c' q',
      scan_files o false root files {| cnt := c; pushed := q; outcomes := repeat true m |}
      = Some {| cnt := c'; pushed := q';
                outcomes := repeat true
                  (m - count_if (passes_filter o) (map (OsPath.join root) files)) |}).
  { intros root files. induction files as [|fn files IH]; intros m c q Hle; simpl.
    - exists c, q. now rewrite Nat.sub_0_r.
    - simpl map in Hle. rewrite count_if_cons in *.
      unfold scan_file. rewrite is_allowed_file_by_class. simpl cnt.
      destruct (passes_filter o (OsPath.join root fn)).
      + destruct m as [|m]; [simpl in Hle; lia|]. simpl.
        apply IH. simpl in Hle. lia.
      + simpl. apply IH. exact Hle. }
  assert (Hwalk : forall triples m c q,
    (count_if (passes_filter o) (files_of_walk triples) <= m)%nat ->
    exists c' q',
      scan_walk o false triples {| cnt := c; pushed := q; outcomes := repeat true m |}
      = Some {| cnt := c'; pushed := q';
                outcomes := repeat true
                  (m - count_if (passes_filter o) (files_of_walk triples)) |}).
  { induction triples as [|[[root dirs] files] triples IH]; intros m c q Hle; simpl.
    - exists c, q. now rewrite Nat.sub_0_r.
    - simpl in Hle. rewrite count_if_app in *.
      destruct (Hfiles root files m c q) as [c1 [q1 H1]]; [lia|].
      rewrite H1.
      destruct (IH (m - count_if (passes_filter o) (map (OsPath.join root) files))%nat c1 q1)
        as [c2 [q2 H2]]; [lia|].
      exists c2, q2. rewrite H2. do 3 f_equal. lia. }
  induction bases as [|base bases IH]; intros m c q Hle; simpl.
  - exists c, q. now rewrite Nat.sub_0_r.
  - simpl in Hle. rewrite count_if_app in *.
    destruct (path_exists o base); simpl.
    + destruct (Hwalk (walk o base) m c q) as [c1 [q1 H1]]; [lia|].
      rewrite H1.
      destruct (IH (m - count_if (passes_filter o) (files_of_walk (walk o base)))%nat c1 q1)
        as [c2 [q2 H2]]; [lia|].
      exists c2, q2. rewrite H2. do 3 f_equal. lia.
    + apply IH. exact Hle.
Qed.

Lemma producer_scan_completes (o : os) (c : counters) (m : nat) :
  (count_if (passes_filter o) (scanned_files o) + WORKERS <= m)%nat ->
  exists st, producer_scan o false (repeat true m) c = Some st.
Proof.
  intros Hle. unfold producer_scan.
  destruct (scan_bases_all_true o FOLDERS_TO_SCAN m c []) as [c1 [q1 H1]].
  { rewrite <- scanned_files_under. lia. }
  rewrite H1. apply put_sentinels_all_true.
  rewrite <- scanned_files_under. lia.
Qed.

(** A tree is made of the three classes alone exactly when the size of
    every file with an allowed extension can be read. *)
Lemma three_classes_iff_readable (o : os) (fs : list string) :
  List.length fs
  = (count_if (passes_filter o) fs + count_if (disallowed_or_empty o) fs
     + count_if (oversized o) fs)%nat
  <-> count_if (unreadable o) fs = 0%nat.
Proof. pose proof (classes_cover o fs). lia. Qed.

(** C4.  When [producer_scan] returns, with the stop flag clear, from a
    tree whose files are N that pass the filter, M with a disallowed
    extension or of size zero and K oversized ones with an allowed
    extension, the counters read found = N+M+K, queued = N, skipped = K. *)
Theorem producer_scan_counters (o : os) (outs : list bool) (st : scan_state) :
  let fs := scanned_files o in
  let N := count_if (passes_filter o) fs in
  let M := count_if (disallowed_or_empty o) fs in
  let K := count_if (oversized o) fs in
  producer_scan o false outs counters0 = Some st ->
  List.length fs = (N + M + K)%nat ->
  found (cnt st) = (N + M + K)%nat
  /\ queued (cnt st) = N
  /\ skipped (cnt st) = K.
Proof.
  intros fs N M K Hrun Hfixture.
  apply producer_scan_scanned in Hrun.
  destruct Hrun as (F & Q & S & _).
  fold fs in F, Q, S. simpl in F, Q, S.
  repeat split; [rewrite F; exact Hfixture|exact Q|exact S].
Qed.

(** The fixture tree has N = 3, M = 2 and K = 1. *)
Lemma producer_scan_counters_witness :
  match producer_scan fixture_os false (repeat true 15) counters0 with
  | Some st => found (cnt st) = 6%nat /\ queued (cnt st) = 3%nat /\ skipped (cnt st) = 1%nat
  | None => False
  end.
Proof.
  destruct (producer_scan fixture_os false (repeat true 15) counters0) as [st|] eqn:Hrun.
  - apply (producer_scan_counters fixture_os (repeat true 15) st Hrun).
    vm_compute. reflexivity.
  - vm_compute in Hrun. discriminate Hrun.
Defined.

Example fixture_scan_queue :
  option_map pushed (producer_scan fixture_os false (false :: repeat true 15) counters0)
  = Some ([ Some "/sdcard/DCIM/Camera/a.JPG";
            Some "/sdcard/Movies/limit.mkv";
            Some "/sdcard/Movies/clip.Mp4" ] ++ repeat None 12)%list.
Proof. vm_compute. reflexivity. Qed.

(* ===================================================================== *)
(** * The upload workers: proofs *)
(* ===================================================================== *)

Lemma send_document_once_success (u : uploads) (file_path : string) :
  fst (send_document_once u file_path) = answered_200 u file_path.
Proof.
  unfold send_document_once, answered_200.
  destruct (open_file u file_path); [reflexivity|].
  destruct (post_document u file_path _) as [code|msg]; [|reflexivity].
  now destruct (code =? 200).
Qed.

(** A non-200 answer comes back as the text [HTTP <code>], not as an
    exception. *)
Lemma send_document_once_http_error (u : uploads) (file_path : string) (code : Z) :
  open_file u file_path = None ->
  post_document u file_path
    (match guess_type u file_path with
     | Some m => m
     | None => "application/octet-stream"
     end) = inl code ->
  code <> 200 ->
  send_document_once u file_path = (false, Some ("HTTP " ++ PyStr.of_Z code)).
Proof.
  intros Hopen Hpost Hcode. unfold send_document_once.
  rewrite Hopen, Hpost.
  destruct (Z.eqb_spec code 200); [contradiction|reflexivity].
Qed.

Lemma paths_of_app (a b : list (option string)) :
  paths_of (a ++ b)%list = (paths_of a ++ paths_of b)%list.
Proof. unfold paths_of. apply flat_map_app. Qed.

Lemma count_if_split {A : Type} (f : A -> bool) (l : list A) :
  (count_if f l + count_if (fun x => negb (f x)) l = List.length l)%nat.
Proof.
  induction l as [|x l IH]; [reflexivity|].
  rewrite !count_if_cons. simpl List.length. destruct (f x); simpl; lia.
Qed.

Lemma sending_of_cons (w : worker) (ws : list worker) :
  sending_of (w :: ws) = (sending_of [w] ++ sending_of ws)%list.
Proof. unfold sending_of. simpl. now rewrite app_nil_r. Qed.

Lemma paths_of_cons (x : option string) (rest : list (option string)) :
  paths_of (x :: rest) = (paths_of [x] ++ paths_of rest)%list.
Proof. unfold paths_of. simpl. now rewrite app_nil_r. Qed.

(** Replacing the state of worker [i] moves its file, if it holds one, out
    of the files in flight, and the new one in. *)
Lemma sending_set_nth (f : string -> bool) (ws : list worker) :
  forall (i : nat) (w0 w : worker),
    nth_error ws i = Some w0 ->
    (count_if f (sending_of (set_nth i w ws)) + count_if f (sending_of [w0])
     = count_if f (sending_of ws) + count_if f (sending_of [w]))%nat.
Proof.
  induction ws as [|x ws IH]; intros i w0 w Hnth.
  - destruct i; discriminate.
  - destruct i as [|i]; simpl in Hnth.
    + injection Hnth as ->. simpl set_nth.
      rewrite (sending_of_cons w ws), (sending_of_cons w0 ws).
      rewrite !count_if_app. lia.
    + simpl set_nth.
      rewrite (sending_of_cons x (set_nth i w ws)), (sending_of_cons x ws).
      rewrite !count_if_app. specialize (IH i w0 w Hnth). lia.
Qed.

Lemma sending_of_idle (n : nat) : sending_of (repeat AtLoopHead n) = [].
Proof. induction n as [|n IH]; [reflexivity|exact IH]. Qed.

(** Reduce the projections of a pool that was just built. *)
Ltac pool_fields :=
  cbn [shared workers queue incoming unfinished stop_flag with_worker
       sent errors found queued skipped incr_sent incr_errors].

(** Evaluate the files held by a single worker or queue cell. *)
Ltac held_files H1 H2 :=
  cbn [sending_of paths_of flat_map app] in H1, H2 |- *;
  repeat rewrite count_if_cons in H1; repeat rewrite count_if_cons in H2;
  repeat rewrite count_if_cons;
  repeat rewrite count_if_nil in H1; repeat rewrite count_if_nil in H2;
  repeat rewrite count_if_nil.

(** One action keeps, for every class of files, the number already counted
    plus the number still owed; a worker action leaves [found], [queued]
    and [skipped] alone. *)
Lemma exec_keeps_tally (u : uploads) (a : action) (s s' : pool) :
  exec u a s = Some s' ->
  (sent (shared s') + tally (answered_200 u) s'
   = sent (shared s) + tally (answered_200 u) s)%nat
  /\ (errors (shared s') + tally (failed u) s'
      = errors (shared s) + tally (failed u) s)%nat
  /\ found (shared s') = found (shared s)
  /\ queued (shared s') = queued (shared s)
  /\ skipped (shared s') = skipped (shared s).
Proof.
  unfold tally.
  destruct a as [| | |i|i|i]; cbn [exec].
  - (* Put *)
    destruct (incoming s) as [|x rest] eqn:Hin; [discriminate|].
    destruct (List.length (queue s) <? QUEUE_MAX)%nat; [|discriminate].
    intros H. injection H as <-. pool_fields.
    rewrite (paths_of_cons x rest), !paths_of_app, !count_if_app.
    repeat split; lia.
  - (* DropSentinel *)
    destruct (incoming s) as [|[p|] rest] eqn:Hin; try discriminate.
    destruct (List.length (queue s) <? QUEUE_MAX)%nat; [discriminate|].
    intros H. injection H as <-. pool_fields.
    rewrite (paths_of_cons None rest), !count_if_app.
    repeat split; reflexivity.
  - (* SetStop *)
    intros H. injection H as <-. pool_fields. repeat split; reflexivity.
  - (* CheckStop *)
    destruct (nth_error (workers s) i) as [[| | |]|] eqn:Hnth; try discriminate.
    intros H. injection H as <-. pool_fields.
    pose proof (sending_set_nth (answered_200 u) (workers s) i AtLoopHead
                  (if stop_flag s then Exited else InGet) Hnth) as H1.
    pose proof (sending_set_nth (failed u) (workers s) i AtLoopHead
                  (if stop_flag s then Exited else InGet) Hnth) as H2.
    destruct (stop_flag s); held_files H1 H2; repeat split; lia.
  - (* Get *)
    destruct (nth_error (workers s) i) as [[| | |]|] eqn:Hnth; try discriminate.
    destruct (queue s) as [|[p|] rest] eqn:Hq.
    + intros H. injection H as <-. pool_fields. rewrite Hq.
      pose proof (sending_set_nth (answered_200 u) (workers s) i InGet AtLoopHead Hnth) as H1.
      pose proof (sending_set_nth (failed u) (workers s) i InGet AtLoopHead Hnth) as H2.
      held_files H1 H2. repeat split; lia.
    + intros H. injection H as <-. pool_fields.
      pose proof (sending_set_nth (answered_200 u) (workers s) i InGet (Sending p) Hnth) as H1.
      pose proof (sending_set_nth (failed u) (workers s) i InGet (Sending p) Hnth) as H2.
      rewrite (paths_of_cons (Some p) rest), !count_if_app.
      held_files H1 H2.
      destruct (answered_200 u p); destruct (failed u p); repeat split; lia.
    + intros H. injection H as <-. pool_fields.
      pose proof (sending_set_nth (answered_200 u) (workers s) i InGet Exited Hnth) as H1.
      pose proof (sending_set_nth (failed u) (workers s) i InGet Exited Hnth) as H2.
      rewrite (paths_of_cons None rest), !count_if_app.
      held_files H1 H2. repeat split; lia.
  - (* Finish *)
    destruct (nth_error (workers s) i) as [[| |p|]|] eqn:Hnth; try discriminate.
    pose proof (send_document_once_success u p) as Hok.
    destruct (send_document_once u p) as [success err]. simpl in Hok. subst success.
    intros H. injection H as <-. pool_fields.
    pose proof (sending_set_nth (answered_200 u) (workers s) i (Sending p) AtLoopHead Hnth) as H1.
    pose proof (sending_set_nth (failed u) (workers s) i (Sending p) AtLoopHead Hnth) as H2.
    held_files H1 H2. unfold failed in H2 at 2.
    destruct (answered_200 u p); simpl in *; repeat split; lia.
Qed.

Lemma run_schedule_keeps_tally (u : uploads) (acts : list action) :
  forall s s', run_schedule u acts s = Some s' ->
    (sent (shared s') + tally (answered_200 u) s'
     = sent (shared s) + tally (answered_200 u) s)%nat
    /\ (errors (shared s') + tally (failed u) s'
        = errors (shared s) + tally (failed u) s)%nat
    /\ found (shared s') = found (shared s)
    /\ queued (shared s') = queued (shared s)
    /\ skipped (shared s') = skipped (shared s).
Proof.
  induction acts as [|a acts IH]; simpl; intros s s' H.
  - injection H as <-. repeat split; reflexivity.
  - destruct (exec u a s) as [s1|] eqn:H1; [|discriminate].
    apply exec_keeps_tally in H1. apply IH in H.
    destruct H1 as (S1 & R1 & F1 & Q1 & K1). destruct H as (S2 & R2 & F2 & Q2 & K2).
    repeat split; congruence.
Qed.

Lemma tally_start (f : string -> bool) (items : list (option string)) (n : nat)
    (c : counters) :
  tally f (start items n c) = count_if f (paths_of items).
Proof.
  unfold tally, start. simpl. rewrite sending_of_idle. reflexivity.
Qed.

Lemma tally_drained (f : string -> bool) (s : pool) : drained s -> tally f s = 0%nat.
Proof.
  intros (H1 & H2 & H3). unfold tally. rewrite H1, H2, H3. reflexivity.
Qed.

(** What one [Finish] does to the counters: exactly one of [sent] and
    [errors] goes up, by one. *)
Lemma finish_counts_once (u : uploads) (i : nat) (s s' : pool) (file_path : string) :
  nth_error (workers s) i = Some (Sending file_path) ->
  exec u (Finish i) s = Some s' ->
  (answered_200 u file_path = true ->
   sent (shared s') = S (sent (shared s)) /\ errors (shared s') = errors (shared s))
  /\ (answered_200 u file_path = false ->
      sent (shared s') = sent (shared s) /\ errors (shared s') = S (errors (shared s))).
Proof.
  intros Hnth. simpl. rewrite Hnth.
  pose proof (send_document_once_success u file_path) as Hok.
  destruct (send_document_once u file_path) as [success err]. simpl in Hok. subst success.
  intros H. injection H as <-. simpl.
  destruct (answered_200 u file_path); split; intros; try discriminate; split; reflexivity.
Qed.

(** Some schedule hands every file to a worker and has it counted. *)
Lemma one_by_one_drains (u : uploads) (files : list string) :
  forall (tail : list (option string)) (k : nat) (ws : list worker) (c : counters),
  exists c',
    run_schedule u (one_by_one files)
      {| incoming := (map Some files ++ tail)%list; queue := []; unfinished := k;
         stop_flag := false; workers := AtLoopHead :: ws; shared := c |}
    = Some {| incoming := tail; queue := []; unfinished := k;
              stop_flag := false; workers := AtLoopHead :: ws; shared := c' |}.
Proof.
  induction files as [|p files IH]; intros tail k ws c.
  - exists c. reflexivity.
  - cbn [one_by_one flat_map map app run_schedule exec incoming queue List.length
         Nat.ltb Nat.leb QUEUE_MAX workers nth_error with_worker stop_flag set_nth
         unfinished shared pred].
    destruct (send_document_once u p) as [success err].
    apply IH.
Qed.

(** C5.  Whatever the interleaving of producer and workers, once every
    queued file has been handled each one has been counted exactly once:
    [sent] went up by the number of files whose upload was answered with
    status 200, [errors] by the number of files whose upload got another
    status or raised, and the two together by the number of files. *)
Theorem consumers_count_each_file_once (u : uploads) (acts : list action)
    (items : list (option string)) (n : nat) (c : counters) (s : pool) :
  run_schedule u acts (start items n c) = Some s ->
  drained s ->
  sent (shared s) = (sent c + count_if (answered_200 u) (paths_of items))%nat
  /\ errors (shared s) = (errors c + count_if (failed u) (paths_of items))%nat
  /\ (sent (shared s) + errors (shared s)
      = sent c + errors c + List.length (paths_of items))%nat.
Proof.
  intros Hrun Hdrained.
  apply run_schedule_keeps_tally in Hrun.
  destruct Hrun as (Hsent & Herr & _).
  rewrite !tally_start in *. rewrite !(tally_drained _ s Hdrained) in *.
  pose proof (count_if_split (answered_200 u) (paths_of items)) as Hsplit.
  change (fun x => negb (answered_200 u x)) with (failed u) in Hsplit.
  simpl in Hsent, Herr. repeat split; lia.
Qed.

(** Five files, three answered with 200 and two with another status, two
    workers: sent = 3 and errors = 2. *)
Lemma consumers_count_each_file_once_witness :
  match run_schedule fixture_uploads fixture_schedule (start fixture_items 2 counters0) with
  | Some s => sent (shared s) = 3%nat /\ errors (shared s) = 2%nat
  | None => False
  end.
Proof.
  destruct (run_schedule fixture_uploads fixture_schedule (start fixture_items 2 counters0))
    as [s|] eqn:Hrun.
  - assert (Hdrained : drained s).
    { pose proof Hrun as Hs. vm_compute in Hs. injection Hs as <-.
      repeat split. }
    destruct (consumers_count_each_file_once _ _ _ _ _ _ Hrun Hdrained) as (Hs & He & _).
    split; [exact Hs|exact He].
  - vm_compute in Hrun. discriminate Hrun.
Defined.

Lemma paths_of_sentinels (k : nat) : paths_of (repeat None k) = [].
Proof. induction k as [|k IH]; [reflexivity|exact IH]. Qed.

(** With at least one worker, the files can always be handled to the end. *)
Lemma drained_reachable (u : uploads) (files : list string) (k n : nat) (c : counters) :
  exists acts s,
    run_schedule u acts (start (map Some files ++ repeat None k)%list (S n) c) = Some s
    /\ drained s.
Proof.
  destruct (one_by_one_drains u files (repeat None k) 0 (repeat AtLoopHead n) c) as [c' H].
  exists (one_by_one files). eexists. split; [exact H|].
  unfold drained. simpl. rewrite paths_of_sentinels, sending_of_idle. repeat split.
Qed.

(* ===================================================================== *)
(** * Battery bars: proofs *)
(* ===================================================================== *)

Lemma len_solid : PyStr.len solid = 1%nat.
Proof. reflexivity. Qed.

Lemma len_light : PyStr.len light = 1%nat.
Proof. reflexivity. Qed.

Lemma len_repeat_glyph (glyph : string) (n : Z) :
  PyStr.len glyph = 1%nat -> PyStr.len (PyStr.repeat glyph n) = Z.to_nat n.
Proof.
  intros H. unfold PyStr.repeat. rewrite repeat_nat_len, H. lia.
Qed.

Lemma repeat_none (s : string) (n : Z) : n <= 0 -> PyStr.repeat s n = "".
Proof.
  intros Hn. unfold PyStr.repeat. replace (Z.to_nat n) with 0%nat by lia. reflexivity.
Qed.

Lemma repeat_in_fits (i : interpreter) (s : string) (n : Z) :
  room i <= index_max i -> - index_max i - 1 <= n <= room i ->
  repeat_in i s n = Ok (PyStr.repeat s n).
Proof.
  intros Hroom Hn. unfold repeat_in.
  replace (n <? - index_max i - 1) with false by (symmetry; apply Z.ltb_ge; lia).
  replace (index_max i <? n) with false by (symmetry; apply Z.ltb_ge; lia).
  cbn [orb]. destruct (Z.leb_spec n 0) as [Hle|Hgt].
  - now rewrite repeat_none.
  - replace (room i <? n) with false by (symmetry; apply Z.ltb_ge; lia). reflexivity.
Qed.

Lemma repeat_in_too_long (i : interpreter) (s : string) (n : Z) :
  0 <= room i -> room i < n -> exists e, repeat_in i s n = Raise e.
Proof.
  intros Hroom Hn. unfold repeat_in.
  destruct ((n <? - index_max i - 1) || (index_max i <? n)); [now eexists|].
  replace (n <=? 0) with false by (symmetry; apply Z.leb_gt; lia).
  replace (room i <? n) with true by (symmetry; apply Z.ltb_lt; lia).
  now eexists.
Qed.

Lemma repeat_in_result (i : interpreter) (s t : string) (n : Z) :
  repeat_in i s n = Ok t -> t = PyStr.repeat s n.
Proof.
  unfold repeat_in.
  destruct ((n <? - index_max i - 1) || (index_max i <? n)); [discriminate|].
  destruct (Z.leb_spec n 0) as [Hle|Hgt].
  - intros [= <-]. now rewrite repeat_none.
  - destruct (room i <? n); [discriminate|]. now intros [= <-].
Qed.

Lemma str_app_nil_r (s : string) : (s ++ "")%string = s.
Proof. induction s as [|a s IH]; [reflexivity|]. simpl. now rewrite IH. Qed.

Lemma concat_in_bar (i : interpreter) (b : Z) :
  10 <= room i ->
  concat_in i (PyStr.repeat solid b) (PyStr.repeat light (10 - b))
  = Ok (PyStr.repeat solid b ++ PyStr.repeat light (10 - b))%string
  \/ (room i < b \/ b < 10 - room i).
Proof.
  intros Hroom. unfold concat_in.
  destruct (String.eqb_spec (PyStr.repeat solid b) "") as [E1|E1].
  - left. now rewrite E1.
  - destruct (String.eqb_spec (PyStr.repeat light (10 - b)) "") as [E2|E2].
    + left. now rewrite E2, str_app_nil_r.
    + assert (H1 : 0 < b).
      { destruct (Z.leb_spec b 0) as [Hle|Hgt]; [|exact Hgt].
        elim E1. now apply repeat_none. }
      assert (H2 : 0 < 10 - b).
      { destruct (Z.leb_spec (10 - b) 0) as [Hle|Hgt]; [|exact Hgt].
        elim E2. now apply repeat_none. }
      rewrite !len_repeat_glyph by reflexivity.
      replace (room i <? Z.of_nat (Z.to_nat b + Z.to_nat (10 - b))) with false
        by (symmetry; apply Z.ltb_ge; lia).
      now left.
Qed.

(** The bar for a percentage that converts, by the truncated scaled value,
    when both runs of glyphs can be built. *)
Lemma battery_bars_of_scaled (i : interpreter) (v : pyval) (p : float) (b : Z) :
  sane i ->
  Py.to_float v = Ok p ->
  Py.int_of_float (p / 100 * 10)%float = Ok b ->
  10 - room i <= b <= room i ->
  battery_bars i v = (PyStr.repeat solid b ++ PyStr.repeat light (10 - b))%string.
Proof.
  intros [Hten Hroom] Hp Hb Hfit. unfold battery_bars, battery_bars_try.
  rewrite Hp. cbn [bind]. rewrite Hb. cbn [bind].
  rewrite !repeat_in_fits by lia. cbn [bind].
  destruct (concat_in_bar i b Hten) as [->|Hout]; [reflexivity|lia].
Qed.

(** A bar too long for the interpreter is not drawn. *)
Lemma battery_bars_out_of_room (i : interpreter) (v : pyval) (p : float) (b : Z) :
  sane i ->
  Py.to_float v = Ok p ->
  Py.int_of_float (p / 100 * 10)%float = Ok b ->
  b < 10 - room i \/ room i < b ->
  battery_bars i v = "N/A".
Proof.
  intros [Hten Hroom] Hp Hb Hout. unfold battery_bars, battery_bars_try.
  rewrite Hp. cbn [bind]. rewrite Hb. cbn [bind].
  destruct Hout as [Hlow|Hhigh].
  - destruct (repeat_in i solid b) as [solids|e]; [|reflexivity]. cbn [bind].
    destruct (repeat_in_too_long i light (10 - b)) as [e ->]; [lia|lia|].
    reflexivity.
  - destruct (repeat_in_too_long i solid b) as [e ->]; [lia|lia|]. reflexivity.
Qed.


(** Inputs with the same count of solid glyphs get the same answer. *)
Lemma battery_bars_by_scaled (i : interpreter) (v w : pyval) :
  scaled v = scaled w -> battery_bars i v = battery_bars i w.
Proof.
  unfold scaled, battery_bars, battery_bars_try. intros H.
  destruct (Py.to_float v) as [p|e1]; destruct (Py.to_float w) as [q|e2];
    cbn [bind] in *.
  - now rewrite H.
  - rewrite H. reflexivity.
  - rewrite <- H. reflexivity.
  - reflexivity.
Qed.

Lemma len_bar (b : Z) :
  PyStr.len (PyStr.repeat solid b ++ PyStr.repeat light (10 - b))
  = (Z.to_nat b + Z.to_nat (10 - b))%nat.
Proof. rewrite len_app, !len_repeat_glyph by reflexivity. reflexivity. Qed.

(** On the whole percentages from 0 to 100 the double arithmetic and the
    truncation give a count from 0 to 10, the one of the specification. *)
Lemma whole_percentages_checked :
  forallb (fun n => let p := Z.of_nat n in
                    match Py.to_float (PInt p) with
                    | Ok x =>
                        match Py.int_of_float (x / 100 * 10)%float with
                        | Ok b =>
                            (0 <=? b) && (b <=? 10)
                            && ((PyStr.repeat solid b ++ PyStr.repeat light (10 - b))
                                =? spec_battery_bars (inject_Z p))%string
                        | Raise _ => false
                        end
                    | Raise _ => false
                    end)
          (seq 0 101) = true.
Proof. vm_compute. reflexivity. Qed.

Lemma whole_percentage (i : interpreter) (p : Z) :
  sane i -> 0 <= p <= 100 ->
  battery_bars i (PInt p) = spec_battery_bars (inject_Z p)
  /\ PyStr.len (battery_bars i (PInt p)) = 10%nat.
Proof.
  intros Hsane Hp.
  pose proof whole_percentages_checked as H.
  rewrite forallb_forall in H.
  specialize (H (Z.to_nat p)).
  rewrite Z2Nat.id in H by lia.
  assert (Hin : In (Z.to_nat p) (seq 0 101)) by (apply in_seq; lia).
  apply H in Hin. clear H. cbv zeta in Hin.
  destruct (Py.to_float (PInt p)) as [x|] eqn:Hx; [|discriminate Hin].
  destruct (Py.int_of_float (x / 100 * 10)%float) as [b|] eqn:Hb; [|discriminate Hin].
  apply andb_prop in Hin. destruct Hin as [Hrange Hspec].
  apply andb_prop in Hrange. destruct Hrange as [H0 H10].
  apply Z.leb_le in H0, H10. apply String.eqb_eq in Hspec.
  assert (Hbar : battery_bars i (PInt p)
                 = (PyStr.repeat solid b ++ PyStr.repeat light (10 - b))%string).
  { apply (battery_bars_of_scaled i (PInt p) x b Hsane Hx Hb).
    destruct Hsane. lia. }
  split; [now rewrite Hbar|].
  rewrite Hbar, len_bar. lia.
Qed.

Lemma fixture_interpreter_sane : sane fixture_interpreter.
Proof. unfold sane, fixture_interpreter. simpl. lia. Qed.




(** Just below 30 the doubles round up: the real [floor(p/100 * 10)] is 2,
    the bar has 3 solid glyphs. *)
Example battery_bars_rounding_case :
  battery_bars fixture_interpreter (PFloat 0x1.dffffffffffffp+4)
  = (PyStr.repeat_nat solid 3 ++ PyStr.repeat_nat light 7)%string
  /\ spec_battery_bars (8444249301319679 # 281474976710656)
     = (PyStr.repeat_nat solid 2 ++ PyStr.repeat_nat light 8)%string.
Proof. split; vm_compute; reflexivity. Qed.

Example battery_bars_not_a_number :
  map (battery_bars fixture_interpreter)
      [PStr "abc"; PNone; PList []; PFloat nan; PFloat infinity]
  = ["N/A"; "N/A"; "N/A"; "N/A"; "N/A"].
Proof. vm_compute. reflexivity. Qed.

(** A number is a percentage to [float()] however large it is, and the
    bar it asks for is too long to build: the answer is ["N/A"]. *)
Example battery_bars_too_long :
  map (battery_bars fixture_interpreter)
      [PFloat 0x1.5af1d78b58c4p+66; PStr "1e20"; PInt (-100000000000000000000)]
  = ["N/A"; "N/A"; "N/A"].
Proof. vm_compute. reflexivity. Qed.

(** C8, as the code has it.  For a numeric input whose scaled and truncated
    value [b] lies between 0 and 10 the bar has exactly 10 glyphs, and so
    it has for every whole percentage from 0 to 100.  Outside that range
    the counts are not clamped: as long as the bar can be built it has
    [max b 0 + max (10 - b) 0] glyphs, which is more than 10, and when it
    is too long for the interpreter the result is the three characters
    ["N/A"]. *)
Theorem battery_bars_length :
  (forall (i : interpreter) (v : pyval) (p : float) (b : Z),
      sane i ->
      Py.to_float v = Ok p ->
      Py.int_of_float (p / 100 * 10)%float = Ok b ->
      (0 <= b <= 10 -> PyStr.len (battery_bars i v) = 10%nat)
      /\ (10 - room i <= b <= room i ->
          PyStr.len (battery_bars i v) = (Z.to_nat b + Z.to_nat (10 - b))%nat)
      /\ (10 - room i <= b < 0 \/ 10 < b <= room i ->
          (10 < PyStr.len (battery_bars i v))%nat)
      /\ (b < 10 - room i \/ room i < b ->
          battery_bars i v = "N/A" /\ PyStr.len (battery_bars i v) = 3%nat))
  /\ (forall (i : interpreter) (p : Z), sane i -> 0 <= p <= 100 ->
      PyStr.len (battery_bars i (PInt p)) = 10%nat).
Proof.
  split.
  - intros i v p b Hsane Hp Hb.
    assert (Hlen : 10 - room i <= b <= room i ->
                   PyStr.len (battery_bars i v) = (Z.to_nat b + Z.to_nat (10 - b))%nat).
    { intros Hfit. rewrite (battery_bars_of_scaled i v p b Hsane Hp Hb Hfit).
      apply len_bar. }
    destruct Hsane as [Hten Hroom].
    split; [|split; [|split]].
    + intros Hrange. rewrite Hlen; lia.
    + exact Hlen.
    + intros Hrange. rewrite Hlen; lia.
    + intros Hout.
      rewrite (battery_bars_out_of_room i v p b (conj Hten Hroom) Hp Hb Hout).
      split; reflexivity.
  - intros i p Hsane Hp. exact (proj2 (whole_percentage i p Hsane Hp)).
Qed.

Lemma battery_bars_length_witness :
  PyStr.len (battery_bars fixture_interpreter (PFloat 79.5)) = 10%nat.
Proof.
  assert (Hb : Py.int_of_float (79.5 / 100 * 10)%float = Ok 7)
    by (vm_compute; reflexivity).
  destruct (proj1 battery_bars_length fixture_interpreter (PFloat 79.5) 79.5%float 7
              fixture_interpreter_sane eq_refl Hb) as [Hten _].
  apply Hten. lia.
Defined.

(** A percentage of 150 draws 15 glyphs. *)
Lemma battery_bars_length_counterexample :
  PyStr.len (battery_bars fixture_interpreter (PInt 150)) <> 10%nat.
Proof. vm_compute. discriminate. Qed.

Example battery_bars_below_range :
  PyStr.len (battery_bars fixture_interpreter (PInt (-10))) = 11%nat.
Proof. vm_compute. reflexivity. Qed.

Lemma is_zero_not_truthy (v : pyval) : Py.is_zero v = true -> Py.truthy v = false.
Proof.
  destruct v; simpl; try discriminate.
  - intros ->. reflexivity.
  - unfold PyFloat.truthy. intros ->. reflexivity.
Qed.

(** C9, as the code has it.  When the battery record reports its
    percentage, or its level, as the number 0 and the other of the two
    fields is missing or false, the snapshot's [battery_bars] is ["N/A"]:
    the bar is only drawn for a true value, although [battery_bars(0)]
    itself is a bar of 10 light glyphs.  When the other field is true the
    zero is passed over and the bar is the one of that other field. *)
Theorem zero_percent_is_na (i : interpreter) (d : dict) :
  (reports_zero d "percentage" "level" ->
   collect_battery_bars i (PDict d) = "N/A"
   /\ (sane i ->
       battery_bars i (PInt 0) = PyStr.repeat_nat light 10
       /\ collect_battery_bars i (PDict d) <> battery_bars i (PInt 0)))
  /\ (Py.is_zero (Py.get d "percentage") = true ->
      Py.truthy (Py.get d "level") = true ->
      collect_battery_bars i (PDict d) = battery_bars i (Py.get d "level"))
  /\ (Py.is_zero (Py.get d "level") = true ->
      Py.truthy (Py.get d "percentage") = true ->
      collect_battery_bars i (PDict d) = battery_bars i (Py.get d "percentage")).
Proof.
  split; [|split].
  - intros Hzero.
    assert (Hna : collect_battery_bars i (PDict d) = "N/A").
    { unfold collect_battery_bars, collect_perc, Py.or.
      destruct Hzero as [[Hz Hf]|[Hf Hz]].
      - apply is_zero_not_truthy in Hz. rewrite Hz, Hf. reflexivity.
      - apply is_zero_not_truthy in Hz. rewrite Hf, Hz. reflexivity. }
    split; [exact Hna|]. intros Hsane.
    assert (Hbar : battery_bars i (PInt 0) = PyStr.repeat_nat light 10).
    { rewrite (proj1 (whole_percentage i 0 Hsane ltac:(lia))).
      vm_compute. reflexivity. }
    split; [exact Hbar|]. rewrite Hna, Hbar. vm_compute. discriminate.
  - intros Hz Hlevel. apply is_zero_not_truthy in Hz.
    unfold collect_battery_bars, collect_perc, Py.or. rewrite Hz, Hlevel. reflexivity.
  - intros _ Hperc.
    unfold collect_battery_bars, collect_perc, Py.or.
    rewrite Hperc. cbv iota. rewrite Hperc. reflexivity.
Qed.

Lemma zero_percent_is_na_witness :
  collect_battery_bars fixture_interpreter
    (PDict [("health", PStr "GOOD"); ("percentage", PInt 0)]) = "N/A".
Proof.
  apply (proj1 (zero_percent_is_na fixture_interpreter
                  [("health", PStr "GOOD"); ("percentage", PInt 0)])).
  left. split; reflexivity.
Defined.

(** A record whose percentage is the number 0 beside a level of 80 gets
    the bar of the level, not ["N/A"]. *)
Lemma zero_percent_counterexample :
  Py.is_zero (Py.get [("percentage", PInt 0); ("level", PInt 80)] "percentage") = true
  /\ collect_battery_bars fixture_interpreter
       (PDict [("percentage", PInt 0); ("level", PInt 80)]) <> "N/A".
Proof. split; [reflexivity|vm_compute; discriminate]. Qed.

(** The text ["0"] of a [dumpsys] record is a true value and gets its bar. *)
Example level_text_zero_gets_a_bar :
  collect_battery_bars fixture_interpreter (PDict [("level", PStr "0")])
  = PyStr.repeat_nat light 10.
Proof. vm_compute. reflexivity. Qed.

Example truthy_level_wins_over_zero_percentage :
  collect_battery_bars fixture_interpreter
    (PDict [("percentage", PInt 0); ("level", PInt 80)])
  = (PyStr.repeat_nat solid 8 ++ PyStr.repeat_nat light 2)%string.
Proof. vm_compute. reflexivity. Qed.

(* ===================================================================== *)
(** * Combined identifier: proofs *)
(* ===================================================================== *)

Lemma or_empty_dict (g : dict) : Py.or (PDict g) (PDict []) = PDict g.
Proof. destruct g; reflexivity. Qed.

Lemma coordinate_read (g : dict) (k1 k2 : string) :
  (a <- Py.attr_get (PDict g) k1 ;;
   if Py.truthy a then Ok a else Py.attr_get (PDict g) k2)
  = Ok (Py.or (Py.get g k1) (Py.get g k2)).
Proof. simpl. unfold Py.or. now destruct (Py.truthy (Py.get g k1)). Qed.

Lemma run_combined_id_on_mapping (snap g : dict) :
  geo_is snap g ->
  run_combined_id snap
  = Ok (identifier_of (Py.get snap "public_ipv4") (latitude_of g) (longitude_of g)).
Proof.
  intros Hgeo. unfold run_combined_id.
  assert (Hg : Py.or (Py.get snap "geo") (PDict []) = PDict g).
  { unfold Py.get, Py.get_default.
    destruct Hgeo as [H|[H ->]]; rewrite H; [apply or_empty_dict|reflexivity]. }
  rewrite Hg, !coordinate_read. cbn [bind].
  unfold identifier_of, latitude_of, longitude_of.
  destruct (_ && _); [reflexivity|].
  destruct (Py.truthy _); reflexivity.
Qed.

Lemma build_message_combined_id_on_mapping (snap g : dict) :
  geo_is snap g ->
  build_message_combined_id snap
  = Ok (identifier_of (Py.get snap "public_ipv4") (latitude_of g) (longitude_of g)).
Proof.
  intros Hgeo. unfold build_message_combined_id.
  assert (Hg : Py.get_default snap "geo" (PDict []) = PDict g).
  { unfold Py.get_default. destruct Hgeo as [H|[H ->]]; rewrite H; reflexivity. }
  rewrite Hg, !coordinate_read. cbn [bind].
  unfold identifier_of, latitude_of, longitude_of.
  destruct (_ && _); [reflexivity|].
  destruct (Py.truthy _); reflexivity.
Qed.

(** On every snapshot whose geolocation field is a mapping, or is not
    stored, the derivation in [build_message_from_snapshot] and the one in
    [run] give the same result. *)
Lemma derivations_agree_on_mapping (snap g : dict) :
  geo_is snap g -> build_message_combined_id snap = run_combined_id snap.
Proof.
  intros Hgeo.
  now rewrite (run_combined_id_on_mapping snap g Hgeo),
              (build_message_combined_id_on_mapping snap g Hgeo).
Qed.

Example derivations_agree_with_coordinates :
  build_message_combined_id snapshot_with_coordinates
  = run_combined_id snapshot_with_coordinates.
Proof.
  apply (derivations_agree_on_mapping snapshot_with_coordinates
           [ ("ip", PStr "1.2.3.4"); ("latitude", PFloat 10.5);
             ("longitude", PFloat 20.5) ]).
  left. reflexivity.
Qed.

(** C2.  The two derivations of the combined identifier are to give the
    same result on every snapshot.  On a snapshot that stores the JSON
    value [null] as its geolocation they do not: [run] falls back to the
    empty mapping and yields [1.2.3.4|N/A], while the formatter calls [get]
    on [None] and raises [AttributeError]. *)
Theorem combined_id_derivations_on_null_geo :
  collect_geo null_net (PStr "1.2.3.4") = PNone
  /\ Py.lookup snapshot_geo_null "geo" = Some PNone
  /\ run_combined_id snapshot_geo_null = Ok (PStr "1.2.3.4|N/A")
  /\ build_message_combined_id snapshot_geo_null = Raise AttributeError
  /\ build_message_combined_id snapshot_geo_null <> run_combined_id snapshot_geo_null.
Proof.
  split; [reflexivity|]. split; [reflexivity|].
  split; [reflexivity|]. split; [reflexivity|]. vm_compute. discriminate.
Qed.

(** The two derivations differ exactly on a stored geolocation value that
    is false and not a mapping. *)
Lemma combined_id_derivations_differ_iff (snap : dict) :
  build_message_combined_id snap <> run_combined_id snap
  <-> exists v, Py.lookup snap "geo" = Some v
                /\ Py.truthy v = false
                /\ (forall g, v <> PDict g).
Proof.
  split.
  - intros Hdiff.
    destruct (Py.lookup snap "geo") as [v|] eqn:Hlook.
    + exists v. split; [reflexivity|].
      destruct (Py.truthy v) eqn:Htruthy.
      * exfalso. apply Hdiff.
        unfold build_message_combined_id, run_combined_id, Py.get, Py.get_default, Py.or.
        rewrite Hlook, Htruthy. reflexivity.
      * split; [reflexivity|]. intros g ->.
        apply Hdiff. apply (derivations_agree_on_mapping snap g). now left.
    + exfalso. apply Hdiff. apply (derivations_agree_on_mapping snap []). now right.
  - intros [v [Hlook [Hfalse Hshape]]].
    unfold build_message_combined_id, run_combined_id.
    set (ip4 := Py.get snap "public_ipv4").
    replace (Py.get_default snap "geo" (PDict [])) with v
      by (unfold Py.get_default; now rewrite Hlook).
    replace (Py.or (Py.get snap "geo") (PDict [])) with (PDict [])
      by (unfold Py.or, Py.get, Py.get_default; now rewrite Hlook, Hfalse).
    destruct v as [|b|z|f|t|items|g];
      try (simpl; destruct (Py.truthy ip4); simpl; discriminate).
    exfalso. exact (Hshape g eq_refl).
Qed.

(** C3.  With a true public IPv4 and two true coordinates the identifier is
    [{ip}|{lat},{lon}]; with a true IPv4 and a coordinate that is not true
    it is [{ip}|N/A]; without a true IPv4 it is [None].  Both derivations
    give it.  For 1.2.3.4 and (10.5, 20.5) it is [1.2.3.4|10.5,20.5]. *)
Theorem combined_id_format :
  (forall snap g : dict,
      geo_is snap g ->
      let ip4 := Py.get snap "public_ipv4" in
      let lat := latitude_of g in
      let lon := longitude_of g in
      (Py.truthy ip4 = true -> Py.truthy lat = true -> Py.truthy lon = true ->
       run_combined_id snap
       = Ok (PStr (Py.str ip4 ++ "|" ++ Py.str lat ++ "," ++ Py.str lon))
       /\ build_message_combined_id snap
          = Ok (PStr (Py.str ip4 ++ "|" ++ Py.str lat ++ "," ++ Py.str lon)))
      /\ (Py.truthy ip4 = true -> Py.truthy lat = false \/ Py.truthy lon = false ->
          run_combined_id snap = Ok (PStr (Py.str ip4 ++ "|N/A"))
          /\ build_message_combined_id snap = Ok (PStr (Py.str ip4 ++ "|N/A")))
      /\ (Py.truthy ip4 = false ->
          run_combined_id snap = Ok PNone
          /\ build_message_combined_id snap = Ok PNone))
  /\ run_combined_id snapshot_with_coordinates = Ok (PStr "1.2.3.4|10.5,20.5")
  /\ build_message_combined_id snapshot_with_coordinates = Ok (PStr "1.2.3.4|10.5,20.5")
  /\ run_combined_id snapshot_without_coordinates = Ok (PStr "1.2.3.4|N/A")
  /\ build_message_combined_id snapshot_without_coordinates = Ok (PStr "1.2.3.4|N/A")
  /\ run_combined_id snapshot_without_ip = Ok PNone
  /\ build_message_combined_id snapshot_without_ip = Ok PNone.
Proof.
  split.
  - intros snap g Hgeo ip4 lat lon.
    rewrite (run_combined_id_on_mapping snap g Hgeo),
            (build_message_combined_id_on_mapping snap g Hgeo).
    fold ip4 lat lon. unfold identifier_of.
    split; [|split].
    + intros -> -> ->. split; reflexivity.
    + intros -> [-> | ->]; rewrite ?andb_false_r; split; reflexivity.
    + intros ->. split; reflexivity.
  - repeat split; vm_compute; reflexivity.
Qed.

Lemma combined_id_format_witness :
  run_combined_id snapshot_on_equator = Ok (PStr "1.2.3.4|N/A").
Proof.
  destruct (proj1 combined_id_format snapshot_on_equator
              [ ("latitude", PInt 0); ("longitude", PFloat 20.5) ]
              (or_introl eq_refl)) as [_ [Hna _]].
  destruct Hna as [Hrun _].
  - reflexivity.
  - left. reflexivity.
  - exact Hrun.
Defined.

(** C10.  With a true public IPv4 and a mapping whose latitude, or whose
    longitude, is the number 0 (under either spelling of the key, the other
    spelling being missing or false), [run] and the formatter both give
    [{ip}|N/A]. *)
Theorem zero_coordinate_is_na (snap g : dict) :
  Py.lookup snap "geo" = Some (PDict g) ->
  Py.truthy (Py.get snap "public_ipv4") = true ->
  reports_zero g "latitude" "lat" \/ reports_zero g "longitude" "lon" ->
  run_combined_id snap = Ok (PStr (Py.str (Py.get snap "public_ipv4") ++ "|N/A"))
  /\ build_message_combined_id snap
     = Ok (PStr (Py.str (Py.get snap "public_ipv4") ++ "|N/A")).
Proof.
  intros Hgeo Hip Hzero.
  assert (Hshape : geo_is snap g) by now left.
  assert (Hcoord : Py.truthy (latitude_of g) = false \/ Py.truthy (longitude_of g) = false).
  { assert (Hor : forall k1 k2, reports_zero g k1 k2 ->
                                Py.truthy (Py.or (Py.get g k1) (Py.get g k2)) = false).
    { intros k1 k2 [[Hz Hf]|[Hf Hz]]; apply is_zero_not_truthy in Hz;
        unfold Py.or; [rewrite Hz; exact Hf|rewrite Hf; exact Hz]. }
    destruct Hzero as [H|H]; [left|right]; apply Hor; exact H. }
  rewrite (run_combined_id_on_mapping snap g Hshape),
          (build_message_combined_id_on_mapping snap g Hshape).
  unfold identifier_of. rewrite Hip.
  destruct Hcoord as [-> | ->]; rewrite ?andb_false_r; split; reflexivity.
Qed.

Lemma zero_coordinate_is_na_witness :
  run_combined_id snapshot_on_equator = Ok (PStr "1.2.3.4|N/A")
  /\ build_message_combined_id snapshot_on_equator = Ok (PStr "1.2.3.4|N/A").
Proof.
  apply (zero_coordinate_is_na snapshot_on_equator
           [ ("latitude", PInt 0); ("longitude", PFloat 20.5) ]).
  - reflexivity.
  - reflexivity.
  - left. left. split; reflexivity.
Defined.

Example zero_longitude_as_float :
  run_combined_id [ ("public_ipv4", PStr "1.2.3.4");
                    ("geo", PDict [ ("latitude", PFloat 51.5); ("longitude", PFloat 0) ]) ]
  = Ok (PStr "1.2.3.4|N/A").
Proof. vm_compute. reflexivity. Qed.

(* ===================================================================== *)
(** * Geolocation with fallback: proofs *)
(* ===================================================================== *)

Lemma eq_str_spec (v : pyval) (s : string) : Py.eq_str v s = true <-> v = PStr s.
Proof.
  destruct v; simpl; try (split; [discriminate|intros H; discriminate H]).
  rewrite String.eqb_eq. split; [now intros ->|now intros [= ->]].
Qed.

(** After a failed primary request the answer is decided by the secondary
    one alone. *)
Lemma geolocate_ip_after_primary_failure (n : net) (ip : pyval) :
  Py.truthy ip = true ->
  fetch_json n (primary_url ip) = None ->
  geolocate_ip n ip =
    (match fetch_json n (secondary_url ip) with
     | Some (PDict j) => if Py.eq_str (Py.get j "status") "success" then remap j else PDict []
     | _ => PDict []
     end,
     [primary_url ip; secondary_url ip]).
Proof.
  intros Hip Hprimary. unfold geolocate_ip. rewrite Hip, Hprimary. simpl.
  destruct (fetch_json n (secondary_url ip)) as [[|b|z|f|t|items|j]|]; try reflexivity.
  simpl. now destruct (Py.eq_str (Py.get j "status") "success").
Qed.

(** C6.  Without an IP [geolocate_ip] returns the empty mapping and makes
    no request.  When the primary request fails it asks the secondary
    provider, and returns the remapped mapping, with its nine keys, exactly
    when the secondary answer is a mapping whose [status] is ["success"];
    with any other status, or when the secondary request fails, it returns
    the empty mapping. *)
Theorem geolocate_ip_fallback (n : net) (ip : pyval) :
  (Py.truthy ip = false -> geolocate_ip n ip = (PDict [], []))
  /\ (Py.truthy ip = true -> fetch_json n (primary_url ip) = None ->
      snd (geolocate_ip n ip) = [primary_url ip; secondary_url ip]
      /\ (forall j, fetch_json n (secondary_url ip) = Some (PDict j) ->
                    Py.get j "status" = PStr "success" ->
                    fst (geolocate_ip n ip) = remap j)
      /\ ((forall j, fetch_json n (secondary_url ip) = Some (PDict j) ->
                     Py.get j "status" <> PStr "success") ->
          fst (geolocate_ip n ip) = PDict [])
      /\ (fst (geolocate_ip n ip) <> PDict [] <->
          exists j, fetch_json n (secondary_url ip) = Some (PDict j)
                    /\ Py.get j "status" = PStr "success"))
  /\ (forall j, exists entries,
         remap j = PDict entries
         /\ map fst entries
            = [ "ip"; "latitude"; "longitude"; "city"; "region";
                "country_name"; "org"; "postal"; "timezone" ]).
Proof.
  split; [|split].
  - intros Hip. unfold geolocate_ip. rewrite Hip. reflexivity.
  - intros Hip Hprimary.
    rewrite (geolocate_ip_after_primary_failure n ip Hip Hprimary). simpl.
    split; [reflexivity|]. split; [|split].
    + intros j Hj Hstatus. rewrite Hj.
      apply eq_str_spec in Hstatus. now rewrite Hstatus.
    + intros Hnone.
      destruct (fetch_json n (secondary_url ip)) as [[|b|z|f|t|items|j]|]; try reflexivity.
      destruct (Py.eq_str (Py.get j "status") "success") eqn:Hst; [|reflexivity].
      apply eq_str_spec in Hst. exfalso. exact (Hnone j eq_refl Hst).
    + split.
      * destruct (fetch_json n (secondary_url ip)) as [[|b|z|f|t|items|j]|];
          try (intros H; exfalso; apply H; reflexivity).
        destruct (Py.eq_str (Py.get j "status") "success") eqn:Hst;
          [|intros H; exfalso; apply H; reflexivity].
        intros _. exists j. split; [reflexivity|now apply eq_str_spec].
      * intros [j [Hj Hstatus]]. rewrite Hj.
        apply eq_str_spec in Hstatus. rewrite Hstatus. discriminate.
  - intros j. eexists. split; reflexivity.
Qed.

Lemma geolocate_ip_fallback_witness :
  fst (geolocate_ip (fallback_net secondary_success) (PStr "1.2.3.4"))
  = PDict [ ("ip", PStr "1.2.3.4"); ("latitude", PFloat 10.5);
            ("longitude", PFloat 20.5); ("city", PStr "Oslo"); ("region", PNone);
            ("country_name", PNone); ("org", PNone); ("postal", PNone);
            ("timezone", PNone) ].
Proof.
  destruct (geolocate_ip_fallback (fallback_net secondary_success) (PStr "1.2.3.4"))
    as [_ [Hfallback _]].
  destruct Hfallback as [_ [Hsuccess _]].
  - reflexivity.
  - reflexivity.
  - exact (Hsuccess [ ("status", PStr "success"); ("query", PStr "1.2.3.4");
                      ("lat", PFloat 10.5); ("lon", PFloat 20.5); ("city", PStr "Oslo") ]
                    eq_refl eq_refl).
Defined.

Example geolocate_ip_status_fail :
  geolocate_ip (fallback_net secondary_failure) (PStr "1.2.3.4")
  = (PDict [], [primary_url (PStr "1.2.3.4"); secondary_url (PStr "1.2.3.4")]).
Proof. reflexivity. Qed.

Example geolocate_ip_secondary_not_a_mapping :
  fst (geolocate_ip (fallback_net (PList [PStr "success"])) (PStr "1.2.3.4")) = PDict [].
Proof. reflexivity. Qed.

Example geolocate_ip_no_ip :
  geolocate_ip (fallback_net secondary_success) PNone = (PDict [], [])
  /\ geolocate_ip (fallback_net secondary_success) (PStr "") = (PDict [], []).
Proof. split; reflexivity. Qed.

(* ===================================================================== *)
(** * The queue and its task count: proofs *)
(* ===================================================================== *)

Lemma count_if_all {A : Type} (l : list A) :
  count_if (fun _ : A => true) l = List.length l.
Proof. induction l as [|x l IH]; [reflexivity|]. rewrite count_if_cons, IH. reflexivity. Qed.

Lemma sending_length_set_nth (ws : list worker) (i : nat) (w0 w : worker) :
  nth_error ws i = Some w0 ->
  (List.length (sending_of (set_nth i w ws)) + List.length (sending_of [w0])
   = List.length (sending_of ws) + List.length (sending_of [w]))%nat.
Proof.
  intros Hnth.
  pose proof (sending_set_nth (fun _ : string => true) ws i w0 w Hnth) as H.
  now rewrite !count_if_all in H.
Qed.

(** One action keeps the queue within its capacity and keeps the number of
    unfinished tasks equal to the items in the queue plus the files that
    workers hold. *)
Lemma exec_keeps_queue_invariants (u : uploads) (a : action) (s s' : pool) :
  exec u a s = Some s' ->
  (List.length (queue s) <= QUEUE_MAX)%nat ->
  unfinished s = (List.length (queue s) + List.length (sending_of (workers s)))%nat ->
  (List.length (queue s') <= QUEUE_MAX)%nat
  /\ unfinished s' = (List.length (queue s') + List.length (sending_of (workers s')))%nat.
Proof.
  destruct a as [| | |i|i|i]; cbn [exec].
  - destruct (incoming s) as [|x rest]; [discriminate|].
    destruct (Nat.ltb_spec (List.length (queue s)) QUEUE_MAX) as [Hlt|]; [|discriminate].
    intros H Hcap Hun. injection H as <-. pool_fields.
    rewrite length_app. simpl List.length. split; lia.
  - destruct (incoming s) as [|[p|] rest]; try discriminate.
    destruct (List.length (queue s) <? QUEUE_MAX)%nat; [discriminate|].
    intros H Hcap Hun. injection H as <-. pool_fields. split; assumption.
  - intros H Hcap Hun. injection H as <-. pool_fields. split; assumption.
  - destruct (nth_error (workers s) i) as [[| | |]|] eqn:Hnth; try discriminate.
    intros H Hcap Hun. injection H as <-. pool_fields.
    pose proof (sending_length_set_nth (workers s) i AtLoopHead
                  (if stop_flag s then Exited else InGet) Hnth) as Hlen.
    destruct (stop_flag s); simpl in Hlen; split; lia.
  - destruct (nth_error (workers s) i) as [[| | |]|] eqn:Hnth; try discriminate.
    destruct (queue s) as [|[p|] rest] eqn:Hq.
    + intros H Hcap Hun. injection H as <-. pool_fields. rewrite Hq.
      pose proof (sending_length_set_nth (workers s) i InGet AtLoopHead Hnth) as Hlen.
      simpl in *. split; lia.
    + intros H Hcap Hun. injection H as <-. pool_fields.
      pose proof (sending_length_set_nth (workers s) i InGet (Sending p) Hnth) as Hlen.
      simpl in *. split; lia.
    + intros H Hcap Hun. injection H as <-. pool_fields.
      pose proof (sending_length_set_nth (workers s) i InGet Exited Hnth) as Hlen.
      simpl in *. split; lia.
  - destruct (nth_error (workers s) i) as [[| |p|]|] eqn:Hnth; try discriminate.
    destruct (send_document_once u p) as [success err].
    intros H Hcap Hun. injection H as <-. pool_fields.
    pose proof (sending_length_set_nth (workers s) i (Sending p) AtLoopHead Hnth) as Hlen.
    simpl in *. split; lia.
Qed.

Lemma run_schedule_keeps_queue_invariants (u : uploads) (acts : list action) :
  forall s s',
    run_schedule u acts s = Some s' ->
    (List.length (queue s) <= QUEUE_MAX)%nat ->
    unfinished s = (List.length (queue s) + List.length (sending_of (workers s)))%nat ->
    (List.length (queue s') <= QUEUE_MAX)%nat
    /\ unfinished s' = (List.length (queue s') + List.length (sending_of (workers s')))%nat.
Proof.
  induction acts as [|a acts IH]; simpl; intros s s' H Hcap Hun.
  - injection H as <-. split; assumption.
  - destruct (exec u a s) as [s1|] eqn:H1; [|discriminate].
    destruct (exec_keeps_queue_invariants u a s s1 H1 Hcap Hun) as [Hcap1 Hun1].
    exact (IH s1 s' H Hcap1 Hun1).
Qed.

(** Every item in the queue and every file in a worker's hands is an
    unfinished task for [file_queue.join()]: when the count of unfinished
    tasks is zero the queue is empty and no upload is under way. *)
Theorem no_unfinished_task_means_idle (u : uploads) (acts : list action)
    (items : list (option string)) (n : nat) (c : counters) (s : pool) :
  run_schedule u acts (start items n c) = Some s ->
  (List.length (queue s) + List.length (sending_of (workers s)) <= unfinished s)%nat
  /\ (unfinished s = 0%nat -> queue s = [] /\ sending_of (workers s) = []).
Proof.
  intros Hrun.
  assert (Hun : unfinished s
                = (List.length (queue s) + List.length (sending_of (workers s)))%nat).
  { apply (run_schedule_keeps_queue_invariants u acts (start items n c) s Hrun).
    - simpl. lia.
    - simpl. now rewrite sending_of_idle. }
  split; [lia|].
  intros Hzero. rewrite Hzero in Hun.
  split; apply length_zero_iff_nil; lia.
Qed.

Lemma no_unfinished_task_means_idle_witness :
  match run_schedule fixture_uploads fixture_schedule (start fixture_items 2 counters0) with
  | Some s => unfinished s = 0%nat /\ queue s = [] /\ sending_of (workers s) = []
  | None => False
  end.
Proof.
  destruct (run_schedule fixture_uploads fixture_schedule (start fixture_items 2 counters0))
    as [s|] eqn:Hrun.
  - assert (Hzero : unfinished s = 0%nat).
    { vm_compute in Hrun. injection Hrun as <-. reflexivity. }
    split; [exact Hzero|].
    exact (proj2 (no_unfinished_task_means_idle _ _ _ _ _ _ Hrun) Hzero).
  - vm_compute in Hrun. discriminate Hrun.
Defined.

(** The workers never touch [found], [queued] or [skipped], and they never
    lower [sent] or [errors]. *)
Theorem workers_leave_scan_counters (u : uploads) (acts : list action) (s s' : pool) :
  run_schedule u acts s = Some s' ->
  found (shared s') = found (shared s)
  /\ queued (shared s') = queued (shared s)
  /\ skipped (shared s') = skipped (shared s)
  /\ (sent (shared s) <= sent (shared s'))%nat
  /\ (errors (shared s) <= errors (shared s'))%nat.
Proof.
  revert s s'. induction acts as [|a acts IH]; simpl; intros s s' H.
  - injection H as <-. repeat split; lia.
  - destruct (exec u a s) as [s1|] eqn:H1; [|discriminate].
    specialize (IH s1 s' H). destruct IH as (F & Q & K & S & E).
    assert (Hstep : found (shared s1) = found (shared s)
                    /\ queued (shared s1) = queued (shared s)
                    /\ skipped (shared s1) = skipped (shared s)
                    /\ (sent (shared s) <= sent (shared s1))%nat
                    /\ (errors (shared s) <= errors (shared s1))%nat).
    { destruct a as [| | |i|i|i]; cbn [exec] in H1.
      - destruct (incoming s) as [|x rest]; [discriminate|].
        destruct (List.length (queue s) <? QUEUE_MAX)%nat; [|discriminate].
        injection H1 as <-. pool_fields. repeat split; lia.
      - destruct (incoming s) as [|[p|] rest]; try discriminate.
        destruct (List.length (queue s) <? QUEUE_MAX)%nat; [discriminate|].
        injection H1 as <-. pool_fields. repeat split; lia.
      - injection H1 as <-. pool_fields. repeat split; lia.
      - destruct (nth_error (workers s) i) as [[| | |]|]; try discriminate.
        injection H1 as <-. pool_fields. repeat split; lia.
      - destruct (nth_error (workers s) i) as [[| | |]|]; try discriminate.
        destruct (queue s) as [|[p|] rest]; injection H1 as <-; pool_fields;
          repeat split; lia.
      - destruct (nth_error (workers s) i) as [[| |p|]|]; try discriminate.
        destruct (send_document_once u p) as [[|] err]; injection H1 as <-;
          pool_fields; repeat split; lia. }
    destruct Hstep as (F1 & Q1 & K1 & S1 & E1).
    repeat split; lia.
Qed.

Lemma workers_leave_scan_counters_witness :
  match run_schedule fixture_uploads fixture_schedule (start fixture_items 2 counters0) with
  | Some s => found (shared s) = 0%nat /\ queued (shared s) = 0%nat /\ skipped (shared s) = 0%nat
  | None => False
  end.
Proof.
  destruct (run_schedule fixture_uploads fixture_schedule (start fixture_items 2 counters0))
    as [s|] eqn:Hrun.
  - destruct (workers_leave_scan_counters _ _ _ _ Hrun) as (F & Q & K & _).
    repeat split; assumption.
  - vm_compute in Hrun. discriminate Hrun.
Defined.

(* ===================================================================== *)
(** * The producer: what reaches the queue *)
(* ===================================================================== *)

Lemma put_sentinels_all_true_pushed (n : nat) :
  forall (m : nat) (c : counters) (q : list (option string)),
    (n <= m)%nat ->
    exists st',
      put_sentinels n {| cnt := c; pushed := q; outcomes := repeat true m |} = Some st'
      /\ cnt st' = c
      /\ pushed st' = (q ++ repeat None n)%list.
Proof.
  induction n as [|n IH]; intros m c q Hle; simpl.
  - eexists. split; [reflexivity|]. simpl. now rewrite app_nil_r.
  - destruct m as [|m]; [lia|]. simpl.
    destruct (IH m c (q ++ [None])%list) as [st' (H1 & H2 & H3)]; [lia|].
    exists st'. split; [exact H1|]. split; [exact H2|].
    rewrite H3, <- app_assoc. reflexivity.
Qed.

(** The queue receives the paths that pass the filter, each once and in
    the order of the walk, followed by at most one sentinel per worker;
    when no [put] times out it receives exactly [WORKERS] sentinels. *)
Theorem producer_scan_queue_contents (o : os) :
  (forall (outs : list bool) (c : counters) (st : scan_state),
      producer_scan o false outs c = Some st ->
      exists k, (k <= WORKERS)%nat
                /\ pushed st = (map Some (filter (passes_filter o) (scanned_files o))
                                ++ repeat None k)%list)
  /\ (forall (m : nat) (c : counters),
      (count_if (passes_filter o) (scanned_files o) + WORKERS <= m)%nat ->
      exists st,
        producer_scan o false (repeat true m) c = Some st
        /\ pushed st = (map Some (filter (passes_filter o) (scanned_files o))
                        ++ repeat None WORKERS)%list).
Proof.
  split.
  - intros outs c st Hrun.
    apply producer_scan_scanned in Hrun.
    destruct Hrun as (_ & _ & _ & _ & _ & Hq). exact Hq.
  - intros m c Hle. unfold producer_scan.
    destruct (scan_bases_all_true o FOLDERS_TO_SCAN m c []) as [c1 [q1 H1]].
    { rewrite <- scanned_files_under. lia. }
    rewrite H1.
    pose proof (scan_bases_scanned o FOLDERS_TO_SCAN _ _ H1) as (_ & _ & _ & _ & _ & Hq).
    simpl in Hq.
    destruct (put_sentinels_all_true_pushed WORKERS
                (m - count_if (passes_filter o) (files_under o FOLDERS_TO_SCAN)) c1 q1)
      as [st (Hs & _ & Hp)].
    { rewrite <- scanned_files_under. lia. }
    exists st. split; [exact Hs|]. rewrite Hp, Hq. reflexivity.
Qed.

Lemma producer_scan_queue_contents_witness :
  exists st,
    producer_scan fixture_os false (repeat true 15) counters0 = Some st
    /\ pushed st
       = ([ Some "/sdcard/DCIM/Camera/a.JPG"; Some "/sdcard/Movies/limit.mkv";
            Some "/sdcard/Movies/clip.Mp4" ] ++ repeat None 12)%list.
Proof.
  destruct (proj2 (producer_scan_queue_contents fixture_os) 15%nat counters0)
    as [st [Hrun Hq]].
  - vm_compute. repeat constructor.
  - exists st. split; [exact Hrun|]. rewrite Hq. vm_compute. reflexivity.
Defined.

(** A full queue delays the scan but loses and repeats nothing: two runs
    that both return, under any two schedules of [put] outcomes, leave the
    scanner's own counters [found], [queued] and [skipped] at the same
    values and have queued the same paths in the same order. *)
Theorem producer_scan_retries_are_harmless (o : os) (outs1 outs2 : list bool)
    (c : counters) (st1 st2 : scan_state) :
  producer_scan o false outs1 c = Some st1 ->
  producer_scan o false outs2 c = Some st2 ->
  found (cnt st1) = found (cnt st2)
  /\ queued (cnt st1) = queued (cnt st2)
  /\ skipped (cnt st1) = skipped (cnt st2)
  /\ paths_of (pushed st1) = paths_of (pushed st2).
Proof.
  intros H1 H2.
  apply producer_scan_scanned in H1. apply producer_scan_scanned in H2.
  destruct H1 as (F1 & Q1 & K1 & E1 & S1 & k1 & _ & P1).
  destruct H2 as (F2 & Q2 & K2 & E2 & S2 & k2 & _ & P2).
  split; [congruence|]. split; [congruence|]. split; [congruence|].
  assert (Hpaths : forall (l : list string) (k : nat),
             paths_of (map Some l ++ repeat None k)%list = l).
  { intros l k. rewrite paths_of_app, paths_of_sentinels, app_nil_r.
    induction l as [|x l IH]; [reflexivity|].
    simpl map. rewrite paths_of_cons, IH. reflexivity. }
  now rewrite P1, P2, !Hpaths.
Qed.

Lemma producer_scan_retries_are_harmless_witness :
  match producer_scan fixture_os false (repeat true 15) counters0,
        producer_scan fixture_os false
          (false :: true :: false :: false :: repeat true 14) counters0 with
  | Some st1, Some st2 => paths_of (pushed st1) = paths_of (pushed st2)
  | _, _ => False
  end.
Proof.
  destruct (producer_scan fixture_os false (repeat true 15) counters0) as [st1|] eqn:H1;
    [|vm_compute in H1; discriminate H1].
  destruct (producer_scan fixture_os false
              (false :: true :: false :: false :: repeat true 14) counters0)
    as [st2|] eqn:H2; [|vm_compute in H2; discriminate H2].
  exact (proj2 (proj2 (proj2 (producer_scan_retries_are_harmless _ _ _ _ _ _ H1 H2)))).
Defined.

(** With the stop flag already set the scan looks at no file: the counters
    stay as they are and only sentinels are put. *)
Theorem producer_scan_when_stopped (o : os) (outs : list bool) (c : counters)
    (st : scan_state) :
  producer_scan o true outs c = Some st ->
  cnt st = c /\ paths_of (pushed st) = [].
Proof.
  unfold producer_scan, FOLDERS_TO_SCAN. cbn [scan_bases]. intros Hrun.
  apply put_sentinels_counters in Hrun. cbn [cnt pushed] in Hrun.
  destruct Hrun as [Hc [k [_ Hp]]].
  split; [exact Hc|]. rewrite Hp. apply paths_of_sentinels.
Qed.

Lemma producer_scan_when_stopped_witness :
  match producer_scan fixture_os true (repeat true 15) counters0 with
  | Some st => cnt st = counters0
  | None => False
  end.
Proof.
  destruct (producer_scan fixture_os true (repeat true 15) counters0) as [st|] eqn:Hrun.
  - exact (proj1 (producer_scan_when_stopped _ _ _ _ Hrun)).
  - vm_compute in Hrun. discriminate Hrun.
Defined.

(* ===================================================================== *)
(** * The extension of a file name: proofs *)
(* ===================================================================== *)

Lemma strlen_app (a b : string) :
  String.length (a ++ b) = (String.length a + String.length b)%nat.
Proof. induction a as [|c a IH]; simpl; [reflexivity|now rewrite IH]. Qed.

Lemma str_app_assoc (a b c : string) : (a ++ b) ++ c = a ++ (b ++ c).
Proof. induction a as [|x a IH]; simpl; [reflexivity|now rewrite IH]. Qed.

Lemma substring_skip (a b : string) (n : nat) :
  substring (String.length a) n (a ++ b) = substring 0 n b.
Proof. induction a as [|c a IH]; simpl; [reflexivity|exact IH]. Qed.

Lemma substring_whole (b : string) : substring 0 (String.length b) b = b.
Proof. induction b as [|c b IH]; simpl; [reflexivity|now rewrite IH]. Qed.

Lemma substring_prefix (a b : string) : substring 0 (String.length a) (a ++ b) = a.
Proof.
  induction a as [|c a IH]; simpl; [now destruct b|now rewrite IH].
Qed.

Lemma rfind_aux_app (c : ascii) (a b : string) :
  forall i acc,
    PyStr.rfind_aux c (a ++ b) i acc
    = PyStr.rfind_aux c b (i + Z.of_nat (String.length a)) (PyStr.rfind_aux c a i acc).
Proof.
  induction a as [|x a IH]; intros i acc; simpl PyStr.rfind_aux.
  - simpl. now rewrite Z.add_0_r.
  - cbn [append PyStr.rfind_aux]. rewrite IH. f_equal.
    cbn [String.length]. lia.
Qed.

Lemma rfind_aux_absent (c : ascii) (s : string) :
  PyStr.contains c s = false -> forall i acc, PyStr.rfind_aux c s i acc = acc.
Proof.
  induction s as [|x s IH]; simpl; intros Hc i acc; [reflexivity|].
  apply orb_false_iff in Hc. destruct Hc as [Hx Hs].
  rewrite Hx. now apply IH.
Qed.

(** The last occurrence of [c] in [a ++ c ++ b] when [b] is free of [c]. *)
Lemma rfind_last (c : ascii) (a b : string) :
  PyStr.contains c b = false ->
  PyStr.rfind c (a ++ String c b) = Z.of_nat (String.length a).
Proof.
  intros Hb. unfold PyStr.rfind. rewrite rfind_aux_app.
  cbn [PyStr.rfind_aux]. rewrite Ascii.eqb_refl.
  now rewrite (rfind_aux_absent c b Hb).
Qed.

Lemma contains_app (c : ascii) (a b : string) :
  PyStr.contains c (a ++ b) = PyStr.contains c a || PyStr.contains c b.
Proof.
  induction a as [|x a IH]; simpl; [reflexivity|].
  now rewrite IH, orb_assoc.
Qed.

Lemma slice_one_after (a b : string) (x : ascii) (k : nat) :
  PyStr.slice (Z.of_nat (String.length a + k)) (Z.of_nat (String.length a + k) + 1)
              (a ++ b)
  = substring k 1 b.
Proof.
  unfold PyStr.slice.
  replace (Z.to_nat (Z.of_nat (String.length a + k) + 1 - Z.of_nat (String.length a + k)))
    with 1%nat by lia.
  rewrite Nat2Z.id.
  induction a as [|y a IH]; simpl; [reflexivity|exact IH].
Qed.

Lemma substring_dot (d rest : string) (k : nat) :
  only_dots d = true -> (k < String.length d)%nat ->
  substring k 1 (d ++ rest) = ".".
Proof.
  revert k. induction d as [|y d IH]; intros k Hd Hk; simpl in Hk; [lia|].
  simpl in Hd. apply andb_prop in Hd. destruct Hd as [Hy Hd].
  apply Ascii.eqb_eq in Hy. subst y.
  destruct k as [|k].
  - simpl. now destruct (d ++ rest).
  - simpl. apply IH; [exact Hd|lia].
Qed.

(** The loop that skips leading dots finds nothing when only dots stand
    between the separator and the last dot. *)
Lemma name_before_dot_dots (a d rest : string) (fuel : nat) :
  only_dots d = true ->
  forall k, (k <= String.length d)%nat ->
    OsPath.name_before_dot fuel (a ++ d ++ rest)
      (Z.of_nat (String.length a + k)) (Z.of_nat (String.length a + String.length d))
    = false.
Proof.
  intros Hd. induction fuel as [|fuel IH]; intros k Hk; [reflexivity|].
  cbn [OsPath.name_before_dot].
  destruct (Z.ltb_spec (Z.of_nat (String.length a + k))
                       (Z.of_nat (String.length a + String.length d))) as [Hlt|]; [|reflexivity].
  rewrite (slice_one_after a (d ++ rest) "."%char k).
  rewrite (substring_dot d rest k Hd) by lia.
  simpl negb. cbv iota.
  replace (Z.of_nat (String.length a + k) + 1) with (Z.of_nat (String.length a + S k)) by lia.
  apply IH. lia.
Qed.

(** A name that starts with another character than the dot: the loop stops
    at once. *)
Lemma name_before_dot_found (a : string) (x : ascii) (rest : string) (fuel : nat)
    (dotIndex : Z) :
  x <> "."%char ->
  Z.of_nat (String.length a) < dotIndex ->
  OsPath.name_before_dot (S fuel) (a ++ String x rest)
    (Z.of_nat (String.length a)) dotIndex = true.
Proof.
  intros Hx Hlt. cbn [OsPath.name_before_dot].
  apply Z.ltb_lt in Hlt. rewrite Hlt.
  replace (Z.of_nat (String.length a)) with (Z.of_nat (String.length a + 0)) by (f_equal; lia).
  rewrite (slice_one_after a (String x rest) x 0).
  simpl substring.
  assert (Hne : (String x (match rest with "" => "" | String _ _ => "" end) =? ".")%string = false).
  { apply String.eqb_neq. intros H. injection H as H _. contradiction. }
  destruct rest; simpl in *; rewrite Hne; reflexivity.
Qed.

(** The extension of [dir/stem.e] is [.e] when the name [stem] begins with
    a character other than the dot and [e] holds neither a dot nor a
    slash: everything up to the last dot is the root, also for names such
    as [a.tar.gz]. *)
Lemma splitext_of_name (dir stem e : string) (x : ascii) :
  x <> "."%char ->
  PyStr.contains "/" (String x stem) = false ->
  PyStr.contains "/" e = false ->
  PyStr.contains "." e = false ->
  OsPath.splitext (dir ++ "/" ++ String x stem ++ "." ++ e)
  = (dir ++ "/" ++ String x stem, "." ++ e).
Proof.
  intros Hx Hstem He Hdot.
  set (p := dir ++ "/" ++ String x stem ++ "." ++ e).
  assert (Hsep : PyStr.rfind "/" p = Z.of_nat (String.length dir)).
  { unfold p. apply rfind_last.
    rewrite contains_app, Hstem. simpl. exact He. }
  assert (Hp : p = (dir ++ "/" ++ String x stem) ++ String "." e).
  { unfold p. rewrite !str_app_assoc. reflexivity. }
  assert (Hdoti : PyStr.rfind "." p
                  = Z.of_nat (String.length (dir ++ "/" ++ String x stem))).
  { rewrite Hp. now apply rfind_last. }
  set (A := dir ++ "/" ++ String x stem) in *.
  assert (HlenA : String.length A = (String.length dir + S (S (String.length stem)))%nat).
  { unfold A. rewrite !strlen_app. simpl. lia. }
  unfold OsPath.splitext. fold p. rewrite Hsep, Hdoti.
  assert (Hlt : (Z.of_nat (String.length dir) <? Z.of_nat (String.length A)) = true)
    by (apply Z.ltb_lt; lia).
  rewrite Hlt. cbn [andb].
  assert (Hfound : OsPath.name_before_dot (String.length p) p
                     (Z.of_nat (String.length dir) + 1)
                     (Z.of_nat (String.length A)) = true).
  { assert (Hq : p = (dir ++ "/") ++ String x (stem ++ "." ++ e)).
    { unfold p. rewrite !str_app_assoc. reflexivity. }
    assert (Hlen : exists f, String.length p = S f).
    { rewrite Hq, strlen_app. cbn [String.length].
      eexists. rewrite Nat.add_succ_r. reflexivity. }
    destruct Hlen as [f Hf]. rewrite Hf, Hq.
    replace (Z.of_nat (String.length dir) + 1)
      with (Z.of_nat (String.length (dir ++ "/")))
      by (rewrite strlen_app; simpl; lia).
    apply name_before_dot_found; [exact Hx|].
    rewrite strlen_app. simpl. lia. }
  rewrite Hfound.
  unfold PyStr.take, PyStr.drop. rewrite Nat2Z.id.
  f_equal.
  - rewrite Hp. apply substring_prefix.
  - rewrite Hp at 2. rewrite substring_skip.
    rewrite Hp, strlen_app.
    replace (String.length A + String.length (String "." e) - String.length A)%nat
      with (String.length (String "." e)) by lia.
    apply substring_whole.
Qed.

Lemma lower_dot_ext (e : string) : PyStr.lower ("." ++ e) = "." ++ PyStr.lower e.
Proof. reflexivity. Qed.

(** The filter looks at the text after the last dot of the file name and
    ignores its case: for a name [stem.e] that does not begin with a dot
    and has an ASCII extension, the extension is allowed exactly when [.]
    followed by the lowercased [e] is in the list, so two files that
    differ in the case of the extension only, and have the same size, get
    the same answer. *)
Theorem filter_ignores_case_of_extension (o : os) (dir stem e1 e2 : string) (x : ascii)
    (c : counters) :
  PyText.is_ascii e1 = true -> PyText.is_ascii e2 = true ->
  x <> "."%char ->
  PyStr.contains "/" (String x stem) = false ->
  PyStr.contains "/" e1 = false -> PyStr.contains "." e1 = false ->
  PyStr.contains "/" e2 = false -> PyStr.contains "." e2 = false ->
  PyStr.lower e1 = PyStr.lower e2 ->
  let p1 := dir ++ "/" ++ String x stem ++ "." ++ e1 in
  let p2 := dir ++ "/" ++ String x stem ++ "." ++ e2 in
  ext_allowed p1 = existsb (String.eqb ("." ++ PyStr.lower e1)) ALLOWED_EXTS
  /\ ext_allowed p1 = ext_allowed p2
  /\ (getsize o p1 = getsize o p2 ->
      fst (is_allowed_file o p1 c) = fst (is_allowed_file o p2 c)).
Proof.
  intros _ _ Hx Hstem Hs1 Hd1 Hs2 Hd2 Hlow p1 p2.
  assert (H1 : lowered_ext p1 = "." ++ PyStr.lower e1).
  { unfold lowered_ext, p1. rewrite (splitext_of_name dir stem e1 x Hx Hstem Hs1 Hd1).
    apply lower_dot_ext. }
  assert (H2 : lowered_ext p2 = "." ++ PyStr.lower e2).
  { unfold lowered_ext, p2. rewrite (splitext_of_name dir stem e2 x Hx Hstem Hs2 Hd2).
    apply lower_dot_ext. }
  assert (Hsame : ext_allowed p1 = ext_allowed p2).
  { unfold ext_allowed. now rewrite H1, H2, Hlow. }
  split; [unfold ext_allowed; now rewrite H1|].
  split; [exact Hsame|].
  intros Hsize. rewrite !is_allowed_file_cases, Hsame, Hsize.
  destruct (ext_allowed p2); simpl; [|reflexivity].
  destruct (getsize o p2) as [size|]; [|reflexivity].
  destruct (size =? 0)%N; [reflexivity|].
  now destruct (MAX_FILE_SIZE <? size)%N.
Qed.

Lemma filter_ignores_case_of_extension_witness :
  ext_allowed "/sdcard/DCIM/Camera/holiday.2024.JpG"
  = ext_allowed "/sdcard/DCIM/Camera/holiday.2024.jpg".
Proof.
  apply (filter_ignores_case_of_extension fixture_os "/sdcard/DCIM/Camera"
           "oliday.2024" "JpG" "jpg" "h"%char counters0);
    try reflexivity.
  discriminate.
Defined.

Lemma only_dots_no_slash (d : string) : only_dots d = true -> PyStr.contains "/" d = false.
Proof.
  induction d as [|y d IH]; simpl; [reflexivity|].
  intros H. apply andb_prop in H. destruct H as [Hy Hd].
  apply Ascii.eqb_eq in Hy. subst y. simpl. now apply IH.
Qed.

(** A file whose name is dots followed by text without a further dot, such
    as [.jpg] or [..mp4], has no extension for the filter and is rejected
    whatever its size, with the counters unchanged. *)
Theorem dot_file_is_rejected (o : os) (dir d e : string) (c : counters) :
  only_dots d = true ->
  PyStr.contains "/" e = false ->
  PyStr.contains "." e = false ->
  is_allowed_file o (dir ++ "/" ++ d ++ "." ++ e) c = (false, c).
Proof.
  intros Hd Hs He.
  set (p := dir ++ "/" ++ d ++ "." ++ e).
  assert (Hsep : PyStr.rfind "/" p = Z.of_nat (String.length dir)).
  { unfold p. apply rfind_last.
    rewrite contains_app, (only_dots_no_slash d Hd). simpl. exact Hs. }
  assert (Hp : p = (dir ++ "/" ++ d) ++ String "." e).
  { unfold p. rewrite !str_app_assoc. reflexivity. }
  assert (Hdoti : PyStr.rfind "." p = Z.of_nat (String.length (dir ++ "/" ++ d))).
  { rewrite Hp. now apply rfind_last. }
  assert (Hext : OsPath.splitext p = (p, "")).
  { unfold OsPath.splitext. rewrite Hsep, Hdoti.
    assert (Hq : p = (dir ++ "/") ++ d ++ String "." e).
    { unfold p. rewrite !str_app_assoc. reflexivity. }
    assert (Hloop : OsPath.name_before_dot (String.length p) p
                      (Z.of_nat (String.length dir) + 1)
                      (Z.of_nat (String.length (dir ++ "/" ++ d))) = false).
    { rewrite Hq at 2.
      replace (Z.of_nat (String.length dir) + 1)
        with (Z.of_nat (String.length (dir ++ "/") + 0))
        by (rewrite strlen_app; simpl; lia).
      replace (String.length (dir ++ "/" ++ d))
        with (String.length (dir ++ "/") + String.length d)%nat
        by (rewrite !strlen_app; simpl; lia).
      apply name_before_dot_dots; [exact Hd|lia]. }
    rewrite Hloop, andb_false_r. reflexivity. }
  rewrite is_allowed_file_cases. unfold ext_allowed, lowered_ext.
  rewrite Hext. reflexivity.
Qed.

Lemma dot_file_is_rejected_witness :
  is_allowed_file fixture_os "/sdcard/DCIM/..jpg" counters0 = (false, counters0).
Proof.
  apply (dot_file_is_rejected fixture_os "/sdcard/DCIM" "." "jpg" counters0);
    reflexivity.
Defined.

(* ===================================================================== *)
(** * The report: proofs *)
(* ===================================================================== *)

Lemma get_default_stored (snap : dict) (k : string) (d : dict) :
  Py.get_default snap k (PDict []) = PDict d <-> stored_mapping snap k d.
Proof.
  unfold Py.get_default, stored_mapping.
  destruct (Py.lookup snap k) as [v|].
  - split.
    + intros ->. now left.
    + intros [[= ->]|[H _]]; [reflexivity|discriminate H].
  - split.
    + intros [= <-]. right. split; reflexivity.
    + intros [H|[_ ->]]; [discriminate H|reflexivity].
Qed.

Lemma or_stored (snap : dict) (k : string) (d : dict) :
  Py.or (Py.get snap k) (PDict []) = PDict d <-> stored_mapping_or_false snap k d.
Proof.
  unfold Py.or, Py.get, Py.get_default, stored_mapping_or_false, stored_mapping.
  destruct (Py.lookup snap k) as [v|].
  - destruct (Py.truthy v) eqn:Hv.
    + split.
      * intros ->. left. now left.
      * intros [[[= ->]|[H _]]|[-> [w [[= <-] Hw]]]];
          [reflexivity|discriminate H|congruence].
    + split.
      * intros [= <-]. right. split; [reflexivity|]. exists v. split; [reflexivity|exact Hv].
      * intros [[[= ->]|[H _]]|[-> _]]; [|discriminate H|reflexivity].
        destruct d; [reflexivity|discriminate Hv].
  - split.
    + intros [= <-]. left. right. split; reflexivity.
    + intros [[H|[_ ->]]|[-> _]]; [discriminate H|reflexivity|reflexivity].
Qed.

Lemma mixed_read (d1 d2 : dict) (k1 k2 : string) :
  (a <- Py.attr_get (PDict d1) k1 ;;
   if Py.truthy a then Ok a else Py.attr_get (PDict d2) k2)
  = Ok (Py.or (Py.get d1 k1) (Py.get d2 k2)).
Proof. simpl. unfold Py.or. now destruct (Py.truthy (Py.get d1 k1)). Qed.

Lemma or_read_reduced (d1 d2 : dict) (k1 k2 : string) :
  (if Py.truthy (Py.get d1 k1) then Ok (Py.get d1 k1) else Ok (Py.get d2 k2))
  = Ok (Py.or (Py.get d1 k1) (Py.get d2 k2)).
Proof. unfold Py.or. now destruct (Py.truthy (Py.get d1 k1)). Qed.

Lemma device_reads (snap : dict) (di : dict) :
  stored_mapping snap "device_info" di ->
  Py.or (Py.get snap "device_info") (PDict []) = PDict di
  /\ Py.get_default snap "device_info" (PDict []) = PDict di.
Proof.
  intros H. split.
  - apply or_stored. now left.
  - now apply get_default_stored.
Qed.

(** What the formatter returns, and when: the lines of [report_of] for the
    mappings stored in the snapshot. *)
Lemma build_message_lines_spec (snap : dict) (lines : list string) :
  build_message_lines snap = Ok lines
  <-> exists g rd ii di bt cp,
        stored_mapping snap "geo" g
        /\ stored_mapping_or_false snap "reverse_geocode" rd
        /\ stored_mapping snap "ipinfo" ii
        /\ stored_mapping snap "device_info" di
        /\ stored_mapping snap "battery" bt
        /\ stored_mapping snap "cpu" cp
        /\ lines = report_of snap g rd ii di bt cp.
Proof.
  split.
  - unfold build_message_lines. cbv zeta. intros H.
    destruct (Py.get_default snap "geo" (PDict [])) as [| | | | | |g] eqn:Hg;
      try (cbn [bind Py.attr_get attr_items attr_get_default] in H; discriminate H).
    rewrite !(mixed_read g g) in H. cbn [bind Py.attr_get] in H.
    destruct (Py.or (Py.get snap "reverse_geocode") (PDict [])) as [| | | | | |rd] eqn:Hrd;
      try (cbn [bind Py.attr_get attr_items attr_get_default] in H; discriminate H).
    cbn [bind Py.attr_get] in H.
    destruct (Py.get_default snap "ipinfo" (PDict [])) as [| | | | | |ii] eqn:Hii;
      try (cbn [bind Py.attr_get attr_items attr_get_default] in H; discriminate H).
    cbn [bind Py.attr_get] in H.
    rewrite (or_read_reduced ii g "org" "org") in H. cbn [bind Py.attr_get] in H.
    destruct (Py.or (Py.get snap "device_info") (PDict [])) as [| | | | | |di] eqn:Hdi;
      try (cbn [bind Py.attr_get attr_items attr_get_default] in H; discriminate H).
    cbn [bind attr_items] in H.
    destruct (Py.get_default snap "battery" (PDict [])) as [| | | | | |bt] eqn:Hbt;
      try (cbn [bind Py.attr_get attr_items attr_get_default] in H; discriminate H).
    cbn [bind Py.attr_get] in H.
    destruct (Py.get_default snap "device_info" (PDict [])) as [| | | | | |di'] eqn:Hdi';
      try (cbn [bind Py.attr_get attr_items attr_get_default] in H; discriminate H).
    cbn [bind attr_get_default] in H.
    destruct (Py.get_default snap "cpu" (PDict [])) as [| | | | | |cp] eqn:Hcp;
      try (cbn [bind Py.attr_get attr_items attr_get_default] in H; discriminate H).
    cbn [bind Py.attr_get] in H.
    injection H as <-.
    apply get_default_stored in Hg, Hii, Hbt, Hdi', Hcp.
    apply or_stored in Hrd.
    assert (di = di').
    { destruct (device_reads snap di' Hdi') as [Hor _]. congruence. }
    subst di'.
    exists g, rd, ii, di, bt, cp. repeat split; assumption.
  - intros (g & rd & ii & di & bt & cp & Hg & Hrd & Hii & Hdi & Hbt & Hcp & ->).
    unfold build_message_lines. cbv zeta.
    destruct (device_reads snap di Hdi) as [Hor Hdef].
    apply get_default_stored in Hg, Hii, Hbt, Hcp. apply or_stored in Hrd.
    rewrite Hg, Hrd, Hii, Hor, Hdef, Hbt, Hcp.
    rewrite !(mixed_read g g). cbn [bind Py.attr_get].
    rewrite (or_read_reduced ii g "org" "org"). reflexivity.
Qed.

Lemma attr_get_raises (v : pyval) (k : string) (e : exn) :
  Py.attr_get v k = Raise e -> e = AttributeError.
Proof. destruct v; simpl; congruence. Qed.

(** The only exception the formatter raises is [AttributeError]. *)
Lemma build_message_lines_raises (snap : dict) (e : exn) :
  build_message_lines snap = Raise e -> e = AttributeError.
Proof.
  unfold build_message_lines. cbv zeta.
  destruct (Py.get_default snap "geo" (PDict [])) as [| | | | | |g];
    try (cbn [bind Py.attr_get attr_items attr_get_default]; congruence).
  rewrite !(mixed_read g g). cbn [bind Py.attr_get].
  destruct (Py.or (Py.get snap "reverse_geocode") (PDict [])) as [| | | | | |rd];
    try (cbn [bind Py.attr_get attr_items attr_get_default]; congruence).
  cbn [bind Py.attr_get].
  destruct (Py.get_default snap "ipinfo" (PDict [])) as [| | | | | |ii];
    try (cbn [bind Py.attr_get attr_items attr_get_default]; congruence).
  cbn [bind Py.attr_get].
  rewrite (or_read_reduced ii g "org" "org"). cbn [bind Py.attr_get].
  destruct (Py.or (Py.get snap "device_info") (PDict [])) as [| | | | | |di];
    try (cbn [bind Py.attr_get attr_items attr_get_default]; congruence).
  cbn [bind attr_items].
  destruct (Py.get_default snap "battery" (PDict [])) as [| | | | | |bt];
    try (cbn [bind Py.attr_get attr_items attr_get_default]; congruence).
  cbn [bind Py.attr_get].
  destruct (Py.get_default snap "device_info" (PDict [])) as [| | | | | |di'];
    try (cbn [bind Py.attr_get attr_items attr_get_default]; congruence).
  cbn [bind attr_get_default].
  destruct (Py.get_default snap "cpu" (PDict [])) as [| | | | | |cp];
    try (cbn [bind Py.attr_get attr_items attr_get_default]; congruence).
Qed.

(** The formatter returns a message exactly for the snapshots whose [geo],
    [ipinfo], [device_info], [battery] and [cpu] entries are mappings (or
    missing) and whose [reverse_geocode] entry is a mapping, false or
    missing; on every other snapshot it raises [AttributeError], also when
    [device_info] is stored as [None]. *)
Theorem build_message_returns_iff (snap : dict) :
  ((exists msg, build_message_from_snapshot snap = Ok msg)
   <-> exists g rd ii di bt cp,
         stored_mapping snap "geo" g
         /\ stored_mapping_or_false snap "reverse_geocode" rd
         /\ stored_mapping snap "ipinfo" ii
         /\ stored_mapping snap "device_info" di
         /\ stored_mapping snap "battery" bt
         /\ stored_mapping snap "cpu" cp)
  /\ ((forall msg, build_message_from_snapshot snap <> Ok msg) ->
      build_message_from_snapshot snap = Raise AttributeError)
  /\ (Py.lookup snap "device_info" = Some PNone ->
      build_message_from_snapshot snap = Raise AttributeError).
Proof.
  unfold build_message_from_snapshot.
  split; [|split].
  - split.
    + intros [msg H].
      destruct (build_message_lines snap) as [lines|e] eqn:Hl; [|discriminate H].
      apply build_message_lines_spec in Hl.
      destruct Hl as (g & rd & ii & di & bt & cp & H1 & H2 & H3 & H4 & H5 & H6 & _).
      exists g, rd, ii, di, bt, cp. repeat split; assumption.
    + intros (g & rd & ii & di & bt & cp & H1 & H2 & H3 & H4 & H5 & H6).
      assert (Hl : build_message_lines snap = Ok (report_of snap g rd ii di bt cp)).
      { apply build_message_lines_spec.
        exists g, rd, ii, di, bt, cp. repeat split; assumption. }
      rewrite Hl. eexists. reflexivity.
  - intros Hnone.
    destruct (build_message_lines snap) as [lines|e] eqn:Hl.
    + exfalso. exact (Hnone _ eq_refl).
    + apply build_message_lines_raises in Hl. now subst e.
  - intros Hdev.
    destruct (build_message_lines snap) as [lines|e] eqn:Hl.
    + exfalso. apply build_message_lines_spec in Hl.
      destruct Hl as (g & rd & ii & di & bt & cp & _ & _ & _ & [H4|[H4 _]] & _);
        congruence.
    + apply build_message_lines_raises in Hl. now subst e.
Qed.

Lemma build_message_returns_iff_witness :
  build_message_from_snapshot
    [ ("device_info", PNone); ("public_ipv4", PStr "1.2.3.4") ]
  = Raise AttributeError.
Proof.
  apply (proj2 (proj2 (build_message_returns_iff
                         [ ("device_info", PNone); ("public_ipv4", PStr "1.2.3.4") ]))).
  reflexivity.
Defined.

Lemma lookup_dict_set_same (d : dict) (k : string) (v : pyval) :
  Py.lookup (dict_set d k v) k = Some v.
Proof.
  induction d as [|[k' x] d IH]; simpl.
  - now rewrite String.eqb_refl.
  - destruct (String.eqb_spec k' k) as [->|Hne]; simpl.
    + now rewrite String.eqb_refl.
    + apply String.eqb_neq in Hne. now rewrite Hne.
Qed.

Lemma lookup_dict_set_other (d : dict) (k k' : string) (v : pyval) :
  k' <> k -> Py.lookup (dict_set d k v) k' = Py.lookup d k'.
Proof.
  intros Hne. induction d as [|[k0 x] d IH]; simpl.
  - destruct (String.eqb_spec k k'); [congruence|reflexivity].
  - destruct (String.eqb_spec k0 k) as [->|H0]; simpl.
    + destruct (String.eqb_spec k k'); [congruence|reflexivity].
    + destruct (String.eqb_spec k0 k'); [reflexivity|exact IH].
Qed.

Lemma get_dict_set_other (d : dict) (k k' : string) (v default : pyval) :
  k' <> k -> Py.get_default (dict_set d k v) k' default = Py.get_default d k' default.
Proof. intros Hne. unfold Py.get_default. now rewrite lookup_dict_set_other. Qed.

(** Storing the identifier changes no line of the report: the formatter
    reads other keys only. *)
Lemma report_of_attached (snap : dict) (v : pyval) (g rd ii di bt cp : dict) :
  report_of (dict_set snap "combined_id" v) g rd ii di bt cp
  = report_of snap g rd ii di bt cp.
Proof.
  unfold report_of, report_lines, Py.get.
  rewrite !get_dict_set_other by discriminate. reflexivity.
Qed.

Lemma stored_mapping_attached (snap : dict) (v : pyval) (k : string) (d : dict) :
  k <> "combined_id" ->
  (stored_mapping (dict_set snap "combined_id" v) k d <-> stored_mapping snap k d).
Proof.
  intros Hne. unfold stored_mapping. now rewrite lookup_dict_set_other.
Qed.

Lemma stored_mapping_or_false_attached (snap : dict) (v : pyval) (k : string) (d : dict) :
  k <> "combined_id" ->
  (stored_mapping_or_false (dict_set snap "combined_id" v) k d
   <-> stored_mapping_or_false snap k d).
Proof.
  intros Hne. unfold stored_mapping_or_false, stored_mapping.
  now rewrite lookup_dict_set_other.
Qed.

(** When [run] gets as far as a message, the snapshot it goes on with holds
    the derived identifier under [combined_id] and nothing else is
    changed; the message is the one the formatter gives for the snapshot
    as collected, and its Combined ID line shows that same identifier, or
    [N/A] for [None]. *)
Theorem report_shows_attached_identifier (snapshot snapshot' : dict) (msg : string) :
  run_report snapshot = Ok (snapshot', msg) ->
  exists cid lines,
    run_combined_id snapshot = Ok cid
    /\ Py.lookup snapshot' "combined_id" = Some cid
    /\ (forall k, k <> "combined_id" -> Py.lookup snapshot' k = Py.lookup snapshot k)
    /\ build_message_lines snapshot = Ok lines
    /\ msg = PyStr.join PyText.nl lines
    /\ nth_error lines 4 = Some ("➣Combined ID: " ++ Py.str (Py.or cid na)).
Proof.
  unfold run_report. intros H.
  destruct (run_combined_id snapshot) as [cid|] eqn:Hcid; [|discriminate H].
  cbn [bind] in H. unfold build_message_from_snapshot in H.
  destruct (build_message_lines (dict_set snapshot "combined_id" cid)) as [lines|] eqn:Hl;
    [|discriminate H].
  cbn [bind] in H. injection H as <- <-.
  apply build_message_lines_spec in Hl.
  destruct Hl as (g & rd & ii & di & bt & cp & H1 & H2 & H3 & H4 & H5 & H6 & ->).
  apply stored_mapping_attached in H1, H3, H4, H5, H6; try discriminate.
  apply stored_mapping_or_false_attached in H2; try discriminate.
  rewrite report_of_attached.
  exists cid, (report_of snapshot g rd ii di bt cp).
  split; [reflexivity|]. split; [apply lookup_dict_set_same|].
  split; [intros k Hk; now apply lookup_dict_set_other|].
  split.
  { apply build_message_lines_spec. exists g, rd, ii, di, bt, cp.
    repeat split; assumption. }
  split; [reflexivity|].
  assert (Hrun : run_combined_id snapshot
                 = Ok (identifier_of (Py.get snapshot "public_ipv4")
                         (latitude_of g) (longitude_of g))).
  { apply run_combined_id_on_mapping. exact H1. }
  rewrite Hcid in Hrun. injection Hrun as ->.
  reflexivity.
Qed.

Lemma report_shows_attached_identifier_witness :
  exists lines,
    build_message_lines fixture_snapshot = Ok lines
    /\ nth_error lines 4 = Some "➣Combined ID: 1.2.3.4|10.5,20.5".
Proof.
  destruct (run_report fixture_snapshot) as [[snapshot' msg]|] eqn:Hrun;
    [|vm_compute in Hrun; discriminate Hrun].
  destruct (report_shows_attached_identifier fixture_snapshot snapshot' msg Hrun)
    as (cid & lines & Hcid & _ & _ & Hlines & _ & Hline).
  exists lines. split; [exact Hlines|].
  rewrite Hline. vm_compute in Hcid. injection Hcid as <-. reflexivity.
Defined.

Lemma additional_field_read (snap : dict) (lines : list string) (k label : string) :
  build_message_lines snap = Ok lines ->
  In (k, label) additional_fields ->
  In (label ++ Py.str (Py.get_default snap k na)) lines.
Proof.
  intros Hl Hin.
  apply build_message_lines_spec in Hl.
  destruct Hl as (g & rd & ii & di & bt & cp & _ & _ & _ & _ & _ & _ & ->).
  unfold report_of, report_lines. cbv zeta.
  apply in_concat. eexists. split.
  - do 5 right. left. reflexivity.
  - unfold additional_fields in Hin. simpl in Hin.
    repeat (destruct Hin as [[= <- <-]|Hin]; [simpl; tauto|]).
    contradiction.
Qed.

Lemma additional_field_none (snap : dict) (lines : list string) (k label : string) :
  build_message_lines snap = Ok lines ->
  In (k, label) additional_fields ->
  Py.lookup snap k = Some PNone -> In (label ++ "None") lines.
Proof.
  intros Hl Hin Hk.
  pose proof (additional_field_read snap lines k label Hl Hin) as Hline.
  unfold Py.get_default in Hline. rewrite Hk in Hline. exact Hline.
Qed.

(** For each of the ten scalar fields of the last block the report has
    the line of its label followed by [str] of the stored value, whatever
    the value is: a field stored as [None] reads [None].  A key that is
    not stored reads [N/A]. *)
Theorem additional_field_lines (snap : dict) (lines : list string) (k label : string) :
  build_message_lines snap = Ok lines ->
  In (k, label) additional_fields ->
  (forall v, Py.lookup snap k = Some v -> In (label ++ Py.str v) lines)
  /\ (Py.lookup snap k = Some PNone -> In (label ++ "None") lines)
  /\ (Py.lookup snap k = None -> In (label ++ "N/A") lines).
Proof.
  intros Hl Hin.
  pose proof (additional_field_read snap lines k label Hl Hin) as Hline.
  split; [|split].
  - intros v Hk. unfold Py.get_default in Hline. rewrite Hk in Hline. exact Hline.
  - now apply additional_field_none.
  - intros Hk. unfold Py.get_default in Hline. rewrite Hk in Hline. exact Hline.
Qed.

Lemma additional_field_lines_witness :
  exists lines,
    build_message_lines fixture_snapshot = Ok lines
    /\ In "➣Kernel Version: None" lines.
Proof.
  destruct (build_message_lines fixture_snapshot) as [lines|] eqn:Hl;
    [|vm_compute in Hl; discriminate Hl].
  exists lines. split; [reflexivity|].
  apply (proj1 (proj2 (additional_field_lines fixture_snapshot lines
                         "kernel_version" "➣Kernel Version: " Hl
                         (or_introl eq_refl)))).
  reflexivity.
Defined.

(** When [uname -r] fails, [get_kernel_version] returns [None], and a
    snapshot that stores it gets the report line [Kernel Version: None];
    the same holds for the architecture. *)
Theorem failed_probe_prints_none (h : host) (snap : dict) (lines : list string) :
  build_message_lines snap = Ok lines ->
  (check_output h "uname -r" = None ->
   Py.lookup snap "kernel_version" = Some (get_kernel_version h) ->
   In "➣Kernel Version: None" lines)
  /\ (check_output h "uname -m" = None ->
      Py.lookup snap "architecture" = Some (get_architecture h) ->
      In "➣Architecture: None" lines).
Proof.
  intros Hl. split; intros Hfail Hstored.
  - unfold get_kernel_version, run_cmd in Hstored. rewrite Hfail in Hstored.
    apply (additional_field_none snap lines "kernel_version" "➣Kernel Version: " Hl
             (or_introl eq_refl)).
    exact Hstored.
  - unfold get_architecture, run_cmd in Hstored. rewrite Hfail in Hstored.
    apply (additional_field_none snap lines "architecture" "➣Architecture: " Hl
             (or_intror (or_introl eq_refl))).
    exact Hstored.
Qed.

Lemma failed_probe_prints_none_witness :
  exists lines,
    build_message_lines
      (dict_set fixture_snapshot "kernel_version" (get_kernel_version dumpsys_host))
    = Ok lines
    /\ In "➣Kernel Version: None" lines.
Proof.
  destruct (build_message_lines
              (dict_set fixture_snapshot "kernel_version"
                 (get_kernel_version dumpsys_host))) as [lines|] eqn:Hl;
    [|vm_compute in Hl; discriminate Hl].
  exists lines. split; [reflexivity|].
  apply (proj1 (failed_probe_prints_none dumpsys_host _ lines Hl));
    [reflexivity|apply lookup_dict_set_same].
Defined.

(** The battery line reads the charge from [percentage] only, while the
    bar stored beside it falls back on [level]: for a record with a level
    and no percentage the report shows [N/A%] next to the bar of the
    level. *)
Theorem battery_line_ignores_level (i : interpreter) (snap : dict)
    (lines : list string) (bt : dict) :
  build_message_lines snap = Ok lines ->
  Py.lookup snap "battery" = Some (PDict bt) ->
  Py.lookup snap "battery_bars" = Some (PStr (collect_battery_bars i (PDict bt))) ->
  Py.truthy (Py.get bt "percentage") = false ->
  Py.truthy (Py.get bt "level") = true ->
  In ("➣Battery: N/A%  " ++ battery_bars i (Py.get bt "level")) lines.
Proof.
  intros Hl Hbt Hbars Hperc Hlevel.
  apply build_message_lines_spec in Hl.
  destruct Hl as (g & rd & ii & di & bt' & cp & _ & _ & _ & _ & H5 & _ & ->).
  assert (bt' = bt) as ->.
  { destruct H5 as [H5|[H5 _]]; congruence. }
  unfold report_of, report_lines. cbv zeta.
  apply in_concat. eexists. split.
  - do 5 right. left. reflexivity.
  - left. unfold Py.get at 2. unfold Py.get_default at 1. rewrite Hbars.
    unfold Py.or. rewrite Hperc.
    unfold collect_battery_bars, collect_perc, Py.or. rewrite Hperc, Hlevel.
    reflexivity.
Qed.

Lemma battery_line_ignores_level_witness :
  exists lines,
    build_message_lines level_snapshot = Ok lines
    /\ In "➣Battery: N/A%  ▮▮▮▮▯▯▯▯▯▯" lines.
Proof.
  destruct (build_message_lines level_snapshot) as [lines|] eqn:Hl;
    [|vm_compute in Hl; discriminate Hl].
  exists lines. split; [reflexivity|].
  assert (Hbar : battery_bars fixture_interpreter (PInt 40) = "▮▮▮▮▯▯▯▯▯▯")
    by (vm_compute; reflexivity).
  rewrite <- Hbar.
  apply (battery_line_ignores_level fixture_interpreter level_snapshot lines
           [ ("level", PInt 40) ] Hl);
    reflexivity.
Defined.

(* ===================================================================== *)
(** * Shell commands and the probes: proofs *)
(* ===================================================================== *)







(* ===================================================================== *)
(** * Public address and the lookups that depend on it: proofs *)
(* ===================================================================== *)

Lemma public_ip_from_requests (n : net) (url : string) :
  snd (public_ip_from n url) = [url].
Proof.
  unfold public_ip_from.
  destruct (fetch_json n url) as [j|]; [|reflexivity].
  destruct (Py.attr_get j "ip"); reflexivity.
Qed.

(** The guards [if public_v4] of the assembler repeat the guards of the
    two lookups. *)
Lemma guarded_geolocate_ip (n : net) (ip : pyval) :
  (if Py.truthy ip then geolocate_ip n ip else (PDict [], [])) = geolocate_ip n ip.
Proof. unfold geolocate_ip. now destruct (Py.truthy ip). Qed.

Lemma guarded_ipinfo_lookup (n : net) (ip : pyval) :
  (if Py.truthy ip then ipinfo_lookup n ip else (PDict [], [])) = ipinfo_lookup n ip.
Proof. unfold ipinfo_lookup. now destruct (Py.truthy ip). Qed.

Lemma reverse_geocode_mapping (n : net) (lat lon : pyval) :
  exists rd, fst (reverse_geocode n lat lon) = PDict rd.
Proof.
  unfold reverse_geocode.
  destruct (is_none lat || is_none lon); [now exists []|].
  destruct (fetch_json n (reverse_url lat lon)) as [[| | | | | |j]|];
    eexists; reflexivity.
Qed.

Lemma truthy_not_none (v : pyval) : Py.truthy v = true -> is_none v = false.
Proof. now destruct v. Qed.

Lemma reverse_geocode_requests (n : net) (lat lon : pyval) :
  Py.truthy lat = true -> Py.truthy lon = true ->
  snd (reverse_geocode n lat lon) = [reverse_url lat lon].
Proof.
  intros Hlat Hlon. unfold reverse_geocode.
  rewrite (truthy_not_none lat Hlat), (truthy_not_none lon Hlon). cbn [orb].
  destruct (fetch_json n (reverse_url lat lon)) as [[| | | | | |j]|]; reflexivity.
Qed.

(** [collect_location] in one equation per shape of [geo]. *)
Lemma collect_location_unfold (n : net) :
  let v4 := fst (get_public_ip_v4 n) in
  let v6 := fst (get_public_ip_v6 n) in
  let geo := fst (geolocate_ip n v4) in
  let heads := ([ "https://api.ipify.org?format=json";
                  "https://api64.ipify.org?format=json" ]
                ++ snd (geolocate_ip n v4))%list in
  let answer rd urls :=
    Ok {| loc_public_v4 := v4; loc_public_v6 := v6; loc_geo := geo;
          loc_reverse := rd; loc_ipinfo := fst (ipinfo_lookup n v4);
          loc_requests := (heads ++ urls ++ snd (ipinfo_lookup n v4))%list |} in
  collect_location n
  = if Py.truthy geo then
      match geo with
      | PDict g =>
          if Py.truthy (latitude_of g) && Py.truthy (longitude_of g)
          then answer (fst (reverse_geocode n (latitude_of g) (longitude_of g)))
                      (snd (reverse_geocode n (latitude_of g) (longitude_of g)))
          else answer (PDict []) []
      | _ => Raise AttributeError
      end
    else answer (PDict []) [].
Proof.
  cbv zeta. unfold collect_location, get_public_ip_v4, get_public_ip_v6.
  pose proof (public_ip_from_requests n "https://api.ipify.org?format=json") as U1.
  pose proof (public_ip_from_requests n "https://api64.ipify.org?format=json") as U2.
  destruct (public_ip_from n "https://api.ipify.org?format=json") as [v4 u1].
  destruct (public_ip_from n "https://api64.ipify.org?format=json") as [v6 u2].
  cbn [fst snd] in *. subst u1 u2.
  rewrite guarded_geolocate_ip, guarded_ipinfo_lookup.
  destruct (geolocate_ip n v4) as [geo u3]. cbn [fst snd].
  destruct (ipinfo_lookup n v4) as [ipinfo u5]. cbn [fst snd].
  destruct (Py.truthy geo) eqn:Hgeo; [|cbn [bind fst snd]; reflexivity].
  destruct geo as [| | | | | |g]; try reflexivity.
  rewrite !(mixed_read g g). cbn [bind].
  fold (latitude_of g). fold (longitude_of g).
  destruct (Py.truthy (latitude_of g) && Py.truthy (longitude_of g));
    cbn [bind fst snd]; rewrite <- ?app_assoc; reflexivity.
Qed.

(** Without a public IPv4 address the assembler asks the two address
    services and nothing else: location, reverse geocoding and IP details
    are the empty mapping. *)
Theorem no_address_no_lookups (n : net) :
  Py.truthy (fst (get_public_ip_v4 n)) = false ->
  collect_location n
  = Ok {| loc_public_v4 := fst (get_public_ip_v4 n);
          loc_public_v6 := fst (get_public_ip_v6 n);
          loc_geo := PDict []; loc_reverse := PDict []; loc_ipinfo := PDict [];
          loc_requests := [ "https://api.ipify.org?format=json";
                            "https://api64.ipify.org?format=json" ] |}.
Proof.
  intros Hip. rewrite collect_location_unfold. cbv zeta.
  unfold geolocate_ip, ipinfo_lookup. rewrite Hip. reflexivity.
Qed.

Lemma no_address_no_lookups_witness :
  exists loc,
    collect_location null_net = Ok loc
    /\ loc_requests loc = [ "https://api.ipify.org?format=json";
                            "https://api64.ipify.org?format=json" ].
Proof.
  eexists. split; [apply (no_address_no_lookups null_net); reflexivity|reflexivity].
Defined.

(** The reverse geocoder is asked exactly when the location is a mapping
    whose two coordinates are both true, and then once, with those
    coordinates; a coordinate that is 0, empty or missing leaves the
    stored address empty and sends no request to it, and so does a
    location that is false.  What is stored as the address is a mapping in
    every case. *)
Theorem reverse_lookup_needs_coordinates (n : net) (loc : location) :
  collect_location n = Ok loc ->
  (exists rd, loc_reverse loc = PDict rd)
  /\ (forall g, loc_geo loc = PDict g ->
        Py.truthy (latitude_of g) && Py.truthy (longitude_of g) = false ->
        loc_reverse loc = PDict []
        /\ forall lat lon, ~ In (reverse_url lat lon) (loc_requests loc))
  /\ (forall g, loc_geo loc = PDict g ->
        Py.truthy (latitude_of g) && Py.truthy (longitude_of g) = true ->
        loc_reverse loc = fst (reverse_geocode n (latitude_of g) (longitude_of g))
        /\ count_occ string_dec (loc_requests loc)
             (reverse_url (latitude_of g) (longitude_of g)) = 1%nat)
  /\ (Py.truthy (loc_geo loc) = false ->
      loc_reverse loc = PDict []
      /\ forall lat lon, ~ In (reverse_url lat lon) (loc_requests loc)).
Proof.
  rewrite collect_location_unfold. cbv zeta. intros H.
  assert (Hother : forall lat lon,
             ~ In (reverse_url lat lon)
                 ([ "https://api.ipify.org?format=json";
                    "https://api64.ipify.org?format=json" ]
                  ++ snd (geolocate_ip n (fst (get_public_ip_v4 n))))%list
             /\ ~ In (reverse_url lat lon)
                     (snd (ipinfo_lookup n (fst (get_public_ip_v4 n))))).
  { intros lat lon. split.
    - intros Hin. apply in_app_or in Hin. destruct Hin as [Hin|Hin].
      + cbn [In] in Hin. unfold reverse_url in Hin.
        destruct Hin as [Hin|[Hin|[]]]; discriminate Hin.
      + unfold geolocate_ip in Hin.
        destruct (negb (Py.truthy (fst (get_public_ip_v4 n)))); [destruct Hin|].
        assert (Hurls : forall v : pyval,
                   ~ In (reverse_url lat lon)
                       (snd (v, [primary_url (fst (get_public_ip_v4 n));
                                 secondary_url (fst (get_public_ip_v4 n))]))).
        { intros v [E|[E|[]]]; unfold reverse_url, primary_url, secondary_url in E;
            discriminate E. }
        destruct (fetch_json n (primary_url (fst (get_public_ip_v4 n)))).
        * destruct Hin as [E|[]]. unfold reverse_url, primary_url in E. discriminate E.
        * destruct (fetch_json n (secondary_url (fst (get_public_ip_v4 n)))) as [j|];
            [|exact (Hurls _ Hin)].
          destruct (Py.attr_get j "status") as [st|]; [|exact (Hurls _ Hin)].
          destruct (Py.eq_str st "success"); [|exact (Hurls _ Hin)].
          destruct j; exact (Hurls _ Hin).
    - unfold ipinfo_lookup.
      destruct (negb (Py.truthy (fst (get_public_ip_v4 n)))); [intros []|].
      destruct (fetch_json n (ipinfo_url (fst (get_public_ip_v4 n))));
        intros [E|[]]; unfold reverse_url, ipinfo_url in E; discriminate E. }
  destruct (Py.truthy (fst (geolocate_ip n (fst (get_public_ip_v4 n))))) eqn:Hgeo.
  - destruct (fst (geolocate_ip n (fst (get_public_ip_v4 n)))) as [| | | | | |g];
      try discriminate H.
    destruct (Py.truthy (latitude_of g) && Py.truthy (longitude_of g)) eqn:Hboth;
      injection H as <-; cbn [loc_reverse loc_geo loc_requests].
    + split; [apply reverse_geocode_mapping|].
      split; [intros g' [= <-] Hb; congruence|].
      split; [|intros Hfalse; congruence].
      intros g' [= <-] Hb.
      split; [reflexivity|].
      apply andb_prop in Hboth. destruct Hboth as [Hlat Hlon].
      rewrite (reverse_geocode_requests n _ _ Hlat Hlon).
      destruct (Hother (latitude_of g) (longitude_of g)) as [Hheads Htail].
      set (heads := ([ "https://api.ipify.org?format=json";
                       "https://api64.ipify.org?format=json" ]
                     ++ snd (geolocate_ip n (fst (get_public_ip_v4 n))))%list) in *.
      set (tail := snd (ipinfo_lookup n (fst (get_public_ip_v4 n)))) in *.
      change (count_occ string_dec
                (heads ++ [reverse_url (latitude_of g) (longitude_of g)] ++ tail)%list
                (reverse_url (latitude_of g) (longitude_of g)) = 1%nat).
      rewrite !count_occ_app.
      rewrite (proj1 (count_occ_not_In string_dec _ _) Hheads).
      rewrite (proj1 (count_occ_not_In string_dec _ _) Htail).
      cbn [count_occ]. destruct (string_dec _ _); [reflexivity|congruence].
    + split; [now exists []|].
      split; [|split; [intros g' [= <-] Hb; congruence|intros Hfalse; congruence]].
      intros g' [= <-] Hb.
      split; [reflexivity|].
      intros lat lon Hin.
      change (In (reverse_url lat lon)
                (([ "https://api.ipify.org?format=json";
                    "https://api64.ipify.org?format=json" ]
                  ++ snd (geolocate_ip n (fst (get_public_ip_v4 n))))
                 ++ snd (ipinfo_lookup n (fst (get_public_ip_v4 n))))%list) in Hin.
      apply in_app_or in Hin. destruct Hin as [Hin|Hin].
      * exact (proj1 (Hother lat lon) Hin).
      * exact (proj2 (Hother lat lon) Hin).
  - injection H as <-; cbn [loc_reverse loc_geo loc_requests].
    split; [now exists []|].
    assert (Hnone : forall lat lon,
               ~ In (reverse_url lat lon)
                   (([ "https://api.ipify.org?format=json";
                       "https://api64.ipify.org?format=json" ]
                     ++ snd (geolocate_ip n (fst (get_public_ip_v4 n))))
                    ++ [] ++ snd (ipinfo_lookup n (fst (get_public_ip_v4 n))))%list).
    { intros lat lon Hin. apply in_app_or in Hin. destruct Hin as [Hin|Hin].
      - exact (proj1 (Hother lat lon) Hin).
      - exact (proj2 (Hother lat lon) Hin). }
    split; [|split].
    + intros g [= Hg] Hb. split; [reflexivity|exact Hnone].
    + intros g [= Hg] Hb.
      rewrite Hg in Hgeo. destruct g as [|kv g]; [|discriminate Hgeo].
      discriminate Hb.
    + intros _. split; [reflexivity|exact Hnone].
Qed.

Lemma reverse_lookup_needs_coordinates_witness :
  exists loc,
    collect_location equator_net = Ok loc
    /\ loc_geo loc = PDict [ ("latitude", PInt 0); ("longitude", PFloat 20.5) ]
    /\ loc_reverse loc = PDict [].
Proof.
  destruct (collect_location equator_net) as [loc|] eqn:Hloc;
    [|vm_compute in Hloc; discriminate Hloc].
  exists loc. split; [reflexivity|].
  assert (Hgeo : loc_geo loc = PDict [ ("latitude", PInt 0); ("longitude", PFloat 20.5) ]).
  { vm_compute in Hloc. injection Hloc as <-. reflexivity. }
  split; [exact Hgeo|].
  destruct (reverse_lookup_needs_coordinates equator_net loc Hloc) as (_ & Hzero & _).
  apply (Hzero _ Hgeo). reflexivity.
Defined.

(** The assembler raises exactly when the location it got is true and is
    no mapping, and then with [AttributeError]; this is what happens when
    the primary provider answers 200 with a JSON value that is true and
    is not an object, which [geolocate_ip] hands on as it is. *)
Theorem location_raises_iff (n : net) :
  ((exists e, collect_location n = Raise e)
   <-> (Py.truthy (fst (geolocate_ip n (fst (get_public_ip_v4 n)))) = true
        /\ forall g, fst (geolocate_ip n (fst (get_public_ip_v4 n))) <> PDict g))
  /\ (forall e, collect_location n = Raise e -> e = AttributeError)
  /\ (forall v,
        Py.truthy (fst (get_public_ip_v4 n)) = true ->
        fetch_json n (primary_url (fst (get_public_ip_v4 n))) = Some v ->
        Py.truthy v = true -> (forall g, v <> PDict g) ->
        collect_location n = Raise AttributeError).
Proof.
  assert (Hshape : forall geo,
            fst (geolocate_ip n (fst (get_public_ip_v4 n))) = geo ->
            Py.truthy geo = true -> (forall g, geo <> PDict g) ->
            collect_location n = Raise AttributeError).
  { intros geo Hgeo Htrue Hno. rewrite collect_location_unfold. cbv zeta.
    rewrite Hgeo, Htrue. destruct geo as [| | | | | |g]; try reflexivity.
    now elim (Hno g). }
  split; [|split].
  - split.
    + intros [e H]. rewrite collect_location_unfold in H. cbv zeta in H.
      destruct (Py.truthy (fst (geolocate_ip n (fst (get_public_ip_v4 n))))) eqn:Htrue;
        [|discriminate H].
      split; [reflexivity|]. intros g Hg. rewrite Hg in H.
      destruct (Py.truthy (latitude_of g) && Py.truthy (longitude_of g));
        discriminate H.
    + intros [Htrue Hno]. exists AttributeError. now apply (Hshape _ eq_refl).
  - intros e H. rewrite collect_location_unfold in H. cbv zeta in H.
    destruct (Py.truthy (fst (geolocate_ip n (fst (get_public_ip_v4 n)))));
      [|discriminate H].
    destruct (fst (geolocate_ip n (fst (get_public_ip_v4 n)))) as [| | | | | |g];
      try (injection H as <-; reflexivity).
    destruct (Py.truthy (latitude_of g) && Py.truthy (longitude_of g));
      discriminate H.
  - intros v Hip Hfetch Htrue Hno. apply (Hshape v); try assumption.
    unfold geolocate_ip. rewrite Hip, Hfetch. reflexivity.
Qed.

Lemma location_raises_iff_witness :
  collect_location listing_net = Raise AttributeError.
Proof.
  apply (proj2 (proj2 (location_raises_iff listing_net)) (PList [PStr "rate limited"]));
    try reflexivity.
  intros g. discriminate.
Defined.

(* ===================================================================== *)
(** * The battery record: proofs *)
(* ===================================================================== *)

Lemma all_text_dict_set (d : dict) (k t : string) :
  all_text d -> all_text (dict_set d k (PStr t)).
Proof.
  intros Hd. induction d as [|[k0 x] d IH]; cbn [dict_set].
  - intros k' v [[= _ <-]|[]]. now exists t.
  - destruct (k0 =? k)%string.
    + intros k' v [[= _ <-]|Hin]; [now exists t|].
      apply (Hd k' v). now right.
    + intros k' v [[= <- <-]|Hin].
      * apply (Hd k0 x). now left.
      * apply (IH (fun k1 v1 H1 => Hd k1 v1 (or_intror H1)) k' v Hin).
Qed.

Lemma parse_battery_lines_text (lines : list string) (res : dict) :
  all_text res -> all_text (parse_battery_lines lines res).
Proof.
  revert res. induction lines as [|line lines IH]; intros res Hres; [exact Hres|].
  cbn [parse_battery_lines].
  destruct (PyLines.partition ":" line) as [[k v]|]; apply IH; [|exact Hres].
  now apply all_text_dict_set.
Qed.

Lemma lookup_in (d : dict) (k : string) (v : pyval) :
  Py.lookup d k = Some v -> In (k, v) d.
Proof.
  induction d as [|[k0 x] d IH]; [discriminate|]. cbn [Py.lookup].
  destruct (String.eqb_spec k0 k) as [->|_].
  - intros [= ->]. now left.
  - intros H. right. now apply IH.
Qed.

Lemma text_is_not_zero (d : dict) (k : string) :
  all_text d -> Py.is_zero (Py.get d k) = false.
Proof.
  intros Hd. unfold Py.get, Py.get_default.
  destruct (Py.lookup d k) as [v|] eqn:Hk; [|reflexivity].
  destruct (Hd k v (lookup_in d k v Hk)) as [t ->]. reflexivity.
Qed.

(** When [termux-battery-status] gives nothing usable and [dumpsys
    battery] prints something, the record is a mapping of texts: no field
    of it is the number 0, and a level that is printed, whatever its text,
    is handed to [battery_bars] when there is no percentage beside it. *)
Theorem dumpsys_record_is_text (i : interpreter) (h : host) (out : string) :
  termux_battery h = None ->
  check_output h "dumpsys battery" = Some out ->
  PyLines.strip out <> "" ->
  exists d,
    get_battery_info h = PDict d
    /\ all_text d
    /\ ~ reports_zero d "percentage" "level"
    /\ (forall t, Py.lookup d "level" = Some (PStr t) -> t <> "" ->
          Py.truthy (Py.get d "percentage") = false ->
          collect_battery_bars i (PDict d) = battery_bars i (PStr t)).
Proof.
  intros Htermux Hout Hne.
  unfold get_battery_info, run_cmd. rewrite Htermux, Hout.
  cbn [Py.truthy Py.str].
  destruct (String.eqb_spec (PyLines.strip out) "") as [E|_]; [contradiction|].
  cbn [negb].
  set (d := parse_battery_lines (PyLines.splitlines (PyLines.strip out)) []).
  assert (Hd : all_text d).
  { apply parse_battery_lines_text. intros k v []. }
  exists d. split; [reflexivity|]. split; [exact Hd|]. split.
  - intros [[Hz _]|[_ Hz]]; rewrite (text_is_not_zero d _ Hd) in Hz; discriminate Hz.
  - intros t Hlevel Ht Hperc.
    unfold collect_battery_bars, collect_perc, Py.or. rewrite Hperc.
    unfold Py.get at 1 2. unfold Py.get_default. rewrite Hlevel.
    cbn [Py.truthy]. destruct (String.eqb_spec t "") as [E|_]; [contradiction|].
    reflexivity.
Qed.

Lemma dumpsys_record_is_text_witness :
  collect_battery_bars fixture_interpreter (get_battery_info dumpsys_host)
  = "▯▯▯▯▯▯▯▯▯▯".
Proof.
  destruct (dumpsys_record_is_text fixture_interpreter dumpsys_host
              ("Current Battery Service state:" ++ PyText.nl
               ++ "  AC powered: false" ++ PyText.nl
               ++ "  level: 0" ++ PyText.nl
               ++ "  scale: 100" ++ PyText.nl))
    as (d & Hd & _ & _ & Hbar);
    [reflexivity | reflexivity | vm_compute; discriminate |].
  rewrite Hd. rewrite (Hbar "0").
  - vm_compute. reflexivity.
  - vm_compute in Hd. injection Hd as <-. reflexivity.
  - discriminate.
  - vm_compute in Hd. injection Hd as <-. reflexivity.
Defined.

(** A record that [termux-battery-status] prints as JSON and that is no
    object is returned as it is: the assembler stores [N/A] for its bar,
    and the formatter, which calls [get] on it, raises. *)
Theorem non_object_battery_aborts_report (i : interpreter) (h : host) (snap : dict)
    (v : pyval) :
  termux_battery h = Some v ->
  (forall d, v <> PDict d) ->
  Py.lookup snap "battery" = Some (get_battery_info h) ->
  get_battery_info h = v
  /\ collect_battery_bars i (get_battery_info h) = "N/A"
  /\ build_message_from_snapshot snap = Raise AttributeError.
Proof.
  intros Htermux Hno Hstored.
  assert (Hv : get_battery_info h = v).
  { unfold get_battery_info. now rewrite Htermux. }
  rewrite Hv in *. split; [reflexivity|]. split.
  - destruct v as [| | | | | |d]; try reflexivity. now elim (Hno d).
  - unfold build_message_from_snapshot.
    destruct (build_message_lines snap) as [lines|e] eqn:Hl.
    + exfalso. apply build_message_lines_spec in Hl.
      destruct Hl as (g & rd & ii & di & bt & cp & _ & _ & _ & _ & H5 & _).
      destruct H5 as [H5|[H5 _]]; [|congruence].
      rewrite Hstored in H5. injection H5 as ->. now elim (Hno bt).
    + apply build_message_lines_raises in Hl. now subst e.
Qed.

Lemma non_object_battery_aborts_report_witness :
  build_message_from_snapshot [ ("battery", get_battery_info listing_host) ]
  = Raise AttributeError.
Proof.
  apply (non_object_battery_aborts_report fixture_interpreter listing_host
           [ ("battery", get_battery_info listing_host) ] (PList [PInt 5]));
    try reflexivity.
  intros d. discriminate.
Defined.

(** For a snapshot that stores what the assembler collected about the
    location, the formatter returns a message only if the location and
    the IP details are mappings; the address never stands in its way.  A
    location that is false and no mapping, which the assembler lets
    through, makes the formatter raise. *)
Theorem report_needs_object_answers (n : net) (loc : location) (snap : dict) :
  collect_location n = Ok loc ->
  Py.lookup snap "geo" = Some (loc_geo loc) ->
  Py.lookup snap "reverse_geocode" = Some (loc_reverse loc) ->
  Py.lookup snap "ipinfo" = Some (loc_ipinfo loc) ->
  ((exists msg, build_message_from_snapshot snap = Ok msg) ->
   exists g ii, loc_geo loc = PDict g /\ loc_ipinfo loc = PDict ii)
  /\ ((forall g, loc_geo loc <> PDict g) \/ (forall ii, loc_ipinfo loc <> PDict ii) ->
      build_message_from_snapshot snap = Raise AttributeError)
  /\ exists rd, stored_mapping_or_false snap "reverse_geocode" rd.
Proof.
  intros Hloc Hgeo Hrev Hinfo.
  assert (Hret : (exists msg, build_message_from_snapshot snap = Ok msg) ->
                 exists g ii, loc_geo loc = PDict g /\ loc_ipinfo loc = PDict ii).
  { intros [msg H]. unfold build_message_from_snapshot in H.
    destruct (build_message_lines snap) as [lines|e] eqn:Hl; [|discriminate H].
    apply build_message_lines_spec in Hl.
    destruct Hl as (g & rd & ii & di & bt & cp & H1 & _ & H3 & _).
    exists g, ii. split.
    - destruct H1 as [H1|[H1 _]]; congruence.
    - destruct H3 as [H3|[H3 _]]; congruence. }
  split; [exact Hret|]. split.
  - intros Hno. unfold build_message_from_snapshot.
    destruct (build_message_lines snap) as [lines|e] eqn:Hl.
    + exfalso. destruct Hret as (g & ii & Hg & Hii).
      { unfold build_message_from_snapshot. rewrite Hl. eexists. reflexivity. }
      destruct Hno as [Hno|Hno]; [exact (Hno g Hg)|exact (Hno ii Hii)].
    + apply build_message_lines_raises in Hl. now subst e.
  - rewrite collect_location_unfold in Hloc. cbv zeta in Hloc.
    assert (Hrd : exists rd, loc_reverse loc = PDict rd).
    { destruct (Py.truthy (fst (geolocate_ip n (fst (get_public_ip_v4 n))))).
      - destruct (fst (geolocate_ip n (fst (get_public_ip_v4 n)))) as [| | | | | |g];
          try discriminate Hloc.
        destruct (Py.truthy (latitude_of g) && Py.truthy (longitude_of g));
          injection Hloc as <-; cbn [loc_reverse];
          [apply reverse_geocode_mapping|now exists []].
      - injection Hloc as <-. now exists []. }
    destruct Hrd as [rd Hrd]. exists rd. left. left. congruence.
Qed.

Lemma report_needs_object_answers_witness :
  exists loc,
    collect_location equator_net = Ok loc
    /\ exists g ii, loc_geo loc = PDict g /\ loc_ipinfo loc = PDict ii.
Proof.
  destruct (collect_location equator_net) as [loc|] eqn:Hloc;
    [|vm_compute in Hloc; discriminate Hloc].
  exists loc. split; [reflexivity|].
  apply (proj1 (report_needs_object_answers equator_net loc
                  [ ("geo", loc_geo loc); ("reverse_geocode", loc_reverse loc);
                    ("ipinfo", loc_ipinfo loc) ]
                  Hloc eq_refl eq_refl eq_refl)).
  vm_compute in Hloc. injection Hloc as <-. vm_compute. eexists. reflexivity.
Defined.

(* ===================================================================== *)
(** * Memory and CPU records: proofs *)
(* ===================================================================== *)

Lemma parse_battery_lines_app (l1 l2 : list string) (res : dict) :
  parse_battery_lines (l1 ++ l2)%list res
  = parse_battery_lines l2 (parse_battery_lines l1 res).
Proof.
  revert res. induction l1 as [|line l1 IH]; intros res; [reflexivity|].
  cbn [app parse_battery_lines].
  destruct (PyLines.partition ":" line) as [[k v]|]; apply IH.
Qed.

(** The record of [get_mem_info] is a mapping of texts for every answer
    of the command, the empty one when the command fails; in the loop it
    shares with the battery fallback the last line of a key gives its
    value, split at the first colon and stripped on both sides. *)
Theorem colon_records (h : host) :
  (exists d, get_mem_info h = PDict d /\ all_text d)
  /\ (check_output h "cat /proc/meminfo" = None -> get_mem_info h = PDict [])
  /\ (forall lines line k v res,
        PyLines.partition ":" line = Some (k, v) ->
        Py.lookup (parse_battery_lines (lines ++ [line]) res) (PyLines.strip k)
        = Some (PStr (PyLines.strip v))).
Proof.
  split; [|split].
  - unfold get_mem_info.
    destruct (Py.truthy (run_cmd h "cat /proc/meminfo")).
    + eexists. split; [reflexivity|].
      apply parse_battery_lines_text. intros k v [].
    + exists []. split; [reflexivity|]. intros k v [].
  - intros Hfail. unfold get_mem_info, run_cmd. rewrite Hfail. reflexivity.
  - intros lines line k v res Hpart.
    rewrite parse_battery_lines_app. cbn [parse_battery_lines]. rewrite Hpart.
    apply lookup_dict_set_same.
Qed.

Lemma colon_records_witness :
  Py.lookup (parse_battery_lines [ "level: 1"; "scale: 100"; " level :0 " ] []) "level"
  = Some (PStr "0").
Proof.
  apply (proj2 (proj2 (colon_records dumpsys_host))
           [ "level: 1"; "scale: 100" ] " level :0 " " level " "0 " []).
  reflexivity.
Defined.

Lemma processor_lines_cons (line : string) (lines : list string) :
  processor_lines (line :: lines)
  = (if String.prefix "processor" line then 1 else 0) + processor_lines lines.
Proof.
  unfold processor_lines. cbn [filter].
  destruct (String.prefix "processor" line); cbn [List.length]; lia.
Qed.

Lemma processor_lines_nonneg (lines : list string) : 0 <= processor_lines lines.
Proof. unfold processor_lines. lia. Qed.

Lemma processor_lines_app (l1 l2 : list string) :
  processor_lines (l1 ++ l2)%list = processor_lines l1 + processor_lines l2.
Proof.
  induction l1 as [|line l1 IH]; [reflexivity|].
  cbn [app]. rewrite !processor_lines_cons, IH. lia.
Qed.

Lemma cpu_lines_bounds (lines : list string) (model : pyval) (cores : Z) :
  (model = PNone \/ exists t, model = PStr t) ->
  cores <= snd (cpu_lines lines model cores) <= cores + processor_lines lines
  /\ (fst (cpu_lines lines model cores) = PNone
      \/ exists t, fst (cpu_lines lines model cores) = PStr t).
Proof.
  revert model cores. induction lines as [|line lines IH]; intros model cores Hm.
  - cbn [cpu_lines fst snd]. unfold processor_lines. cbn. split; [lia|exact Hm].
  - cbn [cpu_lines]. rewrite processor_lines_cons.
    pose proof (processor_lines_nonneg lines) as Hpos.
    destruct ((has_text "model name" line || has_text "Hardware" line) && is_none model).
    + destruct (PyLines.partition ":" line) as [[k v]|].
      * destruct (IH (PStr (PyLines.strip v))
                     (if String.prefix "processor" line then cores + 1 else cores))
          as [Hb Hmodel]; [right; eexists; reflexivity|].
        split; [|exact Hmodel].
        destruct (String.prefix "processor" line); lia.
      * cbn [fst snd]. split; [|exact Hm].
        destruct (String.prefix "processor" line); lia.
    + destruct (IH model (if String.prefix "processor" line then cores + 1 else cores) Hm)
        as [Hb Hmodel].
      split; [|exact Hmodel].
      destruct (String.prefix "processor" line); lia.
Qed.

Lemma cpu_lines_all_counted (lines : list string) (model : pyval) (cores : Z) :
  (forall line, In line lines -> names_model line = true ->
                PyLines.partition ":" line <> None) ->
  snd (cpu_lines lines model cores) = cores + processor_lines lines.
Proof.
  revert model cores. induction lines as [|line lines IH]; intros model cores Hcolon.
  - cbn [cpu_lines snd]. unfold processor_lines. cbn. lia.
  - cbn [cpu_lines]. rewrite processor_lines_cons.
    assert (Hrest : forall l, In l lines -> names_model l = true ->
                              PyLines.partition ":" l <> None).
    { intros l Hl. apply Hcolon. now right. }
    fold (names_model line).
    destruct (names_model line && is_none model) eqn:Hcase.
    + apply andb_prop in Hcase. destruct Hcase as [Hnames _].
      destruct (PyLines.partition ":" line) as [[k v]|] eqn:Hpart.
      * rewrite (IH _ _ Hrest). destruct (String.prefix "processor" line); lia.
      * elim (Hcolon line (or_introl eq_refl) Hnames). exact Hpart.
    + rewrite (IH _ _ Hrest). destruct (String.prefix "processor" line); lia.
Qed.

Lemma cpu_lines_stop (before after : list string) (line : string) (cores : Z) :
  (forall l, In l before -> names_model l = false) ->
  names_model line = true -> PyLines.partition ":" line = None ->
  cpu_lines (before ++ line :: after)%list PNone cores
  = (PNone, cores + processor_lines before).
Proof.
  revert cores. induction before as [|l before IH]; intros cores Hbefore Hnames Hpart.
  - cbn [app cpu_lines]. fold (names_model line). rewrite Hnames, Hpart.
    unfold processor_lines. cbn. f_equal. lia.
  - cbn [app cpu_lines]. fold (names_model l).
    rewrite (Hbefore l (or_introl eq_refl)). cbn [andb].
    rewrite IH; try assumption.
    + rewrite processor_lines_cons. f_equal.
      destruct (String.prefix "processor" l); lia.
    + intros l' Hl'. apply Hbefore. now right.
Qed.

(** [get_cpu_basic] returns a record of a model, [None] or a text, and a
    count of cores that lies between 0 and the number of lines of the
    stripped output that start with [processor].  The count is that number
    when every line naming the model has a colon; a first such line
    without one ends the scan, leaving no model and only the processors
    counted before it. *)
Theorem cpu_basic_counts (h : host) :
  exists model cores,
    get_cpu_basic h = PDict [ ("model", model); ("cores", PInt cores) ]
    /\ (model = PNone \/ exists t, model = PStr t)
    /\ (check_output h "cat /proc/cpuinfo" = None -> model = PNone /\ cores = 0)
    /\ forall out,
         check_output h "cat /proc/cpuinfo" = Some out ->
         0 <= cores <= processor_lines (PyLines.splitlines (PyLines.strip out))
         /\ ((forall line, In line (PyLines.splitlines (PyLines.strip out)) ->
                names_model line = true -> PyLines.partition ":" line <> None) ->
             cores = processor_lines (PyLines.splitlines (PyLines.strip out)))
         /\ (forall before line after,
               PyLines.splitlines (PyLines.strip out) = (before ++ line :: after)%list ->
               (forall l, In l before -> names_model l = false) ->
               names_model line = true -> PyLines.partition ":" line = None ->
               model = PNone /\ cores = processor_lines before).
Proof.
  unfold get_cpu_basic, run_cmd.
  destruct (check_output h "cat /proc/cpuinfo") as [out|].
  - cbn [Py.truthy Py.str].
    assert (Hsame : (if negb (PyLines.strip out =? "")%string
                     then cpu_lines (PyLines.splitlines (PyLines.strip out)) PNone 0
                     else (PNone, 0))
                    = cpu_lines (PyLines.splitlines (PyLines.strip out)) PNone 0).
    { destruct (String.eqb_spec (PyLines.strip out) "") as [->|_]; reflexivity. }
    rewrite Hsame. clear Hsame.
    set (lines := PyLines.splitlines (PyLines.strip out)).
    destruct (cpu_lines_bounds lines PNone 0 (or_introl eq_refl)) as [Hb Hmodel].
    pose proof (cpu_lines_all_counted lines PNone 0) as Hall.
    pose proof (fun before line after => cpu_lines_stop before after line 0) as Hstop.
    destruct (cpu_lines lines PNone 0) as [model cores] eqn:Hrun.
    cbn [fst snd] in *.
    exists model, cores. split; [reflexivity|]. split; [exact Hmodel|].
    split; [discriminate|].
    intros out' [= <-]. fold lines. split; [lia|]. split.
    + intros Hcolon. rewrite (Hall Hcolon). lia.
    + intros before line after Hlines Hbefore Hnames Hpart.
      rewrite Hlines in Hrun.
      rewrite (Hstop before line after Hbefore Hnames Hpart) in Hrun.
      injection Hrun as <- <-. split; [reflexivity|lia].
  - cbn [Py.truthy].
    exists PNone, 0. split; [reflexivity|]. split; [now left|].
    split; [now split|]. discriminate.
Qed.

Lemma cpu_basic_counts_witness :
  get_cpu_basic cpuinfo_host = PDict [ ("model", PNone); ("cores", PInt 1) ].
Proof.
  destruct (cpu_basic_counts cpuinfo_host) as (model & cores & -> & _ & _ & H).
  destruct (H ("processor : 0" ++ PyText.nl ++ "Hardware" ++ PyText.nl
               ++ "processor : 1" ++ PyText.nl) eq_refl) as (_ & _ & Hstop).
  destruct (Hstop [ "processor : 0" ] "Hardware" [ "processor : 1" ]) as [-> ->].
  - vm_compute. reflexivity.
  - intros l [<-|[]]. vm_compute. reflexivity.
  - vm_compute. reflexivity.
  - vm_compute. reflexivity.
  - reflexivity.
Defined.

(** A charge from 0 to 100 that arrives as its decimal text, as the
    [dumpsys] fallback gives it, gets the bar of the number. *)
Theorem battery_bars_text_as_number (i : interpreter) (z : Z) :
  0 <= z <= 100 ->
  battery_bars i (PStr (PyStr.of_Z z)) = battery_bars i (PInt z).
Proof.
  intros Hz.
  assert (Hall : forallb
                   (fun n => match scaled (PStr (PyStr.of_Z (Z.of_nat n))),
                                   scaled (PInt (Z.of_nat n)) with
                             | Ok a, Ok b => a =? b
                             | _, _ => false
                             end)
                   (seq 0 101) = true) by (vm_compute; reflexivity).
  rewrite forallb_forall in Hall.
  specialize (Hall (Z.to_nat z)). rewrite Z2Nat.id in Hall by lia.
  apply battery_bars_by_scaled.
  destruct (scaled (PStr (PyStr.of_Z z))) as [a|]; destruct (scaled (PInt z)) as [b|];
    try (discriminate Hall; apply in_seq; lia).
  f_equal. apply Z.eqb_eq, Hall, in_seq. lia.
Qed.

Lemma battery_bars_text_as_number_witness :
  battery_bars fixture_interpreter (PStr "70") = battery_bars fixture_interpreter (PInt 70).
Proof.
  apply (battery_bars_text_as_number fixture_interpreter 70). lia.
Defined.

(* ===================================================================== *)
(** * Scanner and workers together: proofs *)
(* ===================================================================== *)

Lemma tally_with_scan (f : string -> bool) (p : pool) (items : list (option string))
    (c : counters) :
  incoming p = [] ->
  tally f (with_scan p items c) = (tally f p + count_if f (paths_of items))%nat.
Proof.
  intros Hin. unfold tally, with_scan. cbn [workers queue incoming].
  rewrite Hin. cbn [paths_of flat_map]. rewrite count_if_nil. lia.
Qed.

(** A file of one class is in no other. *)
Lemma class_exclusive (o : os) (f : string) :
  (passes_filter o f = true -> oversized o f = false /\ unreadable o f = false)
  /\ (oversized o f = true -> unreadable o f = false).
Proof.
  pose proof (classes_partition o f) as H.
  destruct (passes_filter o f), (oversized o f), (unreadable o f),
    (disallowed_or_empty o f); simpl in H; try lia;
    split; intros; try discriminate; try split; reflexivity.
Qed.

Lemma exec_incoming_paths (u : uploads) (a : action) (p p' : pool) :
  exec u a p = Some p' ->
  match a, incoming p with
  | Put, Some _ :: _ =>
      S (List.length (paths_of (incoming p'))) = List.length (paths_of (incoming p))
  | _, _ => List.length (paths_of (incoming p')) = List.length (paths_of (incoming p))
  end.
Proof.
  destruct a as [| | |i|i|i]; cbn [exec].
  - destruct (incoming p) as [|[x|] rest]; [discriminate| |];
      destruct (List.length (queue p) <? QUEUE_MAX)%nat; try discriminate;
      intros [= <-]; reflexivity.
  - destruct (incoming p) as [|[x|] rest]; try discriminate.
    destruct (List.length (queue p) <? QUEUE_MAX)%nat; [discriminate|].
    intros [= <-]. reflexivity.
  - intros [= <-]. now destruct (incoming p) as [|[x|] rest].
  - destruct (nth_error (workers p) i) as [[| | |]|]; try discriminate.
    intros [= <-]. reflexivity.
  - destruct (nth_error (workers p) i) as [[| | |]|]; try discriminate.
    destruct (queue p) as [|[x|] rest]; intros [= <-]; reflexivity.
  - destruct (nth_error (workers p) i) as [[| |x|]|]; try discriminate.
    destruct (send_document_once u x). intros [= <-]. reflexivity.
Qed.

Lemma ledger_of_pool_step (o : os) (u : uploads) (s : session) (a : action) (p : pool) :
  exec u a (pl s) = Some p ->
  List.length (paths_of (incoming p)) = List.length (paths_of (incoming (pl s))) ->
  ledger o u {| todo := todo s; sealed := sealed s; pl := p |} = ledger o u s.
Proof.
  intros Hexec Hpaths. apply exec_keeps_tally in Hexec.
  destruct Hexec as (S1 & E1 & F1 & Q1 & K1).
  unfold ledger. cbn [todo sealed pl]. f_equal; lia.
Qed.

(** No move changes what the counters will come to. *)
Lemma step_keeps_ledger (o : os) (u : uploads) (m : move) (s s' : session) :
  step o u m s = Some s' -> ledger o u s' = ledger o u s.
Proof.
  destruct m as [| |a]; cbn [step].
  - destruct (todo s) as [|full rest] eqn:Htodo; [discriminate|].
    destruct (incoming (pl s)) as [|x xs] eqn:Hin; [|discriminate].
    destruct (sealed s); [discriminate|].
    rewrite is_allowed_file_by_class.
    intros [= <-]. unfold ledger. cbn [todo sealed pl].
    rewrite !tally_with_scan by exact Hin.
    rewrite Htodo, Hin. cbn [List.length paths_of flat_map].
    rewrite !count_if_cons. unfold accepted, refused.
    destruct (class_exclusive o full) as [Hpass Hover].
    cbn [with_scan shared incoming].
    destruct (passes_filter o full) eqn:Hp.
    + destruct (Hpass eq_refl) as [-> ->].
      cbn [paths_of flat_map app List.length].
      rewrite !count_if_cons, !count_if_nil.
      cbn [andb found queued sent skipped errors incr_found].
      assert (Hf : failed u full = negb (answered_200 u full)) by reflexivity.
      rewrite Hf.
      destruct (answered_200 u full); cbn [negb]; f_equal; lia.
    + cbn [paths_of flat_map List.length andb]. rewrite !count_if_nil.
      destruct (oversized o full) eqn:Ho.
      * rewrite (Hover eq_refl).
        cbn [found queued sent skipped errors incr_found incr_skipped]. f_equal; lia.
      * destruct (unreadable o full);
          cbn [found queued sent skipped errors incr_found incr_errors]; f_equal; lia.
  - destruct (todo s) as [|full rest] eqn:Htodo; [|discriminate].
    destruct (incoming (pl s)) as [|x xs] eqn:Hin; [|discriminate].
    destruct (sealed s); [discriminate|].
    intros [= <-]. unfold ledger. cbn [todo sealed pl].
    rewrite !tally_with_scan by exact Hin.
    rewrite Htodo, Hin. cbn [with_scan shared incoming].
    cbn [List.length paths_of flat_map app].
    rewrite !count_if_nil. f_equal; lia.
  - destruct a as [| | |i|i|i].
    + destruct (exec u Put (pl s)) as [p|] eqn:Hexec; [|discriminate].
      intros [= <-].
      pose proof (exec_incoming_paths u Put (pl s) p Hexec) as Hpaths.
      pose proof (exec_keeps_tally u Put (pl s) p Hexec) as (S1 & E1 & F1 & Q1 & K1).
      destruct (incoming (pl s)) as [|[x|] rest] eqn:Hin.
      * apply (ledger_of_pool_step o u s Put p Hexec). now rewrite Hin.
      * unfold ledger. cbn [todo sealed pl].
        unfold tally in *. cbn [with_scan shared incoming workers queue] in *.
        cbn [found queued sent skipped errors incr_queued].
        rewrite Hin. rewrite Hin in S1, E1. f_equal; lia.
      * apply (ledger_of_pool_step o u s Put p Hexec). now rewrite Hin.
    + destruct (exec u DropSentinel (pl s)) as [p|] eqn:Hexec; [|discriminate].
      intros [= <-]. apply (ledger_of_pool_step o u s DropSentinel p Hexec).
      pose proof (exec_incoming_paths u DropSentinel (pl s) p Hexec) as H.
      now destruct (incoming (pl s)).
    + discriminate.
    + destruct (exec u (CheckStop i) (pl s)) as [p|] eqn:Hexec; [|discriminate].
      intros [= <-]. apply (ledger_of_pool_step o u s (CheckStop i) p Hexec).
      pose proof (exec_incoming_paths u (CheckStop i) (pl s) p Hexec) as H.
      now destruct (incoming (pl s)).
    + destruct (exec u (Get i) (pl s)) as [p|] eqn:Hexec; [|discriminate].
      intros [= <-]. apply (ledger_of_pool_step o u s (Get i) p Hexec).
      pose proof (exec_incoming_paths u (Get i) (pl s) p Hexec) as H.
      now destruct (incoming (pl s)).
    + destruct (exec u (Finish i) (pl s)) as [p|] eqn:Hexec; [|discriminate].
      intros [= <-]. apply (ledger_of_pool_step o u s (Finish i) p Hexec).
      pose proof (exec_incoming_paths u (Finish i) (pl s) p Hexec) as H.
      now destruct (incoming (pl s)).
Qed.

Lemma step_keeps_order (o : os) (u : uploads) (m : move) (s s' : session) :
  step o u m s = Some s' ->
  (List.length (queue (pl s)) <= QUEUE_MAX)%nat ->
  unfinished (pl s)
  = (List.length (queue (pl s)) + List.length (sending_of (workers (pl s))))%nat ->
  (sealed s = true -> todo s = []) ->
  (List.length (queue (pl s')) <= QUEUE_MAX)%nat
  /\ unfinished (pl s')
     = (List.length (queue (pl s')) + List.length (sending_of (workers (pl s'))))%nat
  /\ (sealed s' = true -> todo s' = []).
Proof.
  intros Hstep Hcap Hun Hseal.
  assert (Hpool : forall a p, exec u a (pl s) = Some p ->
            (List.length (queue p) <= QUEUE_MAX)%nat
            /\ unfinished p
               = (List.length (queue p) + List.length (sending_of (workers p)))%nat).
  { intros a p Hexec. exact (exec_keeps_queue_invariants u a (pl s) p Hexec Hcap Hun). }
  destruct m as [| |a]; cbn [step] in Hstep.
  - destruct (todo s) as [|full rest]; [discriminate|].
    destruct (incoming (pl s)) as [|x xs]; [|discriminate].
    destruct (sealed s); [discriminate|].
    destruct (is_allowed_file o full (incr_found (shared (pl s)))) as [allowed c'].
    injection Hstep as <-. cbn [pl sealed todo with_scan queue unfinished workers].
    split; [exact Hcap|]. split; [exact Hun|]. discriminate.
  - destruct (todo s) as [|full rest]; [|discriminate].
    destruct (incoming (pl s)) as [|x xs]; [|discriminate].
    destruct (sealed s); [discriminate|].
    injection Hstep as <-. cbn [pl sealed todo with_scan queue unfinished workers].
    split; [exact Hcap|]. split; [exact Hun|]. reflexivity.
  - destruct a as [| | |i|i|i]; try discriminate Hstep.
    + destruct (exec u Put (pl s)) as [p|] eqn:Hexec; [|discriminate].
      destruct (Hpool Put p Hexec) as [Hc Hu].
      injection Hstep as <-. cbn [pl sealed todo].
      destruct (incoming (pl s)) as [|[x|] rest];
        cbn [with_scan queue unfinished workers];
        (split; [exact Hc|]; split; [exact Hu|exact Hseal]).
    + destruct (exec u DropSentinel (pl s)) as [p|] eqn:Hexec; [|discriminate].
      destruct (Hpool DropSentinel p Hexec) as [Hc Hu].
      injection Hstep as <-. cbn [pl sealed todo].
      split; [exact Hc|]. split; [exact Hu|exact Hseal].
    + destruct (exec u (CheckStop i) (pl s)) as [p|] eqn:Hexec; [|discriminate].
      destruct (Hpool (CheckStop i) p Hexec) as [Hc Hu].
      injection Hstep as <-. cbn [pl sealed todo].
      split; [exact Hc|]. split; [exact Hu|exact Hseal].
    + destruct (exec u (Get i) (pl s)) as [p|] eqn:Hexec; [|discriminate].
      destruct (Hpool (Get i) p Hexec) as [Hc Hu].
      injection Hstep as <-. cbn [pl sealed todo].
      split; [exact Hc|]. split; [exact Hu|exact Hseal].
    + destruct (exec u (Finish i) (pl s)) as [p|] eqn:Hexec; [|discriminate].
      destruct (Hpool (Finish i) p Hexec) as [Hc Hu].
      injection Hstep as <-. cbn [pl sealed todo].
      split; [exact Hc|]. split; [exact Hu|exact Hseal].
Qed.

Lemma play_keeps_books (o : os) (u : uploads) (moves : list move) :
  forall s s',
    play o u moves s = Some s' ->
    (List.length (queue (pl s)) <= QUEUE_MAX)%nat ->
    unfinished (pl s)
    = (List.length (queue (pl s)) + List.length (sending_of (workers (pl s))))%nat ->
    (sealed s = true -> todo s = []) ->
    ledger o u s' = ledger o u s
    /\ unfinished (pl s')
       = (List.length (queue (pl s')) + List.length (sending_of (workers (pl s'))))%nat
    /\ (sealed s' = true -> todo s' = []).
Proof.
  induction moves as [|m moves IH]; cbn [play]; intros s s' Hplay Hcap Hun Hseal.
  - injection Hplay as <-. repeat split; assumption.
  - destruct (step o u m s) as [s1|] eqn:Hstep; [|discriminate].
    destruct (step_keeps_order o u m s s1 Hstep Hcap Hun Hseal) as (Hc1 & Hu1 & Hs1).
    destruct (IH s1 s' Hplay Hc1 Hu1 Hs1) as (Hl & Hu & Hs).
    split; [|split; assumption].
    rewrite Hl. exact (step_keeps_ledger o u m s s1 Hstep).
Qed.

(** When the scan and [file_queue.join()] have both returned, whatever
    the interleaving of the scanner and the workers was, the counters
    that [run] prints stand at: [found], every file the scan looked at;
    [queued], those that passed the filter; [skipped], the oversized ones;
    [sent], the queued files whose upload was answered with 200; and
    [errors], the files whose size could not be read together with the
    queued files whose upload failed. *)
Theorem run_counters_when_joined (o : os) (u : uploads) (c : counters)
    (moves : list move) (s : session) :
  play o u moves (opening o c) = Some s ->
  joined s ->
  found (shared (pl s)) = (found c + List.length (scanned_files o))%nat
  /\ queued (shared (pl s))
     = (queued c + count_if (passes_filter o) (scanned_files o))%nat
  /\ skipped (shared (pl s))
     = (skipped c + count_if (oversized o) (scanned_files o))%nat
  /\ sent (shared (pl s))
     = (sent c + count_if (accepted o u) (scanned_files o))%nat
  /\ errors (shared (pl s))
     = (errors c + count_if (unreadable o) (scanned_files o)
        + count_if (refused o u) (scanned_files o))%nat.
Proof.
  intros Hplay (Hsealed & Hin & Hzero).
  destruct (play_keeps_books o u moves (opening o c) s Hplay) as (Hl & Hun & Hseal).
  - cbn. lia.
  - cbn [opening pl start unfinished queue workers]. now rewrite sending_of_idle.
  - discriminate.
  - specialize (Hseal Hsealed). rewrite Hzero in Hun.
    assert (Hq : queue (pl s) = []) by (apply length_zero_iff_nil; lia).
    assert (Hw : sending_of (workers (pl s)) = []) by (apply length_zero_iff_nil; lia).
    unfold ledger in Hl. cbn [opening pl todo] in Hl.
    rewrite !tally_start in Hl. unfold tally in Hl.
    rewrite Hseal, Hin, Hq, Hw in Hl.
    cbn [start shared incoming paths_of flat_map List.length] in Hl.
    rewrite !count_if_nil in Hl.
    injection Hl as F Q S K E.
    repeat split; lia.
Qed.

Lemma run_counters_when_joined_witness :
  exists s,
    play session_os session_uploads session_moves (opening session_os counters0) = Some s
    /\ shared (pl s)
       = {| found := 4; queued := 2; sent := 1; skipped := 0; errors := 2 |}.
Proof.
  destruct (play session_os session_uploads session_moves (opening session_os counters0))
    as [s|] eqn:Hplay; [|vm_compute in Hplay; discriminate Hplay].
  exists s. split; [reflexivity|].
  assert (Hjoined : joined s).
  { vm_compute in Hplay. injection Hplay as <-. repeat split. }
  destruct (run_counters_when_joined _ _ _ _ _ Hplay Hjoined) as (F & Q & K & S & E).
  destruct (shared (pl s)) as [f q sn k e]. cbn [found queued sent skipped errors] in *.
  rewrite F, Q, K, S, E. vm_compute. reflexivity.
Defined.
